(** * page-renderer.js: the content-to-markup pipeline

    A shallow embedding of the page renderer of the Nilüfer Ormanlı Studio
    site (src/assets/js/mobile-nav.js, second script of the bundle):
    path normalisation, the URL -> YAML content map, HTML escaping, the
    section renderer registry with its fallback, the active-navigation
    marker, the page initialiser and the site-chrome helpers.

    Conventions.
    - A JavaScript string is a [string]; the helpers below act on ASCII
      characters (the browser reports [location.pathname] percent-encoded,
      and every character the code searches for or replaces is ASCII).
    - A value produced by the YAML loader is a [value]; code that can raise
      a JavaScript exception returns a [result].
    - The DOM is explicit state: a [world] record, updated one mutation at
      a time, with every mutation recorded in a log. *)

From Stdlib Require Import String Ascii List Bool Arith ZArith Lia.
Import ListNotations.
Open Scope string_scope.

(* ------------------------------------------------------------------ *)
(** ** String primitives of the host language *)

Module JsString.

(** [s.replace(/c/g, by)] for a single literal character [c]. *)
Fixpoint replace_all (c : ascii) (by_ : string) (s : string) : string :=
  match s with
  | EmptyString => EmptyString
  | String a r =>
      if Ascii.eqb a c then by_ ++ replace_all c by_ r
      else String a (replace_all c by_ r)
  end.

Definition is_upper (a : ascii) : bool :=
  let n := nat_of_ascii a in Nat.leb 65 n && Nat.leb n 90.

Definition lower_char (a : ascii) : ascii :=
  if is_upper a then ascii_of_nat (nat_of_ascii a + 32) else a.

(** [s.toLowerCase()] on ASCII text. *)
Fixpoint toLowerCase (s : string) : string :=
  match s with
  | EmptyString => EmptyString
  | String a r => String (lower_char a) (toLowerCase r)
  end.

Definition is_slash (a : ascii) : bool := Ascii.eqb a "/".

Fixpoint all_slashes (s : string) : bool :=
  match s with
  | EmptyString => true
  | String a r => is_slash a && all_slashes r
  end.

(** Does the pattern [/\/+$/] match starting at the head of [s]?  It does
    exactly when [s] is a non-empty run of slashes reaching the end. *)
Definition slashes_to_end (s : string) : bool :=
  match s with
  | EmptyString => false
  | String _ _ => all_slashes s
  end.

(** [s.replace(/\/+$/, '')]: the pattern is tried at each position from the
    left; the first position where it matches is cut off. *)
Fixpoint strip_trailing_slashes (s : string) : string :=
  match s with
  | EmptyString => EmptyString
  | String a r =>
      if slashes_to_end (String a r) then EmptyString
      else String a (strip_trailing_slashes r)
  end.

(** [s.indexOf(pat)]: index of the first occurrence, or -1. *)
Fixpoint indexOf_from (i : Z) (s pat : string) : Z :=
  if String.prefix pat s then i
  else match s with
       | EmptyString => (-1)%Z
       | String _ r => indexOf_from (i + 1)%Z r pat
       end.

Definition indexOf (s pat : string) : Z := indexOf_from 0%Z s pat.

End JsString.

Import JsString.

(* ------------------------------------------------------------------ *)
(** ** URL -> YAML content map and path helper *)

Definition CONTENT_MAP : list (string * string) :=
  [ ("/",                     "content/home.yml");
    ("/about",                "content/about.yml");
    ("/activities",           "content/activities.yml");
    ("/management",           "content/management.yml");
    ("/contact",              "content/contact.yml");
    ("/legal",                "content/legal/index.yml");
    ("/legal/privacy-policy", "content/legal/privacy-policy.yml");
    ("/legal/terms-of-use",   "content/legal/terms-of-use.yml");
    ("/legal/cookie-notice",  "content/legal/cookie-notice.yml");
    ("/legal/ip-notice",      "content/legal/ip-notice.yml") ].

Definition NAV_CONFIG_PATH : string := "content/nav.yml".

(** Normalise pathname: strip trailing slash, lower-case, fallback to '/'. *)
Definition normalisePath (pathname : string) : string :=
  let p := toLowerCase (strip_trailing_slashes pathname) in
  if String.eqb p "" then "/" else p.

(** The sentence of the specification, word for word: remove the trailing
    run of slashes, lower-case, and give "/" for an empty result. *)
Module PathSpec.

Fixpoint drop_leading_slashes (l : list ascii) : list ascii :=
  match l with
  | a :: r => if is_slash a then drop_leading_slashes r else l
  | [] => []
  end.

Definition remove_trailing_slashes (s : string) : string :=
  string_of_list_ascii
    (rev (drop_leading_slashes (rev (list_ascii_of_string s)))).

Definition normalize (path : string) : string :=
  let p := toLowerCase (remove_trailing_slashes path) in
  match p with
  | EmptyString => "/"
  | _ => p
  end.

(** Two paths name the same page when one is reached from the other by
    adding or removing trailing slashes and changing the case of letters. *)
Inductive same_page : string -> string -> Prop :=
| same_refl : forall a, same_page a a
| same_slash : forall a, same_page a (a ++ "/")
| same_case : forall a b, toLowerCase a = toLowerCase b -> same_page a b
| same_sym : forall a b, same_page a b -> same_page b a
| same_trans : forall a b c, same_page a b -> same_page b c -> same_page a c.

End PathSpec.

(* ------------------------------------------------------------------ *)
(** ** Values, exceptions and conversions *)

(** A number as the renderer observes it: its text and its truthiness. *)
Record number := { num_text : string; num_truthy : bool }.

(** What [jsyaml.load] can hand to the renderer. *)
#[local] Set Warnings "-register-all".
Inductive value : Type :=
| VUndef
| VNull
| VBool (b : bool)
| VNum (n : number)
| VStr (s : string)
| VDate (text : string)
| VArr (items : list value)
| VObj (fields : list (string * value)).

Inductive exn : Type :=
| TypeError
| HttpError (msg : string)
| FetchError
| YamlError.

Inductive result (A : Type) : Type :=
| Ok (a : A)
| Throw (e : exn).

Arguments Ok {A} a.
Arguments Throw {A} e.

Definition bind {A B : Type} (m : result A) (k : A -> result B) : result B :=
  match m with
  | Ok a => k a
  | Throw e => Throw e
  end.

Notation "x <- m ;; k" := (bind m (fun x => k))
  (at level 61, m at next level, right associativity).

Definition truthy (v : value) : bool :=
  match v with
  | VUndef | VNull => false
  | VBool b => b
  | VNum n => num_truthy n
  | VStr s => negb (String.eqb s "")
  | VDate _ | VArr _ | VObj _ => true
  end.

(** [a || b] *)
Definition or_else (a b : value) : value := if truthy a then a else b.

Definition nullish (v : value) : bool :=
  match v with
  | VUndef | VNull => true
  | _ => false
  end.

Fixpoint lookup {A : Type} (fs : list (string * A)) (name : string) : option A :=
  match fs with
  | [] => None
  | (k, v) :: r => if String.eqb k name then Some v else lookup r name
  end.

(** The own field [name] of a mapping, undefined when there is none. *)
Fixpoint field (fs : list (string * value)) (name : string) : value :=
  match fs with
  | [] => VUndef
  | (k, v) :: r => if String.eqb k name then v else field r name
  end.

(** [o.name] for the field names the renderer reads.  Reading a property
    of undefined or null raises; a mapping gives its own field; every other
    value has no property of these names. *)
Definition get (o : value) (name : string) : result value :=
  match o with
  | VUndef | VNull => Throw TypeError
  | VObj fs => Ok (field fs name)
  | _ => Ok VUndef
  end.

(** Conversion of a value to a string, as string concatenation, a property
    key and a DOM string attribute perform it.  A mapping with an own
    toString field (never callable in loaded data) has no primitive value. *)
Fixpoint to_string (v : value) : result string :=
  match v with
  | VUndef => Ok "undefined"
  | VNull => Ok "null"
  | VBool true => Ok "true"
  | VBool false => Ok "false"
  | VNum n => Ok (num_text n)
  | VStr s => Ok s
  | VDate t => Ok t
  | VArr l =>
      (fix join (l : list value) : result string :=
         match l with
         | [] => Ok ""
         | x :: r =>
             a <- match x with
                  | VUndef | VNull => Ok ""
                  | _ => to_string x
                  end ;;
             match r with
             | [] => Ok a
             | _ :: _ => b <- join r ;; Ok (a ++ "," ++ b)
             end
         end) l
  | VObj fs =>
      match lookup fs "toString" with
      | Some _ => Throw TypeError
      | None => Ok "[object Object]"
      end
  end.

(** Property read on an object literal: own keys first, then the keys every
    object inherits from Object.prototype. *)
Inductive property (A : Type) : Type :=
| Own (a : A)
| Inherited (name : string)
| Absent.

Arguments Own {A} a.
Arguments Inherited {A} name.
Arguments Absent {A}.

Definition Object_prototype : list string :=
  [ "constructor"; "__defineGetter__"; "__defineSetter__"; "hasOwnProperty";
    "__lookupGetter__"; "__lookupSetter__"; "isPrototypeOf";
    "propertyIsEnumerable"; "toString"; "valueOf"; "__proto__";
    "toLocaleString" ].

Definition object_get {A : Type} (own : list (string * A)) (key : string)
  : property A :=
  match lookup own key with
  | Some a => Own a
  | None =>
      if existsb (String.eqb key) Object_prototype then Inherited key
      else Absent
  end.

(* ------------------------------------------------------------------ *)
(** ** Markup literals and escaping *)

Definition dquote : ascii := ascii_of_nat 34.

(** The markup literals of the source contain the double-quote character
    and no apostrophe.  They are written here with an apostrophe where the
    source has a double quote; [lit] puts the double quotes back. *)
Definition lit (s : string) : string :=
  replace_all "'" (String dquote "") s.

(** Escape HTML to prevent XSS from YAML string values (basic guard). *)
Definition esc (str : value) : string :=
  match str with
  | VStr s =>
      replace_all dquote "&quot;"
        (replace_all ">" "&gt;"
           (replace_all "<" "&lt;"
              (replace_all "&" "&amp;" s)))
  | _ => ""
  end.

(** One pass over the text, each reserved character to its entity. *)
Definition entity (a : ascii) : string :=
  if Ascii.eqb a "&" then "&amp;"
  else if Ascii.eqb a "<" then "&lt;"
  else if Ascii.eqb a ">" then "&gt;"
  else if Ascii.eqb a dquote then "&quot;"
  else String a "".

Fixpoint escape_text (s : string) : string :=
  match s with
  | EmptyString => EmptyString
  | String a r => entity a ++ escape_text r
  end.

(** [s.replace(/\n/g, '<br>')] *)
Definition nl2br (s : string) : string :=
  replace_all (ascii_of_nat 10) "<br>" s.

(* ------------------------------------------------------------------ *)
(** ** Section elements *)

Record element := {
  className : string;
  el_id : string;
  innerHTML : string
}.

Definition set_id (el : element) (i : string) : element :=
  {| className := className el; el_id := i; innerHTML := innerHTML el |}.

Definition set_innerHTML (el : element) (html : string) : element :=
  {| className := className el; el_id := el_id el; innerHTML := html |}.

Definition createSection (s : value) : result element :=
  ty <- get s "type" ;;
  suffix <- to_string (or_else ty (VStr "text")) ;;
  let el := {| className := "section section--" ++ suffix;
               el_id := ""; innerHTML := "" |} in
  i <- get s "id" ;;
  if truthy i then (t <- to_string i ;; Ok (set_id el t)) else Ok el.

Definition sectionLabel (label : value) : string :=
  if truthy label
  then lit "<h2 class='section-label'>" ++ esc label ++ "</h2>"
  else "".

(** [arr.map(f).join('')] *)
Fixpoint map_join (f : value -> result string) (l : list value)
  : result string :=
  match l with
  | [] => Ok ""
  | x :: r => a <- f x ;; b <- map_join f r ;; Ok (a ++ b)
  end.

(** [(items || []).map(f).join('')]: a truthy value that is no sequence has
    no [map] method, and the call raises. *)
Definition map_items (f : value -> result string) (items : value)
  : result string :=
  match or_else items (VArr []) with
  | VArr l => map_join f l
  | _ => Throw TypeError
  end.

(* ------------------------------------------------------------------ *)
(** ** Section renderers
    Each returns the element for a section type. *)

Module Renderers.

Definition hero (s : value) : result element :=
  el <- createSection s ;;
  heading <- get s "heading" ;;
  subheading <- get s "subheading" ;;
  Ok (set_innerHTML el
        (lit "<div class='section-inner'>" ++
           lit "<h1 class='hero-heading'>" ++
             esc (or_else heading (VStr "")) ++ "</h1>" ++
           (if truthy subheading
            then lit "<p class='hero-subheading'>" ++ esc subheading ++ "</p>"
            else "") ++
         "</div>")).

Definition page_header (s : value) : result element :=
  el <- createSection s ;;
  heading <- get s "heading" ;;
  subheading <- get s "subheading" ;;
  Ok (set_innerHTML el
        (lit "<div class='section-inner'>" ++
           lit "<h1 class='page-heading'>" ++
             esc (or_else heading (VStr "")) ++ "</h1>" ++
           (if truthy subheading
            then lit "<p class='page-subheading'>" ++ esc subheading ++ "</p>"
            else "") ++
         "</div>")).

Definition summary_item (item : value) : result string :=
  label <- get item "label" ;;
  value <- get item "value" ;;
  Ok (lit "<div class='summary-item'>" ++
        lit "<dt class='summary-term'>" ++ esc label ++ "</dt>" ++
        lit "<dd class='summary-value'>" ++ esc value ++ "</dd>" ++
      "</div>").

Definition summary (s : value) : result element :=
  its <- get s "items" ;;
  items <- map_items summary_item its ;;
  el <- createSection s ;;
  label <- get s "label" ;;
  Ok (set_innerHTML el
        (lit "<div class='section-inner'>" ++
           sectionLabel label ++
           lit "<dl class='summary-list'>" ++ items ++ "</dl>" ++
         "</div>")).

Definition statement (s : value) : result element :=
  el <- createSection s ;;
  body <- get s "body" ;;
  Ok (set_innerHTML el
        (lit "<div class='section-inner'>" ++
           lit "<p class='statement-body'>" ++
             esc (or_else body (VStr "")) ++ "</p>" ++
         "</div>")).

Definition text_block (s : value) : result element :=
  el <- createSection s ;;
  label <- get s "label" ;;
  body <- get s "body" ;;
  Ok (set_innerHTML el
        (lit "<div class='section-inner'>" ++
           sectionLabel label ++
           lit "<div class='text-body'>" ++
             nl2br (esc (or_else body (VStr ""))) ++ "</div>" ++
         "</div>")).

Definition definition_item (item : value) : result string :=
  term <- get item "term" ;;
  definition <- get item "definition" ;;
  Ok (lit "<div class='def-item'>" ++
        lit "<dt class='def-term'>" ++ esc term ++ "</dt>" ++
        lit "<dd class='def-value'>" ++ esc definition ++ "</dd>" ++
      "</div>").

Definition definition_list (s : value) : result element :=
  its <- get s "items" ;;
  items <- map_items definition_item its ;;
  el <- createSection s ;;
  label <- get s "label" ;;
  Ok (set_innerHTML el
        (lit "<div class='section-inner'>" ++
           sectionLabel label ++
           lit "<dl class='def-list'>" ++ items ++ "</dl>" ++
         "</div>")).

Definition activity_item (item : value) : result string :=
  heading <- get item "heading" ;;
  description <- get item "description" ;;
  Ok (lit "<div class='activity-item'>" ++
        lit "<h2 class='activity-heading'>" ++ esc heading ++ "</h2>" ++
        lit "<p class='activity-description'>" ++ esc description ++ "</p>" ++
      "</div>").

Definition activity_list (s : value) : result element :=
  its <- get s "items" ;;
  items <- map_items activity_item its ;;
  el <- createSection s ;;
  label <- get s "label" ;;
  Ok (set_innerHTML el
        (lit "<div class='section-inner'>" ++
           sectionLabel label ++
           lit "<div class='activity-list'>" ++ items ++ "</div>" ++
         "</div>")).

Definition person_item (item : value) : result string :=
  name <- get item "name" ;;
  title <- get item "title" ;;
  bio <- get item "bio" ;;
  Ok (lit "<article class='person-item'>" ++
        lit "<h2 class='person-name'>" ++ esc name ++ "</h2>" ++
        (if truthy title
         then lit "<p class='person-title'>" ++ esc title ++ "</p>"
         else "") ++
        (if truthy bio
         then lit "<p class='person-bio'>" ++ esc bio ++ "</p>"
         else "") ++
      "</article>").

Definition persons (s : value) : result element :=
  its <- get s "items" ;;
  items <- map_items person_item its ;;
  el <- createSection s ;;
  label <- get s "label" ;;
  Ok (set_innerHTML el
        (lit "<div class='section-inner'>" ++
           sectionLabel label ++
           lit "<div class='persons-list'>" ++ items ++ "</div>" ++
         "</div>")).

Definition contact_item (item : value) : result string :=
  href <- get item "href" ;;
  value <- get item "value" ;;
  let val :=
    if truthy href
    then lit "<a href='" ++ esc href ++ lit "'>" ++ esc value ++ "</a>"
    else esc value in
  method <- get item "method" ;;
  Ok (lit "<div class='contact-item'>" ++
        lit "<dt class='contact-method'>" ++ esc method ++ "</dt>" ++
        lit "<dd class='contact-value'>" ++ val ++ "</dd>" ++
      "</div>").

Definition contact_block (s : value) : result element :=
  its <- get s "items" ;;
  items <- map_items contact_item its ;;
  el <- createSection s ;;
  label <- get s "label" ;;
  Ok (set_innerHTML el
        (lit "<div class='section-inner'>" ++
           sectionLabel label ++
           lit "<dl class='contact-list'>" ++ items ++ "</dl>" ++
         "</div>")).

Definition link (s : value) : result element :=
  external <- get s "external" ;;
  let target :=
    if truthy external
    then lit " target='_blank' rel='noopener noreferrer'"
    else "" in
  el <- createSection s ;;
  url <- get s "url" ;;
  label <- get s "label" ;;
  Ok (set_innerHTML el
        (lit "<div class='section-inner'>" ++
           lit "<a href='" ++ esc (or_else url (VStr "#")) ++
             lit "' class='official-link'" ++ target ++ ">" ++
             esc (or_else label (VStr "Visit Official Website")) ++
           "</a>" ++
         "</div>")).

Definition back_link (s : value) : result element :=
  el <- createSection s ;;
  url <- get s "url" ;;
  label <- get s "label" ;;
  Ok (set_innerHTML el
        (lit "<div class='section-inner'>" ++
           lit "<a href='" ++ esc (or_else url (VStr "/legal/")) ++
             lit "' class='back-link'>" ++
             esc (or_else label (VStr "Back")) ++
           "</a>" ++
         "</div>")).

Definition legal_nav_item (item : value) : result string :=
  url <- get item "url" ;;
  label <- get item "label" ;;
  Ok ("<li>" ++
        lit "<a href='" ++ esc url ++ lit "' class='legal-nav-link'>" ++
          esc label ++
        "</a>" ++
      "</li>").

Definition legal_nav (s : value) : result element :=
  its <- get s "items" ;;
  items <- map_items legal_nav_item its ;;
  el <- createSection s ;;
  label <- get s "label" ;;
  Ok (set_innerHTML el
        (lit "<div class='section-inner'>" ++
           sectionLabel label ++
           lit "<ul class='legal-nav-list' role='list'>" ++ items ++ "</ul>" ++
         "</div>")).

Definition legal_document (s : value) : result element :=
  el <- createSection s ;;
  last_updated <- get s "last_updated" ;;
  body <- get s "body" ;;
  text <- to_string (or_else body (VStr "")) ;;
  Ok (set_innerHTML el
        (lit "<div class='section-inner'>" ++
           (if truthy last_updated
            then lit "<p class='legal-updated'>Last updated: " ++
                   esc last_updated ++ "</p>"
            else "") ++
           lit "<div class='legal-body'>" ++ text ++ "</div>" ++
         "</div>")).

End Renderers.

Definition renderers : list (string * (value -> result element)) :=
  [ ("hero",            Renderers.hero);
    ("page-header",     Renderers.page_header);
    ("summary",         Renderers.summary);
    ("statement",       Renderers.statement);
    ("text-block",      Renderers.text_block);
    ("definition-list", Renderers.definition_list);
    ("activity-list",   Renderers.activity_list);
    ("persons",         Renderers.persons);
    ("contact-block",   Renderers.contact_block);
    ("link",            Renderers.link);
    ("back-link",       Renderers.back_link);
    ("legal-nav",       Renderers.legal_nav);
    ("legal-document",  Renderers.legal_document) ].

(** What [renderSection] hands back: a section element, or, when the value
    found under the type name is no renderer, something that is no node. *)
Inductive rendered : Type :=
| Node (el : element)
| NotNode.

(** Calling, with the section as only argument and no receiver, what the
    registry inherits under [name]:
    constructor wraps or returns its argument, toString names its absent
    receiver, isPrototypeOf answers false for a primitive argument; the
    others need a receiver, and the inherited prototype object itself is
    not callable. *)
Definition call_inherited (name : string) (arg : value) : result rendered :=
  if String.eqb name "constructor" then Ok NotNode
  else if String.eqb name "toString" then Ok NotNode
  else if String.eqb name "isPrototypeOf" then
    match arg with
    | VObj _ | VArr _ | VDate _ => Throw TypeError
    | _ => Ok NotNode
    end
  else Throw TypeError.

Definition fallback (section : value) : result element :=
  el <- createSection section ;;
  body <- get section "body" ;;
  Ok (set_innerHTML el
        (lit "<div class='section-inner'>" ++
           (if truthy body then "<p>" ++ esc body ++ "</p>" else "") ++
         "</div>")).

Definition renderSection (section : value) : result rendered :=
  ty <- get section "type" ;;
  key <- to_string ty ;;
  match object_get renderers key with
  | Own renderer => el <- renderer section ;; Ok (Node el)
  | Inherited name => call_inherited name section
  | Absent => el <- fallback section ;; Ok (Node el)
  end.

(* ------------------------------------------------------------------ *)
(** ** The document: explicit DOM state and its mutations *)

Inductive content : Type :=
| Text (s : string)
| Markup (html : string)
| SectionNode (el : element).

(** #content-root *)
Record root_state := {
  aria_busy : option string;
  children : list content
}.

(** An element of class nav-link. *)
Record nav_link := {
  link_href : option string;
  classList : list string;
  aria_current : option string
}.

Record footer_slots := {
  footer_name : option content;
  footer_state : option content;
  footer_email : option (content * option string);
  footer_copyright : option content
}.

Record world := {
  location_pathname : string;
  current_year : number;
  document_title : string;
  meta_description : option string;
  content_root : option root_state;
  nav_links : list nav_link;
  footer : footer_slots;
  navConfigPromise : bool
}.

(** What [fetch] is called with: a locator of the content map, or a member
    the map inherits when the looked-up key is one of Object.prototype. *)
Inductive fetch_input : Type :=
| Locator (path : string)
| Member (name : string).

Inductive footer_slot : Type :=
| SlotName | SlotState | SlotEmail | SlotCopyright.

Inductive op : Type :=
| Fetch (input : fetch_input)
| StoreNavConfigPromise
| ConsoleError (tag : string) (err : exn)
| SetTitle (t : string)
| SetMetaContent (c : string)
| RootSetBusy (v : string)
| RootSetInnerHTML (html : string)
| RootAppendFragment (nodes : list element)
| LinkClassAdd (i : nat) (cls : string)
| LinkClassRemove (i : nat) (cls : string)
| LinkSetCurrent (i : nat) (v : string)
| LinkRemoveCurrent (i : nat)
| FooterSetText (slot : footer_slot) (s : string)
| FooterSetInnerHTML (slot : footer_slot) (html : string)
| EmailSetHref (v : string).

Module Dom.

Definition parse_children (html : string) : list content :=
  if String.eqb html "" then [] else [Markup html].

Definition with_root (f : root_state -> root_state) (w : world) : world :=
  {| location_pathname := location_pathname w;
     current_year := current_year w;
     document_title := document_title w;
     meta_description := meta_description w;
     content_root := option_map f (content_root w);
     nav_links := nav_links w;
     footer := footer w;
     navConfigPromise := navConfigPromise w |}.

Fixpoint update_nth {A : Type} (i : nat) (f : A -> A) (l : list A) : list A :=
  match l, i with
  | [], _ => []
  | x :: r, O => f x :: r
  | x :: r, S j => x :: update_nth j f r
  end.

Definition with_link (i : nat) (f : nav_link -> nav_link) (w : world) : world :=
  {| location_pathname := location_pathname w;
     current_year := current_year w;
     document_title := document_title w;
     meta_description := meta_description w;
     content_root := content_root w;
     nav_links := update_nth i f (nav_links w);
     footer := footer w;
     navConfigPromise := navConfigPromise w |}.

Definition with_footer (f : footer_slots -> footer_slots) (w : world) : world :=
  {| location_pathname := location_pathname w;
     current_year := current_year w;
     document_title := document_title w;
     meta_description := meta_description w;
     content_root := content_root w;
     nav_links := nav_links w;
     footer := f (footer w);
     navConfigPromise := navConfigPromise w |}.

Definition class_add (cls : string) (l : nav_link) : nav_link :=
  {| link_href := link_href l;
     classList := if existsb (String.eqb cls) (classList l)
                  then classList l else (classList l ++ [cls])%list;
     aria_current := aria_current l |}.

Definition class_remove (cls : string) (l : nav_link) : nav_link :=
  {| link_href := link_href l;
     classList := filter (fun c => negb (String.eqb cls c)) (classList l);
     aria_current := aria_current l |}.

Definition set_current (v : option string) (l : nav_link) : nav_link :=
  {| link_href := link_href l;
     classList := classList l;
     aria_current := v |}.

Definition set_slot (slot : footer_slot) (c : content) (f : footer_slots)
  : footer_slots :=
  match slot with
  | SlotName =>
      {| footer_name := option_map (fun _ => c) (footer_name f);
         footer_state := footer_state f;
         footer_email := footer_email f;
         footer_copyright := footer_copyright f |}
  | SlotState =>
      {| footer_name := footer_name f;
         footer_state := option_map (fun _ => c) (footer_state f);
         footer_email := footer_email f;
         footer_copyright := footer_copyright f |}
  | SlotEmail =>
      {| footer_name := footer_name f;
         footer_state := footer_state f;
         footer_email := option_map (fun e => (c, snd e)) (footer_email f);
         footer_copyright := footer_copyright f |}
  | SlotCopyright =>
      {| footer_name := footer_name f;
         footer_state := footer_state f;
         footer_email := footer_email f;
         footer_copyright := option_map (fun _ => c) (footer_copyright f) |}
  end.

Definition set_email_href (v : string) (f : footer_slots) : footer_slots :=
  {| footer_name := footer_name f;
     footer_state := footer_state f;
     footer_email := option_map (fun e => (fst e, Some v)) (footer_email f);
     footer_copyright := footer_copyright f |}.

(** The effect of one mutation on the document. *)
Definition exec (o : op) (w : world) : world :=
  match o with
  | Fetch _ => w
  | ConsoleError _ _ => w
  | StoreNavConfigPromise =>
      {| location_pathname := location_pathname w;
         current_year := current_year w;
         document_title := document_title w;
         meta_description := meta_description w;
         content_root := content_root w;
         nav_links := nav_links w;
         footer := footer w;
         navConfigPromise := true |}
  | SetTitle t =>
      {| location_pathname := location_pathname w;
         current_year := current_year w;
         document_title := t;
         meta_description := meta_description w;
         content_root := content_root w;
         nav_links := nav_links w;
         footer := footer w;
         navConfigPromise := navConfigPromise w |}
  | SetMetaContent c =>
      {| location_pathname := location_pathname w;
         current_year := current_year w;
         document_title := document_title w;
         meta_description := option_map (fun _ => c) (meta_description w);
         content_root := content_root w;
         nav_links := nav_links w;
         footer := footer w;
         navConfigPromise := navConfigPromise w |}
  | RootSetBusy v =>
      with_root (fun r => {| aria_busy := Some v; children := children r |}) w
  | RootSetInnerHTML html =>
      with_root (fun r => {| aria_busy := aria_busy r;
                             children := parse_children html |}) w
  | RootAppendFragment nodes =>
      with_root (fun r => {| aria_busy := aria_busy r;
                             children := (children r ++ map SectionNode nodes)%list |}) w
  | LinkClassAdd i cls => with_link i (class_add cls) w
  | LinkClassRemove i cls => with_link i (class_remove cls) w
  | LinkSetCurrent i v => with_link i (set_current (Some v)) w
  | LinkRemoveCurrent i => with_link i (set_current None) w
  | FooterSetText slot s => with_footer (set_slot slot (Text s)) w
  | FooterSetInnerHTML slot html => with_footer (set_slot slot (Markup html)) w
  | EmailSetHref v => with_footer (set_email_href v) w
  end.

(** The document after each of a sequence of mutations, in order. *)
Fixpoint states (w : world) (l : list op) : list world :=
  match l with
  | [] => []
  | o :: r => exec o w :: states (exec o w) r
  end.

(** The document after all of them. *)
Definition run (l : list op) (w : world) : world :=
  fold_left (fun w o => exec o w) l w.

(** A script: reads and mutates the document, may raise. *)
Record outcome (A : Type) := {
  final : world;
  ops : list op;
  returned : result A
}.

Arguments final {A} o.
Arguments ops {A} o.
Arguments returned {A} o.

Definition M (A : Type) : Type := world -> outcome A.

Definition ret {A : Type} (a : A) : M A :=
  fun w => {| final := w; ops := []; returned := Ok a |}.

Definition throw {A : Type} (e : exn) : M A :=
  fun w => {| final := w; ops := []; returned := Throw e |}.

Definition lift {A : Type} (r : result A) : M A :=
  fun w => {| final := w; ops := []; returned := r |}.

Definition inspect {A : Type} (f : world -> A) : M A :=
  fun w => {| final := w; ops := []; returned := Ok (f w) |}.

Definition perform (o : op) : M unit :=
  fun w => {| final := exec o w; ops := [o]; returned := Ok tt |}.

Definition bindM {A B : Type} (m : M A) (k : A -> M B) : M B :=
  fun w =>
    let o := m w in
    match returned o with
    | Ok a =>
        let o' := k a (final o) in
        {| final := final o'; ops := (ops o ++ ops o')%list;
           returned := returned o' |}
    | Throw e => {| final := final o; ops := ops o; returned := Throw e |}
    end.

(** [try { m } catch (e) { h e }], and the catch of a promise chain. *)
Definition catch {A : Type} (m : M A) (h : exn -> M A) : M A :=
  fun w =>
    let o := m w in
    match returned o with
    | Ok _ => o
    | Throw e =>
        let o' := h e (final o) in
        {| final := final o'; ops := (ops o ++ ops o')%list;
           returned := returned o' |}
    end.

End Dom.

Import Dom.

Notation "x <== m ;; k" := (bindM m (fun x => k))
  (at level 61, m at next level, right associativity).
Notation "m ;;; k" := (bindM m (fun _ => k))
  (at level 61, right associativity).

(* ------------------------------------------------------------------ *)
(** ** Active nav state *)

Fixpoint forEach_from {A : Type} (i : nat) (f : nat -> A -> M unit)
  (l : list A) : M unit :=
  match l with
  | [] => ret tt
  | x :: r => f i x ;;; forEach_from (S i) f r
  end.

Definition is_active (href currentPath : string) : bool :=
  String.eqb href currentPath ||
  (negb (String.eqb href "/") && Z.eqb (indexOf currentPath href) 0).

Definition mark_link (currentPath : string) (i : nat) (link : nav_link)
  : M unit :=
  let href :=
    normalisePath (match link_href link with Some h => h | None => "" end) in
  if is_active href currentPath then
    perform (LinkClassAdd i "is-active") ;;;
    perform (LinkSetCurrent i "page")
  else
    perform (LinkClassRemove i "is-active") ;;;
    perform (LinkRemoveCurrent i).

Definition setActiveNav : M unit :=
  currentPath <== inspect (fun w => normalisePath (location_pathname w)) ;;
  links <== inspect nav_links ;;
  forEach_from 0 (mark_link currentPath) links.

(* ------------------------------------------------------------------ *)
(** ** Main initialiser and site chrome *)

(** The settled response of a [fetch]: whether the status is a success, the
    status, and the body text (reading it may fail). *)
Record response := {
  ok : bool;
  status : number;
  text : result string
}.

Definition NOT_FOUND_MARKUP : string :=
  lit "<section class='section'><div class='section-inner'>" ++
    lit "<h1 class='page-heading'>Page Not Found</h1>" ++
    lit "<p style='margin-top:1rem;color:var(--c-text-2)'>The requested page does not exist.</p>" ++
  "</div></section>".

Definition LOAD_FAILED_MARKUP : string :=
  lit "<section class='section'><div class='section-inner'>" ++
    lit "<p style='color:var(--c-text-2)'>Content could not be loaded.</p>" ++
  "</div></section>".

Definition TITLE_SUFFIX : string := " — Nilüfer Ormanlı Studio LLC".
Definition DEFAULT_ENTITY : string := "Nilüfer Ormanlı Studio LLC".

(** [sections.forEach(s => fragment.appendChild(renderSection(s)))]:
    appending what is no node raises. *)
Fixpoint render_all (sections : list value) : result (list element) :=
  match sections with
  | [] => Ok []
  | s :: r =>
      x <- renderSection s ;;
      match x with
      | Node el => rest <- render_all r ;; Ok (el :: rest)
      | NotNode => Throw TypeError
      end
  end.

Definition render_fragment (sections : value) : result (list element) :=
  match or_else sections (VArr []) with
  | VArr l => render_all l
  | _ => Throw TypeError
  end.

Section Pipeline.

(** The YAML loader, an external dependency (global jsyaml): it returns the
    loaded value or raises. *)
Variable jsyaml_load : string -> result value.

Definition read_body (locator : string) (res : response) : result string :=
  if ok res then text res
  else Throw (HttpError ("HTTP " ++ num_text (status res) ++ ": " ++ locator)).

Definition update_title (data : value) : M unit :=
  meta <== lift (get data "meta") ;;
  if truthy meta then
    title <== lift (get meta "title") ;;
    if truthy title then
      t <== lift (to_string title) ;;
      perform (SetTitle (t ++ TITLE_SUFFIX))
    else ret tt
  else ret tt.

Definition update_description (data : value) : M unit :=
  meta <== lift (get data "meta") ;;
  if truthy meta then
    description <== lift (get meta "description") ;;
    if truthy description then
      metaDesc <== inspect meta_description ;;
      match metaDesc with
      | Some _ =>
          c <== lift (to_string description) ;;
          perform (SetMetaContent c)
      | None => ret tt
      end
    else ret tt
  else ret tt.

(** The second [then] of the content chain. *)
Definition render_page (body : string) : M unit :=
  data <== lift (jsyaml_load body) ;;
  update_title data ;;;
  update_description data ;;;
  sections <== lift (get data "sections") ;;
  fragment <== lift (render_fragment sections) ;;
  perform (RootSetBusy "false") ;;;
  perform (RootSetInnerHTML "") ;;;
  perform (RootAppendFragment fragment) ;;;
  setActiveNav.

Definition content_failed (err : exn) : M unit :=
  perform (ConsoleError "[page-renderer] Failed to load content:" err) ;;;
  perform (RootSetBusy "false") ;;;
  perform (RootSetInnerHTML LOAD_FAILED_MARKUP).

(** The promise chain started by [fetch(yamlPath)], run on its settled
    response ([Throw] when the request itself failed). *)
Definition content_chain (yamlPath : string) (settled : result response)
  : M unit :=
  catch
    (res <== lift settled ;;
     body <== lift (read_body yamlPath res) ;;
     render_page body)
    content_failed.

Definition loadNavConfig : M unit :=
  pending <== inspect navConfigPromise ;;
  if pending then ret tt
  else
    perform (Fetch (Locator NAV_CONFIG_PATH)) ;;;
    perform StoreNavConfigPromise.

(** The chain stored in navConfigPromise, run on its settled response: it
    resolves to the loaded value, or to null after logging. *)
Definition nav_config_chain (settled : result response) : M value :=
  catch
    (res <== lift settled ;;
     body <== lift (read_body NAV_CONFIG_PATH res) ;;
     lift (jsyaml_load body))
    (fun err =>
       perform (ConsoleError "[page-renderer] Failed to load nav config:" err) ;;;
       ret VNull).

Definition applyFooter (navData : value) : M unit :=
  footer_field <== lift (get navData "footer") ;;
  let footerCfg := or_else footer_field (VObj []) in
  site_field <== lift (get navData "site") ;;
  let siteCfg := or_else site_field (VObj []) in
  entity_name <== lift (get footerCfg "entity_name") ;;
  site_name <== lift (get siteCfg "name") ;;
  let entityName :=
    or_else (or_else entity_name site_name) (VStr DEFAULT_ENTITY) in
  nameEl <== inspect (fun w => footer_name (footer w)) ;;
  match nameEl with
  | Some _ =>
      t <== lift (to_string entityName) ;;
      perform (FooterSetText SlotName t)
  | None => ret tt
  end ;;;
  state_of_registration <== lift (get footerCfg "state_of_registration") ;;
  state <== lift (get footerCfg "state") ;;
  let stateText := or_else state_of_registration state in
  stateEl <== inspect (fun w => footer_state (footer w)) ;;
  match stateEl with
  | Some _ =>
      if truthy stateText then
        t <== lift (to_string stateText) ;;
        perform (FooterSetText SlotState ("Registered in " ++ t))
      else ret tt
  | None => ret tt
  end ;;;
  email <== lift (get footerCfg "business_email") ;;
  emailEl <== inspect (fun w => footer_email (footer w)) ;;
  match emailEl with
  | Some _ =>
      if truthy email then
        t <== lift (to_string email) ;;
        perform (FooterSetText SlotEmail t) ;;;
        perform (EmailSetHref ("mailto:" ++ t))
      else ret tt
  | None => ret tt
  end ;;;
  copyright_year <== lift (get footerCfg "copyright_year") ;;
  this_year <== inspect current_year ;;
  let year := or_else copyright_year (VNum this_year) in
  copyrightEl <== inspect (fun w => footer_copyright (footer w)) ;;
  match copyrightEl with
  | Some _ =>
      y <== lift (to_string year) ;;
      perform (FooterSetInnerHTML SlotCopyright
                 ("&copy; " ++ esc (VStr y) ++ " " ++ esc entityName ++
                  ". All rights reserved."))
  | None => ret tt
  end.

Definition applySiteChrome (navData : value) : M unit :=
  if truthy navData then applyFooter navData else ret tt.

(** [loadNavConfig().then(applySiteChrome).catch(function () {})], run on
    the settled response of the navigation document. *)
Definition chrome_chain (settled : result response) : M unit :=
  catch
    (navData <== nav_config_chain settled ;;
     applySiteChrome navData)
    (fun _ => ret tt).

(** The synchronous part of [init]; it returns what the content [fetch], if
    any, was issued for. *)
Definition init : M (option fetch_input) :=
  loadNavConfig ;;;
  root <== inspect content_root ;;
  match root with
  | None => ret None
  | Some _ =>
      pathname <== inspect (fun w => normalisePath (location_pathname w)) ;;
      let not_found :=
        perform (RootSetBusy "false") ;;;
        perform (RootSetInnerHTML NOT_FOUND_MARKUP) ;;;
        ret None in
      match object_get CONTENT_MAP pathname with
      | Absent => not_found
      | Own yamlPath =>
          if String.eqb yamlPath "" then not_found
          else perform (Fetch (Locator yamlPath)) ;;;
               ret (Some (Locator yamlPath))
      | Inherited name =>
          perform (Fetch (Member name)) ;;;
          ret (Some (Member name))
      end
  end.

End Pipeline.

(* ------------------------------------------------------------------ *)
(** ** Vocabulary of the statements *)

(** [sub] occurs in [s]. *)
Definition contains (s sub : string) : bool := Z.leb 0 (indexOf s sub).

(** The normalised target of a navigation link. *)
Definition link_target (link : nav_link) : string :=
  normalisePath (match link_href link with Some h => h | None => "" end).

(** Both markers of the current page are on the link. *)
Definition marked_active (link : nav_link) : Prop :=
  In "is-active" (classList link) /\ aria_current link = Some "page".

(** Neither marker is on the link. *)
Definition unmarked (link : nav_link) : Prop :=
  ~ In "is-active" (classList link) /\ aria_current link = None.

(** The link as [setActiveNav] leaves it. *)
Definition marked (currentPath : string) (link : nav_link) : nav_link :=
  if is_active (link_target link) currentPath
  then set_current (Some "page") (class_add "is-active" link)
  else set_current None (class_remove "is-active" link).

(** A failure of the site-chrome pipeline, with the error it ends in: the
    request is rejected, the status is not a success, the body cannot be
    read, or the loader rejects the text. *)
Inductive chrome_failure (load : string -> result value)
  : result response -> exn -> Prop :=
| fetch_rejected : forall e, chrome_failure load (Throw e) e
| bad_status : forall res,
    ok res = false ->
    chrome_failure load (Ok res)
      (HttpError ("HTTP " ++ num_text (status res) ++ ": " ++ NAV_CONFIG_PATH))
| body_unreadable : forall res e,
    ok res = true -> text res = Throw e -> chrome_failure load (Ok res) e
| parse_failed : forall res body e,
    ok res = true -> text res = Ok body -> load body = Throw e ->
    chrome_failure load (Ok res) e.

Definition metadata_op (o : op) : Prop :=
  match o with
  | SetTitle _ | SetMetaContent _ => True
  | _ => False
  end.

Definition link_op (o : op) : Prop :=
  match o with
  | LinkClassAdd _ _ | LinkClassRemove _ _
  | LinkSetCurrent _ _ | LinkRemoveCurrent _ => True
  | _ => False
  end.

(** The markup of a section, empty when rendering gives no element. *)
Definition markup_of (section : value) : string :=
  match renderSection section with
  | Ok (Node el) => innerHTML el
  | _ => ""
  end.

(** *** Sample documents *)

Module Sample.

Definition empty_footer : footer_slots :=
  {| footer_name := None; footer_state := None;
     footer_email := None; footer_copyright := None |}.

Definition this_year : number := {| num_text := "2026"; num_truthy := true |}.

Definition loading_root : root_state :=
  {| aria_busy := Some "true"; children := [Markup "<p>Loading</p>"] |}.

Definition about_link : nav_link :=
  {| link_href := Some "/about"; classList := ["nav-link"];
     aria_current := None |}.

Definition contact_link : nav_link :=
  {| link_href := Some "/Contact/"; classList := ["nav-link"; "is-active"];
     aria_current := Some "page" |}.

Definition page_at (pathname : string) : world :=
  {| location_pathname := pathname;
     current_year := this_year;
     document_title := "Nilüfer Ormanlı Studio LLC";
     meta_description := Some "";
     content_root := Some loading_root;
     nav_links := [about_link; contact_link];
     footer := empty_footer;
     navConfigPromise := false |}.

Definition home_document : value :=
  VObj [ ("meta", VObj [("title", VStr "Home")]);
         ("sections",
          VArr [ VObj [("type", VStr "statement"); ("body", VStr "Welcome")] ]) ].

Definition load_home (_ : string) : result value := Ok home_document.

Definition load_rejects (_ : string) : result value := Throw YamlError.

(** A page with all four footer slots, and a navigation document without
    a copyright year. *)
Definition footer_page : world :=
  {| location_pathname := "/";
     current_year := this_year;
     document_title := "";
     meta_description := None;
     content_root := Some loading_root;
     nav_links := [];
     footer := {| footer_name := Some (Text "");
                  footer_state := Some (Text "");
                  footer_email := Some (Text "", None);
                  footer_copyright := Some (Markup "") |};
     navConfigPromise := true |}.

Definition nav_document : value :=
  VObj [ ("site", VObj [("name", VStr "Studio & Co")]);
         ("footer", VObj [("business_email", VStr "info@example.com")]) ].

Definition load_nav (_ : string) : result value := Ok nav_document.

(** A section whose type names a member every object inherits. *)
Definition odd_section (type : string) : value :=
  VObj [("type", VStr type); ("body", VStr "Hello")].

Definition http (success : bool) (code body : string) : response :=
  {| ok := success;
     status := {| num_text := code; num_truthy := true |};
     text := Ok body |}.

(** Sections with a link whose destination has an ampersand. *)
Definition search_url : string := "/search?q=a&lang=en".

Definition link_section : value :=
  VObj [("type", VStr "link"); ("url", VStr search_url)].

Definition back_link_section : value :=
  VObj [("type", VStr "back-link"); ("url", VStr search_url)].

Definition contact_section : value :=
  VObj [("type", VStr "contact-block");
        ("items", VArr [VObj [("method", VStr "Web"); ("value", VStr "Search");
                              ("href", VStr search_url)]])].

Definition legal_nav_section : value :=
  VObj [("type", VStr "legal-nav");
        ("items", VArr [VObj [("url", VStr search_url);
                              ("label", VStr "Search")]])].

(** The home page loading successfully. *)
Definition home_render : outcome unit :=
  content_chain load_home "content/home.yml" (Ok (http true "200" "home"))
    (page_at "/").

End Sample.

(** The item fields the renderers read without a guard, each with the
    item callback that reads it. *)
Definition required_item_fields : list ((value -> result string) * string) :=
  [ (Renderers.summary_item, "label");
    (Renderers.summary_item, "value");
    (Renderers.definition_item, "term");
    (Renderers.definition_item, "definition");
    (Renderers.activity_item, "heading");
    (Renderers.activity_item, "description");
    (Renderers.person_item, "name");
    (Renderers.contact_item, "method");
    (Renderers.contact_item, "value");
    (Renderers.legal_nav_item, "url");
    (Renderers.legal_nav_item, "label") ].

Definition is_string (v : value) : bool :=
  match v with
  | VStr _ => true
  | _ => false
  end.

(** *** How a text field reaches the markup *)

Inductive display : Type :=
| Escaped          (* through esc *)
| EscapedBreaks    (* through esc, then newlines to line breaks *)
| Verbatim.        (* as it is *)

Definition shown_as (d : display) (s : string) : string :=
  match d with
  | Escaped => esc (VStr s)
  | EscapedBreaks => nl2br (esc (VStr s))
  | Verbatim => s
  end.

(** The text fields of a section, per registered type, and how the
    renderer of the type shows each. *)
Definition section_text_fields : list (string * string * display) :=
  [ ("hero", "heading", Escaped);
    ("hero", "subheading", Escaped);
    ("page-header", "heading", Escaped);
    ("page-header", "subheading", Escaped);
    ("summary", "label", Escaped);
    ("statement", "body", Escaped);
    ("text-block", "label", Escaped);
    ("text-block", "body", EscapedBreaks);
    ("definition-list", "label", Escaped);
    ("activity-list", "label", Escaped);
    ("persons", "label", Escaped);
    ("contact-block", "label", Escaped);
    ("link", "url", Escaped);
    ("link", "label", Escaped);
    ("back-link", "url", Escaped);
    ("back-link", "label", Escaped);
    ("legal-nav", "label", Escaped);
    ("legal-document", "last_updated", Escaped);
    ("legal-document", "body", Verbatim) ].

(** The text fields of the items of a section, per registered type. *)
Definition item_text_fields : list (string * string) :=
  [ ("summary", "label");
    ("summary", "value");
    ("definition-list", "term");
    ("definition-list", "definition");
    ("activity-list", "heading");
    ("activity-list", "description");
    ("persons", "name");
    ("persons", "title");
    ("persons", "bio");
    ("contact-block", "method");
    ("contact-block", "value");
    ("contact-block", "href");
    ("legal-nav", "url");
    ("legal-nav", "label") ].

(** The fields that are link destinations. *)
Definition section_link_fields : list (string * string) :=
  [ ("link", "url"); ("back-link", "url") ].

Definition item_link_fields : list (string * string) :=
  [ ("contact-block", "href"); ("legal-nav", "url") ].

Definition convertible (v : value) : bool :=
  match to_string v with
  | Ok _ => true
  | Throw _ => false
  end.

(** The remaining fields of a section do not make its renderer raise: an
    id and a legal body that convert to text, and items that are absent or
    a sequence without null entries. *)
Definition id_ok (fields : list (string * value)) : bool :=
  if truthy (field fields "id") then convertible (field fields "id") else true.

Definition body_ok (fields : list (string * value)) : bool :=
  convertible (or_else (field fields "body") (VStr "")).

Definition entries_ok (l : list value) : bool :=
  forallb (fun x => negb (nullish x)) l.

Definition items_ok (fields : list (string * value)) : bool :=
  match or_else (field fields "items") (VArr []) with
  | VArr l => entries_ok l
  | _ => false
  end.

Definition well_formed (fields : list (string * value)) : bool :=
  id_ok fields && items_ok fields && body_ok fields.

(** [F] places its argument, whatever non-empty text it is, through
    [shown] between two pieces of markup that do not depend on it. *)
Definition around (shown : string -> string) (F : ascii -> string -> string)
  : Prop :=
  exists pre post, forall c v, F c v = pre ++ shown (String c v) ++ post.

(** [R] renders, for every non-empty text, a section element whose markup
    has the text, through [shown], at one fixed place. *)
Definition shows (shown : string -> string) (R : string -> result rendered)
  : Prop :=
  exists cls i pre post, forall c v,
    R (String c v) =
      Ok (Node {| className := cls; el_id := i;
                  innerHTML := pre ++ shown (String c v) ++ post |}).

(** A link destination as it stands in the markup: the opening of the
    anchor, the escaped value, the closing quote of the attribute. *)
Definition href_attribute (s : string) : string :=
  lit "<a href='" ++ esc (VStr s) ++ lit "'".

(** Fields of a section that steer the rendering without being text of the
    markup: the type selects the renderer and names the class, the id
    becomes the element identifier, items holds the entries, external is a
    flag. *)
Definition structural_fields : list string :=
  ["type"; "id"; "items"; "external"].

Definition text_fields_of (type : string) : list string :=
  map (fun slot => snd (fst slot))
      (filter (fun slot => String.eqb (fst (fst slot)) type)
              section_text_fields).

(** The callback each list-bearing renderer maps over its items. *)
Definition item_renderers : list (string * (value -> result string)) :=
  [ ("summary",         Renderers.summary_item);
    ("definition-list", Renderers.definition_item);
    ("activity-list",   Renderers.activity_item);
    ("persons",         Renderers.person_item);
    ("contact-block",   Renderers.contact_item);
    ("legal-nav",       Renderers.legal_nav_item) ].

Definition item_fields_of (type : string) : list string :=
  map snd (filter (fun slot => String.eqb (fst slot) type) item_text_fields).

(** A section of the given type with the text [probe] in every text field
    and in every text field of its one item. *)
Definition probe_section (type probe : string) : value :=
  VObj (("type", VStr type) ::
        ("items",
         VArr [VObj (map (fun f => (f, VStr probe)) (item_fields_of type))]) ::
        map (fun f => (f, VStr probe)) (text_fields_of type)).

Definition probe_markup (type probe : string) : string :=
  markup_of (probe_section type probe).

(** *** When a section of a registered type renders *)

(** The types whose renderer maps over items. *)
Definition list_types : list string := map fst item_renderers.

(** What the renderer of type [t] needs of a section in order not to raise:
    the id converts to text, a list-bearing type has proper items, and a
    legal document has a body that converts to text. *)
Definition renderable (t : string) (fields : list (string * value)) : bool :=
  id_ok fields &&
  (if existsb (String.eqb t) list_types then items_ok fields else true) &&
  (if String.eqb t "legal-document" then body_ok fields else true).

(** The identifier [createSection] gives the element. *)
Definition id_text (fields : list (string * value)) : string :=
  if truthy (field fields "id")
  then match to_string (field fields "id") with
       | Ok s => s
       | Throw _ => ""
       end
  else "".

(** [arr.map(f)], before the join. *)
Fixpoint render_entries (f : value -> result string) (l : list value)
  : result (list string) :=
  match l with
  | [] => Ok []
  | x :: r => a <- f x ;; rest <- render_entries f r ;; Ok (a :: rest)
  end.

(** [F] places its argument, whatever text it is, between two pieces of
    markup that do not depend on it. *)
Definition wraps (F : string -> string) : Prop :=
  exists pre post, forall h, F h = pre ++ h ++ post.

(** The text has none of the characters esc replaces. *)
Fixpoint plain_text (s : string) : bool :=
  match s with
  | EmptyString => true
  | String a r =>
      negb (Ascii.eqb a "&" || Ascii.eqb a "<" || Ascii.eqb a ">" ||
            Ascii.eqb a dquote) && plain_text r
  end.

Fixpoint last_char (s : string) : option ascii :=
  match s with
  | EmptyString => None
  | String a EmptyString => Some a
  | String _ r => last_char r
  end.

(** The request [loadNavConfig] issues when none has been issued yet. *)
Definition nav_request (w : world) : list op :=
  if navConfigPromise w then []
  else [Fetch (Locator NAV_CONFIG_PATH); StoreNavConfigPromise].

Definition is_nav_fetch (o : op) : bool :=
  match o with
  | Fetch (Locator path) => String.eqb path NAV_CONFIG_PATH
  | _ => false
  end.

(** A page that has no content root. *)
Definition rootless_page : world :=
  {| location_pathname := "/about";
     current_year := Sample.this_year;
     document_title := "";
     meta_description := None;
     content_root := None;
     nav_links := [];
     footer := Sample.empty_footer;
     navConfigPromise := false |}.

(** A script run [n] times in a row. *)
Fixpoint repeatedly (n : nat) (m : M unit) : M unit :=
  match n with
  | O => ret tt
  | S k => m ;;; repeatedly k m
  end.

(** The part of the content chain that the catch protects. *)
Definition content_attempt (load : string -> result value)
  (yamlPath : string) (settled : result response) : M unit :=
  res <== lift settled ;;
  body <== lift (read_body yamlPath res) ;;
  render_page load body.

(** What [render_page] does after the title: the description, the
    sections, the replacement of the content, the navigation marks. *)
Definition render_after_title (data : value) : M unit :=
  update_description data ;;;
  sections <== lift (get data "sections") ;;
  fragment <== lift (render_fragment sections) ;;
  perform (RootSetBusy "false") ;;;
  perform (RootSetInnerHTML "") ;;;
  perform (RootAppendFragment fragment) ;;;
  setActiveNav.

Definition is_fetch (o : op) : bool :=
  match o with
  | Fetch _ => true
  | _ => false
  end.

Definition description_op (o : op) : Prop :=
  match o with
  | SetMetaContent _ => True
  | _ => False
  end.

(** The mutations the content chain can perform. *)
Definition content_op (o : op) : Prop :=
  match o with
  | ConsoleError _ _ | SetTitle _ | SetMetaContent _
  | RootSetBusy _ | RootSetInnerHTML _ | RootAppendFragment _
  | LinkClassAdd _ _ | LinkClassRemove _ _
  | LinkSetCurrent _ _ | LinkRemoveCurrent _ => True
  | _ => False
  end.

Definition keeps_title (o : op) : Prop :=
  match o with
  | SetTitle _ => False
  | _ => True
  end.

Definition keeps_links (o : op) : Prop :=
  match o with
  | LinkClassAdd _ _ | LinkClassRemove _ _
  | LinkSetCurrent _ _ | LinkRemoveCurrent _ => False
  | _ => True
  end.

(** The three mutations that put a fragment in place of the old content. *)
Definition replace_content (fragment : list element) : list op :=
  [RootSetBusy "false"; RootSetInnerHTML ""; RootAppendFragment fragment].

(** The outcome of a script that either raises after mutations of kind [P]
    only, or succeeds with mutations of kind [P], the replacement of the
    content and marks on the navigation links; its log accounts for its
    final document. *)
Definition page_shape (P : op -> Prop) (o : outcome unit) (w : world) : Prop :=
  final o = run (ops o) w /\
  ((exists e, returned o = Throw e /\ Forall P (ops o)) \/
   (returned o = Ok tt /\
    exists fragment pre post,
      ops o = (pre ++ replace_content fragment ++ post)%list /\
      Forall P pre /\ Forall link_op post)).

(** The mutations of the footer. *)
Definition footer_op (o : op) : Prop :=
  match o with
  | FooterSetText _ _ | FooterSetInnerHTML _ _ | EmailSetHref _ => True
  | _ => False
  end.

(** The copyright line for a year and an entity name. *)
Definition copyright_markup (year : string) (entityName : value) : string :=
  "&copy; " ++ esc (VStr year) ++ " " ++ esc entityName ++
  ". All rights reserved.".

(** What the site chrome may do: log, set the text of the name, state and
    email slots, set the email link, and set the copyright line. *)
Definition chrome_op (o : op) : Prop :=
  match o with
  | ConsoleError _ _ => True
  | FooterSetText SlotName _ | FooterSetText SlotState _
  | FooterSetText SlotEmail _ | EmailSetHref _ => True
  | FooterSetInnerHTML SlotCopyright html =>
      exists year entityName, html = copyright_markup year entityName
  | _ => False
  end.

(** A script whose mutations are all of kind [P] and account for its final
    document. *)
Definition traced (P : op -> Prop) {A : Type} (m : M A) : Prop :=
  forall w, Forall P (ops (m w)) /\ final (m w) = run (ops (m w)) w.

Fixpoint occurs (a : ascii) (s : string) : bool :=
  match s with
  | EmptyString => false
  | String b r => Ascii.eqb a b || occurs a r
  end.

(** The classes of a link other than the one [setActiveNav] manages. *)
Definition other_classes (link : nav_link) : list string :=
  filter (fun c => negb (String.eqb "is-active" c)) (classList link).

(** A link that names no page: no href attribute, an empty one, or one made
    of slashes only. *)
Definition points_home (link : nav_link) : Prop :=
  match link_href link with
  | Some h => all_slashes h = true
  | None => True
  end.

(* ------------------------------------------------------------------ *)
(** ** The mobile navigation toggle *)

Module MobileNav.

(** What the script reads and writes: the aria-expanded attribute of the
    toggle, the class list of the menu, and the overflow style of the
    body. *)
Record page := {
  aria_expanded : option string;
  menu_classes : list string;
  body_overflow : string
}.

(** The listeners a click can reach on its way up to the document: the one
    of the toggle and the one of a navigation link of the menu. *)
Inductive listener : Type :=
| OnToggle
| OnLink.

(** A click: the listeners it reaches below the document, innermost first,
    and whether its target lies inside the menu. *)
Record click := {
  path : list listener;
  inside_menu : bool
}.

Inductive event : Type :=
| Click (c : click)
| Keydown (key : string).

(** The page after an event, and whether the script moved the focus to the
    toggle. *)
Record reaction := {
  after : page;
  focused_toggle : bool
}.

(** [classList.toggle(cls, force)] *)
Definition classList_toggle (cls : string) (force : bool) (l : list string)
  : list string :=
  if force then
    if existsb (String.eqb cls) l then l else (l ++ [cls])%list
  else filter (fun c => negb (String.eqb cls c)) l.

Definition setOpen (open : bool) (p : page) : page :=
  {| aria_expanded := Some (if open then "true" else "false");
     menu_classes := classList_toggle "is-open" open (menu_classes p);
     body_overflow := if open then "hidden" else "" |}.

Definition toggle_click (p : page) : page :=
  let expanded :=
    match aria_expanded p with
    | Some v => String.eqb v "true"
    | None => false
    end in
  setOpen (negb expanded) p.

Definition link_click (p : page) : page := setOpen false p.

Definition listener_run (l : listener) (p : page) : page :=
  match l with
  | OnToggle => toggle_click p
  | OnLink => link_click p
  end.

Definition is_toggle (l : listener) : bool :=
  match l with
  | OnToggle => true
  | OnLink => false
  end.

(** [toggle.contains(e.target)]: the click reaches the toggle. *)
Definition toggle_contains (c : click) : bool := existsb is_toggle (path c).

Definition document_click (c : click) (p : page) : page :=
  if negb (toggle_contains c) && negb (inside_menu c) then setOpen false p
  else p.

Definition document_keydown (key : string) (p : page) : reaction :=
  if String.eqb key "Escape" &&
     existsb (String.eqb "is-open") (menu_classes p)
  then {| after := setOpen false p; focused_toggle := true |}
  else {| after := p; focused_toggle := false |}.

(** The listeners in the order the event reaches them. *)
Definition dispatch (ev : event) (p : page) : reaction :=
  match ev with
  | Click c =>
      {| after :=
           document_click c
             (fold_left (fun q l => listener_run l q) (path c) p);
         focused_toggle := false |}
  | Keydown key => document_keydown key p
  end.

(** The script on a page where the toggle and the menu were or were not
    found: without either, no listener is installed. *)
Definition react (toggle_found menu_found : bool) (ev : event) (p : page)
  : reaction :=
  if negb toggle_found || negb menu_found
  then {| after := p; focused_toggle := false |}
  else dispatch ev p.

Definition play (toggle_found menu_found : bool) (evs : list event) (p : page)
  : page :=
  fold_left (fun q ev => after (react toggle_found menu_found ev q)) evs p.

(** The menu is open, and the page says so in all three places. *)
Definition open_state (p : page) : Prop :=
  aria_expanded p = Some "true" /\
  In "is-open" (menu_classes p) /\
  body_overflow p = "hidden".

Definition closed_state (p : page) : Prop :=
  aria_expanded p = Some "false" /\
  ~ In "is-open" (menu_classes p) /\
  body_overflow p = "".

Definition coherent (p : page) : Prop := open_state p \/ closed_state p.

(** The menu as authored: closed, with its own classes. *)
Definition authored : page :=
  {| aria_expanded := Some "false";
     menu_classes := ["nav-menu"];
     body_overflow := "" |}.

Definition on_toggle : event :=
  Click {| path := [OnToggle]; inside_menu := false |}.

Definition on_link : event :=
  Click {| path := [OnLink]; inside_menu := true |}.

Definition outside : event :=
  Click {| path := []; inside_menu := false |}.

End MobileNav.

(* ------------------------------------------------------------------ *)
(** ** Facts about the string primitives *)

Section StringFacts.

Lemma lower_char_slash : forall a, is_slash (lower_char a) = is_slash a.
Proof.
  intros [[] [] [] [] [] [] [] []]; reflexivity.
Qed.

Lemma all_slashes_lower : forall s, all_slashes (toLowerCase s) = all_slashes s.
Proof.
  induction s as [|a r IH]; simpl; [reflexivity|].
  now rewrite lower_char_slash, IH.
Qed.

Lemma strip_lower_commute : forall s,
  strip_trailing_slashes (toLowerCase s) = toLowerCase (strip_trailing_slashes s).
Proof.
  induction s as [|a r IH]; [reflexivity|].
  cbn [toLowerCase strip_trailing_slashes slashes_to_end all_slashes].
  rewrite lower_char_slash, all_slashes_lower.
  destruct (is_slash a && all_slashes r); [reflexivity|].
  cbn [toLowerCase]. now rewrite IH.
Qed.

Lemma all_slashes_app : forall s t,
  all_slashes (s ++ t) = all_slashes s && all_slashes t.
Proof.
  induction s as [|a r IH]; intros t; simpl; [reflexivity|].
  now rewrite IH, andb_assoc.
Qed.

Lemma strip_all_slashes : forall s,
  all_slashes s = true -> strip_trailing_slashes s = "".
Proof.
  intros [|a r] H; [reflexivity|].
  cbn [strip_trailing_slashes slashes_to_end]. now rewrite H.
Qed.

Lemma strip_app_slashes : forall s t,
  all_slashes t = true ->
  strip_trailing_slashes (s ++ t) = strip_trailing_slashes s.
Proof.
  induction s as [|a r IH]; intros t Ht.
  - simpl. now apply strip_all_slashes.
  - cbn [append strip_trailing_slashes slashes_to_end all_slashes].
    rewrite all_slashes_app, Ht, andb_true_r, IH by exact Ht.
    reflexivity.
Qed.

Lemma toLowerCase_idem : forall s, toLowerCase (toLowerCase s) = toLowerCase s.
Proof.
  induction s as [|a r IH]; simpl; [reflexivity|].
  rewrite IH. f_equal.
  destruct a as [[] [] [] [] [] [] [] []]; reflexivity.
Qed.

Lemma strip_idem : forall s,
  strip_trailing_slashes (strip_trailing_slashes s) = strip_trailing_slashes s.
Proof.
  induction s as [|a r IH]; [reflexivity|].
  cbn [strip_trailing_slashes slashes_to_end all_slashes].
  destruct (is_slash a && all_slashes r) eqn:E; [reflexivity|].
  cbn [strip_trailing_slashes slashes_to_end all_slashes].
  destruct (is_slash a) eqn:Ea; simpl in *.
  - assert (Hs : all_slashes (strip_trailing_slashes r) = false).
    { clear -E. induction r as [|b q IHq]; [discriminate|].
      cbn [strip_trailing_slashes slashes_to_end all_slashes] in *.
      destruct (is_slash b) eqn:Eb; simpl in *.
      - rewrite E. simpl. rewrite Eb. simpl. now apply IHq.
      - simpl. now rewrite Eb. }
    rewrite Hs. now rewrite IH.
  - now rewrite IH.
Qed.

(** The left-to-right regular-expression search cuts the same suffix as
    dropping slashes from the right end. *)
Lemma drop_leading_app_slash : forall l a,
  is_slash a = false ->
  forall m, PathSpec.drop_leading_slashes (m ++ a :: l)%list =
            if forallb is_slash m then a :: l
            else (PathSpec.drop_leading_slashes m ++ a :: l)%list.
Proof.
  intros l a Ha. induction m as [|b m IH]; simpl.
  - now rewrite Ha.
  - destruct (is_slash b); simpl; [exact IH | reflexivity].
Qed.

Lemma drop_leading_all : forall m,
  forallb is_slash m = true -> PathSpec.drop_leading_slashes m = [].
Proof.
  induction m as [|b m IH]; simpl; [reflexivity|].
  destruct (is_slash b); simpl; [exact IH | discriminate].
Qed.

Lemma all_slashes_forallb : forall s,
  all_slashes s = forallb is_slash (list_ascii_of_string s).
Proof.
  induction s as [|a r IH]; simpl; [reflexivity | now rewrite IH].
Qed.

Lemma forallb_rev : forall (A : Type) (f : A -> bool) l,
  forallb f (rev l) = forallb f l.
Proof.
  intros A f. induction l as [|x l IH]; simpl; [reflexivity|].
  rewrite forallb_app, IH. simpl. rewrite andb_true_r. apply andb_comm.
Qed.

Lemma strip_refines_spec : forall s,
  strip_trailing_slashes s = PathSpec.remove_trailing_slashes s.
Proof.
  unfold PathSpec.remove_trailing_slashes.
  induction s as [|a r IH]; [reflexivity|].
  cbn [strip_trailing_slashes slashes_to_end all_slashes list_ascii_of_string rev].
  destruct (is_slash a) eqn:Ea; simpl andb.
  - destruct (all_slashes r) eqn:Er.
    + rewrite all_slashes_forallb in Er.
      rewrite drop_leading_all; [reflexivity|].
      rewrite forallb_app, forallb_rev, Er. simpl. now rewrite Ea.
    + rewrite IH. clear IH.
      rewrite all_slashes_forallb, <- forallb_rev in Er.
      remember (rev (list_ascii_of_string r)) as m eqn:Hm. clear Hm.
      assert (H : PathSpec.drop_leading_slashes (m ++ [a])%list =
                  (PathSpec.drop_leading_slashes m ++ [a])%list).
      { induction m as [|b m IHm]; [discriminate|].
        simpl in *. destruct (is_slash b); simpl in *; [now apply IHm | reflexivity]. }
      rewrite H, rev_app_distr. reflexivity.
  - rewrite IH. rewrite drop_leading_app_slash by exact Ea.
    destruct (forallb is_slash (rev (list_ascii_of_string r))) eqn:Er.
    + rewrite drop_leading_all by exact Er. reflexivity.
    + rewrite rev_app_distr. reflexivity.
Qed.

Lemma normalisePath_slash : forall s, normalisePath (s ++ "/") = normalisePath s.
Proof.
  intros s. unfold normalisePath.
  now rewrite strip_app_slashes by reflexivity.
Qed.

Lemma normalisePath_case : forall a b,
  toLowerCase a = toLowerCase b -> normalisePath a = normalisePath b.
Proof.
  intros a b H. unfold normalisePath.
  now rewrite <- !strip_lower_commute, H.
Qed.

End StringFacts.

(* ------------------------------------------------------------------ *)
(** ** Path normalisation and the content map *)

Lemma normalisePath_refines : forall path,
  normalisePath path = PathSpec.normalize path.
Proof.
  intros path. unfold normalisePath, PathSpec.normalize.
  rewrite strip_refines_spec.
  destruct (toLowerCase (PathSpec.remove_trailing_slashes path)); reflexivity.
Qed.

Lemma normalisePath_same_page : forall a b,
  PathSpec.same_page a b -> normalisePath a = normalisePath b.
Proof.
  induction 1 as [a | a | a b H | a b _ IH | a b c _ IH1 _ IH2].
  - reflexivity.
  - symmetry. apply normalisePath_slash.
  - now apply normalisePath_case.
  - now symmetry.
  - now transitivity (normalisePath b).
Qed.

Lemma normalisePath_idempotent : forall path,
  normalisePath (normalisePath path) = normalisePath path.
Proof.
  intros path. unfold normalisePath.
  destruct (String.eqb_spec (toLowerCase (strip_trailing_slashes path)) "")
    as [E | E]; [reflexivity|].
  rewrite strip_lower_commute, toLowerCase_idem, strip_idem.
  destruct (String.eqb_spec (toLowerCase (strip_trailing_slashes path)) "");
    [contradiction | reflexivity].
Qed.

(** C3: normalisePath is a total function on strings that removes the
    trailing run of slashes, lower-cases what is left and answers "/" when
    nothing is left; paths that differ only by trailing slashes or letter
    case therefore get one and the same key, a key is its own key, and
    /About/, /about and /ABOUT all map to /about. *)
Theorem normalisePath_canonical :
  (forall path, normalisePath path = PathSpec.normalize path) /\
  (forall a b, PathSpec.same_page a b -> normalisePath a = normalisePath b) /\
  (forall path, normalisePath (normalisePath path) = normalisePath path) /\
  normalisePath "/About/" = "/about" /\
  normalisePath "/about" = "/about" /\
  normalisePath "/ABOUT" = "/about".
Proof.
  split; [exact normalisePath_refines|].
  split; [exact normalisePath_same_page|].
  split; [exact normalisePath_idempotent|].
  repeat split; reflexivity.
Qed.

Lemma normalisePath_canonical_witness :
  normalisePath "/About///" = normalisePath "/ABOUT".
Proof.
  apply (proj1 (proj2 normalisePath_canonical)).
  apply PathSpec.same_trans with (b := "/About").
  - apply PathSpec.same_sym.
    apply PathSpec.same_trans with (b := "/About/");
      [apply (PathSpec.same_slash "/About")|].
    apply PathSpec.same_trans with (b := "/About//");
      [apply (PathSpec.same_slash "/About/")|].
    apply (PathSpec.same_slash "/About//").
  - apply PathSpec.same_case. reflexivity.
Defined.

(** C7: every key of CONTENT_MAP is already in normalised form, that is
    normalisePath leaves it unchanged: it is lower-case and has no trailing
    slash, and the root page is filed under "/". *)
Theorem content_map_keys_normalised :
  Forall (fun entry => normalisePath (fst entry) = fst entry) CONTENT_MAP /\
  Forall (fun entry =>
            toLowerCase (fst entry) = fst entry /\
            (fst entry = "/" \/
             strip_trailing_slashes (fst entry) = fst entry))
         CONTENT_MAP /\
  lookup CONTENT_MAP "/" = Some "content/home.yml".
Proof.
  split; [|split].
  - unfold CONTENT_MAP. repeat (constructor; [reflexivity|]). constructor.
  - unfold CONTENT_MAP.
    constructor; [split; [reflexivity | left; reflexivity]|].
    repeat (constructor; [split; [reflexivity | right; reflexivity]|]).
    constructor.
  - reflexivity.
Qed.

(* ------------------------------------------------------------------ *)
(** ** Active navigation marker *)

Section ActiveNav.

Lemma indexOf_from_range : forall pat s j,
  indexOf_from j s pat = (-1)%Z \/ (j <= indexOf_from j s pat)%Z.
Proof.
  intros pat. induction s as [|a r IH]; intros j.
  - cbn [indexOf_from]. destruct (String.prefix pat ""); [right; lia | now left].
  - cbn [indexOf_from]. destruct (String.prefix pat (String a r)).
    + right; lia.
    + destruct (IH (j + 1)%Z) as [H | H]; [now left | right; lia].
Qed.

Lemma indexOf_zero_prefix : forall s pat,
  indexOf s pat = 0%Z <-> String.prefix pat s = true.
Proof.
  intros s pat. unfold indexOf.
  destruct s as [|a r]; cbn [indexOf_from].
  - destruct (String.prefix pat ""); split; congruence || lia.
  - destruct (String.prefix pat (String a r)) eqn:E.
    + split; reflexivity || lia.
    + split; [|discriminate].
      intros H. destruct (indexOf_from_range pat r (0 + 1)%Z) as [H1 | H1]; lia.
Qed.

Lemma is_active_spec : forall h c,
  is_active h c = true <->
  (h = c \/ (h <> "/" /\ String.prefix h c = true)).
Proof.
  intros h c. unfold is_active.
  rewrite orb_true_iff, andb_true_iff, negb_true_iff.
  rewrite String.eqb_eq, String.eqb_neq, Z.eqb_eq, indexOf_zero_prefix.
  reflexivity.
Qed.

Lemma update_nth_length : forall (A : Type) (f : A -> A) pre x post,
  update_nth (length pre) f (pre ++ x :: post)%list = (pre ++ f x :: post)%list.
Proof.
  intros A f. induction pre as [|y pre IH]; intros x post; simpl.
  - reflexivity.
  - now rewrite IH.
Qed.

Lemma mark_link_links : forall c pre link post w,
  nav_links w = (pre ++ link :: post)%list ->
  nav_links (final (mark_link c (length pre) link w)) =
    (pre ++ marked c link :: post)%list /\
  returned (mark_link c (length pre) link w) = Ok tt.
Proof.
  intros c pre link post w Hw.
  unfold mark_link, marked, link_target.
  destruct (is_active _ c); cbn; rewrite Hw, !update_nth_length; split; reflexivity.
Qed.

Lemma forEach_mark_links : forall c l pre w,
  nav_links w = (pre ++ l)%list ->
  nav_links (final (forEach_from (length pre) (mark_link c) l w)) =
    (pre ++ map (marked c) l)%list.
Proof.
  intros c. induction l as [|x r IH]; intros pre w Hw.
  - cbn. exact Hw.
  - cbn [forEach_from]. unfold bindM.
    destruct (mark_link_links c pre x r w Hw) as [Hl Hr].
    rewrite Hr. cbn [final].
    assert (Hlen : length (pre ++ [marked c x])%list = S (length pre))
      by (rewrite length_app; simpl; lia).
    rewrite <- Hlen, (IH (pre ++ [marked c x])%list).
    + now rewrite <- app_assoc.
    + rewrite Hl, <- app_assoc. reflexivity.
Qed.

Lemma setActiveNav_links : forall w,
  nav_links (final (setActiveNav w)) =
    map (marked (normalisePath (location_pathname w))) (nav_links w).
Proof.
  intros w. unfold setActiveNav, bindM, inspect. cbn.
  apply (forEach_mark_links _ (nav_links w) [] w). reflexivity.
Qed.

Lemma class_add_in : forall cls l, In cls (classList (class_add cls l)).
Proof.
  intros cls l. unfold class_add. cbn.
  destruct (existsb (String.eqb cls) (classList l)) eqn:E.
  - apply existsb_exists in E. destruct E as [x [Hx Heq]].
    apply String.eqb_eq in Heq. now subst.
  - apply in_or_app. right. now left.
Qed.

Lemma class_remove_not_in : forall cls l,
  ~ In cls (classList (class_remove cls l)).
Proof.
  intros cls l H. unfold class_remove in H. cbn in H.
  apply filter_In in H. destruct H as [_ H].
  now rewrite String.eqb_refl in H.
Qed.

Lemma marked_spec : forall c link,
  (is_active (link_target link) c = true -> marked_active (marked c link)) /\
  (is_active (link_target link) c = false -> unmarked (marked c link)).
Proof.
  intros c link. unfold marked. split; intros H; rewrite H.
  - split; [apply class_add_in | reflexivity].
  - split; [apply class_remove_not_in | reflexivity].
Qed.

End ActiveNav.

(** C5: after setActiveNav, a navigation link with normalised target h,
    under the normalised current path c, carries the class is-active and
    aria-current=page exactly when h = c, or h is not "/" and h is a prefix
    of c; a link that does not satisfy this has both markers removed. *)
Theorem setActiveNav_marks_prefix (w : world) (i : nat) (link : nav_link)
  (Hlink : nth_error (nav_links w) i = Some link) :
  exists link',
    nth_error (nav_links (final (setActiveNav w))) i = Some link' /\
    link_href link' = link_href link /\
    (marked_active link' <->
       (link_target link = normalisePath (location_pathname w) \/
        (link_target link <> "/" /\
         String.prefix (link_target link)
           (normalisePath (location_pathname w)) = true))) /\
    (~ (link_target link = normalisePath (location_pathname w) \/
        (link_target link <> "/" /\
         String.prefix (link_target link)
           (normalisePath (location_pathname w)) = true)) ->
     unmarked link').
Proof.
  set (c := normalisePath (location_pathname w)).
  exists (marked c link).
  rewrite setActiveNav_links. fold c.
  split; [now apply map_nth_error|].
  split; [unfold marked; destruct (is_active _ c); reflexivity|].
  destruct (marked_spec c link) as [Hon Hoff].
  rewrite <- is_active_spec.
  destruct (is_active (link_target link) c) eqn:E.
  - split; [split; auto | intros H; now elim H].
  - specialize (Hoff eq_refl). split; [|intros _; exact Hoff].
    split; [|discriminate].
    intros [Hin _]. destruct Hoff as [Hnot _]. contradiction.
Qed.

Lemma setActiveNav_marks_prefix_witness :
  (exists about,
     nth_error (nav_links (final (setActiveNav (Sample.page_at "/about/team")))) 0
       = Some about /\ marked_active about) /\
  (exists contact,
     nth_error (nav_links (final (setActiveNav (Sample.page_at "/about/team")))) 1
       = Some contact /\ unmarked contact).
Proof.
  split.
  - destruct (setActiveNav_marks_prefix (Sample.page_at "/about/team") 0
                Sample.about_link eq_refl) as [l [Hn [_ [Hiff _]]]].
    exists l. split; [exact Hn|].
    apply Hiff. right. split; [discriminate | reflexivity].
  - destruct (setActiveNav_marks_prefix (Sample.page_at "/about/team") 1
                Sample.contact_link eq_refl) as [l [Hn [_ [_ Hoff]]]].
    exists l. split; [exact Hn|].
    apply Hoff. intros [H | [_ H]]; discriminate.
Defined.

Example active_nav_about_team :
  map aria_current
      (nav_links (final (setActiveNav (Sample.page_at "/about/team"))))
    = [Some "page"; None] /\
  map classList
      (nav_links (final (setActiveNav (Sample.page_at "/about/team"))))
    = [["nav-link"; "is-active"]; ["nav-link"]].
Proof. split; reflexivity. Qed.

(* ------------------------------------------------------------------ *)
(** ** The initialiser on a path without content *)

Section NotFound.

Lemma normalisePath_leading_slash : forall p,
  String.prefix "/" p = true -> exists r, normalisePath p = String "/" r.
Proof.
  intros [|a r] H; [discriminate|].
  assert (Ha : a = "/"%char).
  { cbv beta iota delta [String.prefix] in H.
    destruct (Ascii.ascii_dec "/" a); [now subst | discriminate]. }
  subst a. unfold normalisePath.
  cbn [strip_trailing_slashes slashes_to_end all_slashes].
  destruct (is_slash "/" && all_slashes r).
  - exists "". reflexivity.
  - eexists. reflexivity.
Qed.

Lemma object_get_slash_key : forall (A : Type) (m : list (string * A)) r,
  lookup m (String "/" r) = None -> object_get m (String "/" r) = Absent.
Proof.
  intros A m r H. unfold object_get. rewrite H. reflexivity.
Qed.

Lemma not_found_markup_parsed :
  parse_children NOT_FOUND_MARKUP = [Markup NOT_FOUND_MARKUP].
Proof. reflexivity. Qed.

End NotFound.

(** C6: when the normalised current path has no entry in CONTENT_MAP, init
    puts the static Page Not Found markup into the content root, sets
    aria-busy to false and returns with no content request pending; the only
    request it can have issued is the one for the navigation document. *)
Theorem init_not_found (w : world) (r : root_state)
  (Hurl : String.prefix "/" (location_pathname w) = true)
  (Hmiss : lookup CONTENT_MAP (normalisePath (location_pathname w)) = None)
  (Hroot : content_root w = Some r) :
  returned (init w) = Ok None /\
  content_root (final (init w)) =
    Some {| aria_busy := Some "false";
            children := [Markup NOT_FOUND_MARKUP] |} /\
  ops (init w) =
    ((if navConfigPromise w then []
      else [Fetch (Locator NAV_CONFIG_PATH); StoreNavConfigPromise]) ++
     [RootSetBusy "false"; RootSetInnerHTML NOT_FOUND_MARKUP])%list /\
  (forall input, In (Fetch input) (ops (init w)) ->
                 input = Locator NAV_CONFIG_PATH).
Proof.
  destruct (normalisePath_leading_slash _ Hurl) as [key Hkey].
  assert (Hget : object_get CONTENT_MAP (normalisePath (location_pathname w))
                 = Absent).
  { rewrite Hkey in *. now apply object_get_slash_key. }
  assert (Hinit : init w =
            {| final := exec (RootSetInnerHTML NOT_FOUND_MARKUP)
                          (exec (RootSetBusy "false")
                             (if navConfigPromise w then w
                              else exec StoreNavConfigPromise w));
               ops := ((if navConfigPromise w then []
                        else [Fetch (Locator NAV_CONFIG_PATH);
                              StoreNavConfigPromise]) ++
                       [RootSetBusy "false";
                        RootSetInnerHTML NOT_FOUND_MARKUP])%list;
               returned := Ok None |}).
  { unfold init, loadNavConfig, bindM, inspect, perform, ret.
    cbn [final ops returned].
    destruct (navConfigPromise w) eqn:Ep;
      cbn -[NOT_FOUND_MARKUP parse_children];
      rewrite Hroot; cbn -[NOT_FOUND_MARKUP parse_children];
      rewrite Hget; reflexivity. }
  rewrite Hinit. cbn [final ops returned].
  split; [reflexivity|]. split; [|split; [reflexivity|]].
  - destruct (navConfigPromise w); cbn -[NOT_FOUND_MARKUP parse_children];
      rewrite Hroot, not_found_markup_parsed; reflexivity.
  - intros input Hin.
    destruct (navConfigPromise w); cbn -[NOT_FOUND_MARKUP] in Hin;
      repeat (destruct Hin as [Hin | Hin]; try discriminate; try contradiction);
      now inversion Hin.
Qed.

Lemma init_not_found_witness :
  returned (init (Sample.page_at "/unknown-page")) = Ok None /\
  content_root (final (init (Sample.page_at "/unknown-page"))) =
    Some {| aria_busy := Some "false";
            children := [Markup NOT_FOUND_MARKUP] |} /\
  ops (init (Sample.page_at "/unknown-page")) =
    [Fetch (Locator NAV_CONFIG_PATH); StoreNavConfigPromise;
     RootSetBusy "false"; RootSetInnerHTML NOT_FOUND_MARKUP] /\
  (forall input,
     In (Fetch input) (ops (init (Sample.page_at "/unknown-page"))) ->
     input = Locator NAV_CONFIG_PATH).
Proof.
  exact (init_not_found (Sample.page_at "/unknown-page") Sample.loading_root
           eq_refl eq_refl eq_refl).
Defined.

(* ------------------------------------------------------------------ *)
(** ** Site chrome: failures are logged and change nothing *)

Section Chrome.

Variable load : string -> result value.

Lemma nav_config_chain_failure : forall settled err w,
  chrome_failure load settled err ->
  nav_config_chain load settled w =
    {| final := w;
       ops := [ConsoleError "[page-renderer] Failed to load nav config:" err];
       returned := Ok VNull |}.
Proof.
  intros settled err w H.
  unfold nav_config_chain, catch, bindM, lift, perform, ret, read_body.
  destruct H as [e | res Hok | res e Hok Ht | res body e Hok Ht Hl];
    cbn [final ops returned];
    rewrite ?Hok; cbn [final ops returned];
    rewrite ?Ht; cbn [final ops returned];
    rewrite ?Hl; reflexivity.
Qed.

End Chrome.

(** C8: whenever the site-chrome pipeline fails (the request for the
    navigation document is rejected, its status is not a success, its body
    cannot be read or the loader rejects it), the error is logged to the
    console and that is all: the chain resolves to null, applySiteChrome
    does nothing with it, and the document, footer slots included, is left
    exactly as it was. *)
Theorem chrome_failure_leaves_markup
  (load : string -> result value) (settled : result response) (err : exn)
  (w : world) (Hfail : chrome_failure load settled err) :
  final (chrome_chain load settled w) = w /\
  ops (chrome_chain load settled w) =
    [ConsoleError "[page-renderer] Failed to load nav config:" err] /\
  returned (chrome_chain load settled w) = Ok tt /\
  returned (nav_config_chain load settled w) = Ok VNull /\
  footer (final (chrome_chain load settled w)) = footer w.
Proof.
  unfold chrome_chain, catch, bindM.
  rewrite (nav_config_chain_failure load settled err w Hfail).
  cbn. repeat split; reflexivity.
Qed.

Example footer_year_scenario :
  footer (final (chrome_chain Sample.load_nav
                   (Ok (Sample.http true "200" "nav")) Sample.footer_page)) =
    {| footer_name := Some (Text "Studio & Co");
       footer_state := Some (Text "");
       footer_email := Some (Text "info@example.com",
                             Some "mailto:info@example.com");
       footer_copyright :=
         Some (Markup "&copy; 2026 Studio &amp; Co. All rights reserved.") |}.
Proof. reflexivity. Qed.

Lemma chrome_failure_leaves_markup_witness :
  final (chrome_chain Sample.load_rejects
           (Ok (Sample.http false "500" "")) (Sample.page_at "/")) =
    Sample.page_at "/" /\
  ops (chrome_chain Sample.load_rejects
         (Ok (Sample.http false "500" "")) (Sample.page_at "/")) =
    [ConsoleError "[page-renderer] Failed to load nav config:"
       (HttpError "HTTP 500: content/nav.yml")] /\
  returned (chrome_chain Sample.load_rejects
              (Ok (Sample.http false "500" "")) (Sample.page_at "/")) = Ok tt /\
  returned (nav_config_chain Sample.load_rejects
              (Ok (Sample.http false "500" "")) (Sample.page_at "/")) = Ok VNull /\
  footer (final (chrome_chain Sample.load_rejects
                   (Ok (Sample.http false "500" "")) (Sample.page_at "/"))) =
    footer (Sample.page_at "/").
Proof.
  exact (chrome_failure_leaves_markup Sample.load_rejects
           (Ok (Sample.http false "500" "")) _ (Sample.page_at "/")
           (bad_status Sample.load_rejects (Sample.http false "500" "") eq_refl)).
Defined.

(* ------------------------------------------------------------------ *)
(** ** The render step: what happens to the content root *)

Section RenderStep.

Lemma states_app : forall a b w,
  states w (a ++ b)%list = (states w a ++ states (run a w) b)%list.
Proof.
  induction a as [|o a IH]; intros b w; cbn; [reflexivity|].
  now rewrite IH.
Qed.

Lemma run_app : forall a b w, run (a ++ b)%list w = run b (run a w).
Proof. intros a b w. unfold run. apply fold_left_app. Qed.

Lemma quiet_states : forall (P : op -> Prop),
  (forall o w, P o -> content_root (exec o w) = content_root w) ->
  forall l w, Forall P l ->
  map content_root (states w l) = map (fun _ => content_root w) l /\
  content_root (run l w) = content_root w.
Proof.
  intros P HP. induction l as [|o l IH]; intros w Hl.
  - split; reflexivity.
  - inversion Hl as [|? ? Ho Hl']; subst.
    destruct (IH (exec o w) Hl') as [H1 H2].
    change (run (o :: l) w) with (run l (exec o w)).
    cbn [states map].
    rewrite H1, H2, (HP o w Ho). split; reflexivity.
Qed.

Lemma metadata_op_root : forall o w,
  metadata_op o -> content_root (exec o w) = content_root w.
Proof. intros [] w H; try contradiction; reflexivity. Qed.

Lemma link_op_root : forall o w,
  link_op o -> content_root (exec o w) = content_root w.
Proof. intros [] w H; try contradiction; reflexivity. Qed.

Lemma bindM_ok_inv : forall (A B : Type) (m : M A) (k : A -> M B) w b,
  returned (bindM m k w) = Ok b ->
  exists a,
    returned (m w) = Ok a /\
    returned (k a (final (m w))) = Ok b /\
    ops (bindM m k w) = (ops (m w) ++ ops (k a (final (m w))))%list /\
    final (bindM m k w) = final (k a (final (m w))).
Proof.
  intros A B m k w b. unfold bindM.
  destruct (returned (m w)) as [a|e]; cbn; [|discriminate].
  intros H. exists a. repeat split; assumption || reflexivity.
Qed.

Lemma lift_ok_inv : forall (A : Type) (r : result A) w a,
  returned (lift r w) = Ok a ->
  r = Ok a /\ ops (lift r w) = [] /\ final (lift r w) = w.
Proof. intros A r w a H. cbn in *. repeat split; assumption || reflexivity. Qed.

Lemma update_title_quiet : forall data w,
  Forall metadata_op (ops (update_title data w)) /\
  final (update_title data w) = run (ops (update_title data w)) w.
Proof.
  intros data w. unfold update_title, bindM, lift, perform, ret.
  cbn [final ops returned].
  destruct (get data "meta") as [meta|e]; cbn [final ops returned];
    [|split; [constructor | reflexivity]].
  destruct (truthy meta); cbn [final ops returned];
    [|split; [constructor | reflexivity]].
  destruct (get meta "title") as [title|e]; cbn [final ops returned];
    [|split; [constructor | reflexivity]].
  destruct (truthy title); cbn [final ops returned];
    [|split; [constructor | reflexivity]].
  destruct (to_string title) as [t|e]; cbn [final ops returned app];
    split; try reflexivity; repeat constructor.
Qed.

Lemma update_description_quiet : forall data w,
  Forall metadata_op (ops (update_description data w)) /\
  final (update_description data w) = run (ops (update_description data w)) w.
Proof.
  intros data w. unfold update_description, bindM, lift, perform, ret, inspect.
  cbn [final ops returned].
  destruct (get data "meta") as [meta|e]; cbn [final ops returned];
    [|split; [constructor | reflexivity]].
  destruct (truthy meta); cbn [final ops returned];
    [|split; [constructor | reflexivity]].
  destruct (get meta "description") as [d|e]; cbn [final ops returned];
    [|split; [constructor | reflexivity]].
  destruct (truthy d); cbn [final ops returned];
    [|split; [constructor | reflexivity]].
  destruct (meta_description w); cbn [final ops returned];
    [|split; [constructor | reflexivity]].
  destruct (to_string d) as [t|e]; cbn [final ops returned app];
    split; try reflexivity; repeat constructor.
Qed.

Lemma forEach_mark_quiet : forall c l i w,
  Forall link_op (ops (forEach_from i (mark_link c) l w)) /\
  returned (forEach_from i (mark_link c) l w) = Ok tt /\
  final (forEach_from i (mark_link c) l w) =
    run (ops (forEach_from i (mark_link c) l w)) w.
Proof.
  intros c. induction l as [|x l IH]; intros i w.
  - cbn. repeat split. constructor.
  - cbn [forEach_from]. unfold bindM.
    assert (Hx : returned (mark_link c i x w) = Ok tt /\
                 Forall link_op (ops (mark_link c i x w)) /\
                 final (mark_link c i x w) = run (ops (mark_link c i x w)) w).
    { unfold mark_link. destruct (is_active _ c); cbn;
        repeat split; repeat constructor. }
    destruct Hx as [Hr [Ho Hf]]. rewrite Hr. cbn [final ops returned].
    destruct (IH (S i) (final (mark_link c i x w))) as [H1 [H2 H3]].
    split; [apply Forall_app; split; assumption|].
    split; [assumption|].
    rewrite run_app, <- Hf. exact H3.
Qed.

Lemma setActiveNav_quiet : forall w,
  Forall link_op (ops (setActiveNav w)) /\
  returned (setActiveNav w) = Ok tt /\
  final (setActiveNav w) = run (ops (setActiveNav w)) w.
Proof.
  intros w. unfold setActiveNav, bindM, inspect. cbn [final ops returned app].
  apply forEach_mark_quiet.
Qed.

Lemma render_tail : forall fragment w r,
  content_root w = Some r ->
  let w' := run [RootSetBusy "false"; RootSetInnerHTML "";
                 RootAppendFragment fragment] w in
  (perform (RootSetBusy "false") ;;;
   perform (RootSetInnerHTML "") ;;;
   perform (RootAppendFragment fragment) ;;;
   setActiveNav) w =
  {| final := final (setActiveNav w');
     ops := ([RootSetBusy "false"; RootSetInnerHTML "";
              RootAppendFragment fragment] ++ ops (setActiveNav w'))%list;
     returned := Ok tt |}.
Proof.
  intros fragment w r Hr w'. unfold bindM, perform.
  cbn [final ops returned].
  fold w'. change (exec (RootAppendFragment fragment)
                     (exec (RootSetInnerHTML "") (exec (RootSetBusy "false") w)))
            with w'.
  destruct (setActiveNav_quiet w') as [_ [Hret _]].
  rewrite Hret. reflexivity.
Qed.

End RenderStep.

(** C9 (as the code has it): on a successful render the content root is
    changed by exactly three consecutive mutations of one callback: aria-busy
    is set to false, the container is emptied, and all rendered sections are
    attached by a single append of the off-screen fragment.  Before them only
    the title and the description are touched, after them only navigation
    links.  The container therefore holds the old content, then nothing, then
    the complete new content; sections never arrive one by one. *)
Theorem render_page_root_trace
  (load : string -> result value) (body : string) (w : world) (r : root_state)
  (Hroot : content_root w = Some r)
  (Hok : returned (render_page load body w) = Ok tt) :
  exists data sections fragment pre post,
    load body = Ok data /\
    get data "sections" = Ok sections /\
    render_fragment sections = Ok fragment /\
    Forall metadata_op pre /\ Forall link_op post /\
    ops (render_page load body w) =
      (pre ++ [RootSetBusy "false"; RootSetInnerHTML "";
               RootAppendFragment fragment] ++ post)%list /\
    map content_root (states w (ops (render_page load body w))) =
      (map (fun _ => Some r) pre ++
       [Some {| aria_busy := Some "false"; children := children r |};
        Some {| aria_busy := Some "false"; children := [] |};
        Some {| aria_busy := Some "false";
                children := map SectionNode fragment |}] ++
       map (fun _ => Some {| aria_busy := Some "false";
                             children := map SectionNode fragment |}) post)%list /\
    content_root (final (render_page load body w)) =
      Some {| aria_busy := Some "false";
              children := map SectionNode fragment |}.
Proof.
  unfold render_page in *.
  destruct (bindM_ok_inv _ _ _ _ _ _ Hok) as [data [H1 [Hk1 [Ho1 Hf1]]]].
  apply lift_ok_inv in H1. destruct H1 as [Hload _].
  cbn [lift final ops app] in Hk1, Ho1, Hf1.
  destruct (bindM_ok_inv _ _ _ _ _ _ Hk1) as [[] [_ [Hk2 [Ho2 Hf2]]]].
  destruct (update_title_quiet data w) as [Hmt Hft].
  set (w1 := final (update_title data w)) in *.
  destruct (bindM_ok_inv _ _ _ _ _ _ Hk2) as [[] [_ [Hk3 [Ho3 Hf3]]]].
  destruct (update_description_quiet data w1) as [Hmd Hfd].
  set (w2 := final (update_description data w1)) in *.
  destruct (bindM_ok_inv _ _ _ _ _ _ Hk3) as [sections [H4 [Hk4 [Ho4 Hf4]]]].
  apply lift_ok_inv in H4. destruct H4 as [Hsec _].
  cbn [lift final ops app] in Hk4, Ho4, Hf4.
  destruct (bindM_ok_inv _ _ _ _ _ _ Hk4) as [fragment [H5 [Hk5 [Ho5 Hf5]]]].
  apply lift_ok_inv in H5. destruct H5 as [Hfrag _].
  cbn [lift final ops app] in Hk5, Ho5, Hf5.
  set (pre := (ops (update_title data w) ++ ops (update_description data w1))%list).
  assert (Hpre : Forall metadata_op pre) by (apply Forall_app; split; assumption).
  assert (Hw2 : w2 = run pre w).
  { unfold pre. rewrite run_app, <- Hft. exact Hfd. }
  destruct (quiet_states metadata_op metadata_op_root pre w Hpre) as [Hs1 Hr1].
  assert (Hroot2 : content_root w2 = Some r) by (rewrite Hw2, Hr1; exact Hroot).
  pose proof (render_tail fragment w2 r Hroot2) as Htail. cbv zeta in Htail.
  set (w3 := run [RootSetBusy "false"; RootSetInnerHTML "";
                  RootAppendFragment fragment] w2) in *.
  destruct (setActiveNav_quiet w3) as [Hlk [_ Hfn]].
  destruct (quiet_states link_op link_op_root (ops (setActiveNav w3)) w3 Hlk)
    as [Hs3 Hr3].
  assert (Hroot3 : content_root w3 =
                   Some {| aria_busy := Some "false";
                           children := map SectionNode fragment |}).
  { unfold w3. cbn. rewrite Hroot2. reflexivity. }
  assert (Hops : ops (render_page load body w) =
            (pre ++ [RootSetBusy "false"; RootSetInnerHTML "";
                     RootAppendFragment fragment] ++ ops (setActiveNav w3))%list).
  { unfold render_page. rewrite Ho1, Ho2, Ho3, Ho4, Ho5.
    fold w1 w2. rewrite Htail. cbn [ops]. unfold pre.
    now rewrite <- app_assoc. }
  exists data, sections, fragment, pre, (ops (setActiveNav w3)).
  split; [exact Hload|]. split; [exact Hsec|]. split; [exact Hfrag|].
  split; [exact Hpre|]. split; [exact Hlk|]. split; [exact Hops|].
  split.
  - fold (render_page load body w). rewrite Hops.
    rewrite states_app, map_app, Hs1, Hroot. f_equal.
    rewrite states_app, map_app. rewrite <- Hw2. fold w3.
    rewrite Hs3, Hroot3. f_equal.
    cbn. rewrite Hroot2. reflexivity.
  - rewrite Hf1, Hf2, Hf3, Hf4, Hf5. fold w1 w2. rewrite Htail.
    cbn [final]. rewrite Hfn, Hr3. exact Hroot3.
Qed.

Lemma render_page_root_trace_witness :
  exists fragment,
    content_root (final (render_page Sample.load_home "home" (Sample.page_at "/"))) =
      Some {| aria_busy := Some "false";
              children := map SectionNode fragment |}.
Proof.
  destruct (render_page_root_trace Sample.load_home "home" (Sample.page_at "/")
              Sample.loading_root eq_refl eq_refl)
    as [data [sections [fragment [pre [post H]]]]].
  exists fragment. apply H.
Defined.

(** C9 (as stated) fails: while the home page is rendered, the content root
    holds the loading placeholder first and the rendered section last, and
    in between there is a state of the document in which it has no children
    at all: the replacement takes two mutations, not one. *)
Lemma render_empties_root_first :
  option_map children (content_root (Sample.page_at "/")) =
    Some [Markup "<p>Loading</p>"] /\
  option_map (fun r => length (children r))
             (content_root (final Sample.home_render)) = Some 1 /\
  exists w mid,
    nth_error (states (Sample.page_at "/") (ops Sample.home_render)) 2 = Some w /\
    content_root w = Some mid /\
    children mid = [].
Proof.
  split; [reflexivity|]. split; [reflexivity|].
  eexists. eexists. split; [reflexivity|]. split; reflexivity.
Qed.

Example home_page_scenario :
  document_title (final Sample.home_render) =
    "Home — Nilüfer Ormanlı Studio LLC" /\
  returned Sample.home_render = Ok tt /\
  ops (init (Sample.page_at "/")) =
    [Fetch (Locator NAV_CONFIG_PATH); StoreNavConfigPromise;
     Fetch (Locator "content/home.yml")].
Proof. repeat split; reflexivity. Qed.

Example server_error_scenario :
  ops (content_chain Sample.load_home "content/home.yml"
         (Ok (Sample.http false "500" "")) (Sample.page_at "/")) =
    [ConsoleError "[page-renderer] Failed to load content:"
       (HttpError "HTTP 500: content/home.yml");
     RootSetBusy "false"; RootSetInnerHTML LOAD_FAILED_MARKUP] /\
  nav_links (final (content_chain Sample.load_home "content/home.yml"
                      (Ok (Sample.http false "500" "")) (Sample.page_at "/"))) =
    nav_links (Sample.page_at "/").
Proof. split; reflexivity. Qed.

(* ------------------------------------------------------------------ *)
(** ** Unknown section types *)

Section Fallback.

(** Where the type is neither a renderer nor an inherited member, the
    generic renderer is used. *)
Lemma renderSection_absent_fallback : forall fields key,
  to_string (field fields "type") = Ok key ->
  object_get renderers key = Absent ->
  renderSection (VObj fields) =
    (el <- fallback (VObj fields) ;; Ok (Node el)).
Proof.
  intros fields key Hkey Habs. unfold renderSection.
  cbn [get bind]. rewrite Hkey. cbn [bind].
  rewrite Habs. reflexivity.
Qed.

Lemma fallback_markup : forall fields el,
  createSection (VObj fields) = Ok el ->
  fallback (VObj fields) =
    Ok (set_innerHTML el
          (lit "<div class='section-inner'>" ++
             (if truthy (field fields "body")
              then "<p>" ++ esc (field fields "body") ++ "</p>"
              else "") ++ "</div>")).
Proof.
  intros fields el Hel. unfold fallback. rewrite Hel. reflexivity.
Qed.

End Fallback.

(** C4 does not hold of the code for a type that names a member the
    registry object inherits: __proto__, constructor and toString are no
    keys of the registry, yet for them renderSection does not take the
    generic renderer.  With __proto__ it raises a TypeError; with constructor
    or toString it returns something that is no element, and attaching that
    to the fragment raises.  The generic renderer itself would have produced
    the escaped body. *)
Theorem renderSection_inherited_type :
  lookup renderers "__proto__" = None /\
  lookup renderers "constructor" = None /\
  lookup renderers "toString" = None /\
  renderSection (Sample.odd_section "__proto__") = Throw TypeError /\
  renderSection (Sample.odd_section "constructor") = Ok NotNode /\
  renderSection (Sample.odd_section "toString") = Ok NotNode /\
  render_fragment (VArr [Sample.odd_section "constructor"]) = Throw TypeError /\
  fallback (Sample.odd_section "__proto__") =
    Ok {| className := "section section--__proto__";
          el_id := "";
          innerHTML := lit "<div class='section-inner'><p>Hello</p></div>" |}.
Proof. repeat split; reflexivity. Qed.

(* ------------------------------------------------------------------ *)
(** ** Escaping *)

Section Escaping.

Lemma append_nil_r : forall s : string, s ++ "" = s.
Proof. induction s as [|a r IH]; cbn; [reflexivity | now rewrite IH]. Qed.

Lemma append_assoc : forall a b c : string, (a ++ b) ++ c = a ++ (b ++ c).
Proof.
  induction a as [|x a IH]; intros b c; cbn; [reflexivity | now rewrite IH].
Qed.

(** The four passes of esc amount to one pass that maps each character to
    its entity: an ampersand written by a later pass is never escaped
    again, because the ampersand pass runs first. *)
Lemma esc_one_pass : forall s, esc (VStr s) = escape_text s.
Proof.
  unfold esc. induction s as [|a r IH]; [reflexivity|].
  cbn [escape_text]. rewrite <- IH.
  destruct a as [[] [] [] [] [] [] [] []]; reflexivity.
Qed.

(** The apostrophe is not among the characters esc replaces. *)
Lemma esc_leaves_apostrophe : esc (VStr "it's") = "it's".
Proof. reflexivity. Qed.

Lemma escape_text_clean : forall s a,
  a = "<"%char \/ a = ">"%char \/ a = dquote ->
  contains (escape_text s) (String a "") = false.
Proof.
  intros s a Ha. unfold contains, indexOf.
  assert (H : forall i, indexOf_from i (escape_text s) (String a "") = (-1)%Z).
  { induction s as [|b r IH]; intros i.
    - destruct Ha as [-> | [-> | ->]]; reflexivity.
    - cbn [escape_text].
      destruct Ha as [-> | [-> | ->]];
        destruct b as [[] [] [] [] [] [] [] []];
        cbn -[escape_text]; rewrite ?IH; try reflexivity;
        destruct (String.prefix _ _) eqn:E; rewrite ?IH; try reflexivity;
        (destruct (escape_text r); discriminate). }
  rewrite H. reflexivity.
Qed.

End Escaping.

(* ------------------------------------------------------------------ *)
(** ** Where a field of a section ends up in the markup *)

Create HintDb renderers discriminated.
#[local] Hint Unfold Renderers.hero Renderers.page_header Renderers.summary
  Renderers.statement Renderers.text_block Renderers.definition_list
  Renderers.activity_list Renderers.persons Renderers.contact_block
  Renderers.link Renderers.back_link Renderers.legal_nav
  Renderers.legal_document fallback sectionLabel : renderers.

Create HintDb item_renderers discriminated.
#[local] Hint Unfold Renderers.summary_item Renderers.definition_item
  Renderers.activity_item Renderers.person_item Renderers.contact_item
  Renderers.legal_nav_item : item_renderers.

Ltac crunch :=
  cbn -[createSection append lit esc nl2br map_items map_join].

Section Around.

Variable g : string -> string.

Lemma around_here : around g (fun c v => g (String c v)).
Proof.
  exists "", "". intros c v. cbn [append]. now rewrite append_nil_r.
Qed.

Lemma around_left : forall a F,
  around g F -> around g (fun c v => a ++ F c v).
Proof.
  intros a F [pre [post H]]. exists (a ++ pre), post. intros c v.
  now rewrite H, append_assoc.
Qed.

Lemma around_right : forall F b,
  around g F -> around g (fun c v => F c v ++ b).
Proof.
  intros F b [pre [post H]]. exists pre, (post ++ b). intros c v.
  now rewrite H, !append_assoc.
Qed.

Lemma around_if : forall (b : bool) F1 F2,
  around g F1 -> around g F2 ->
  around g (fun c v => if b then F1 c v else F2 c v).
Proof. intros [] F1 F2 H1 H2; assumption. Qed.

Lemma shows_of_around : forall (R : string -> result rendered) el,
  (exists F,
     (forall c v, R (String c v) = Ok (Node (set_innerHTML el (F c v)))) /\
     around g F) ->
  shows g R.
Proof.
  intros R el [F [HR [pre [post HF]]]].
  exists (className el), (el_id el), pre, post. intros c v.
  rewrite HR, HF. reflexivity.
Qed.

End Around.

Lemma lit_quote : forall tail, lit (String "'" tail) = lit "'" ++ lit tail.
Proof. reflexivity. Qed.

Lemma around_href : forall tail post,
  around href_attribute
    (fun c v => lit "<a href='" ++ esc (VStr (String c v)) ++
                lit (String "'" tail) ++ post).
Proof.
  intros tail post. exists "", (lit tail ++ post). intros c v.
  unfold href_attribute. rewrite lit_quote.
  cbn [append]. now rewrite !append_assoc.
Qed.

Ltac around_tac :=
  solve [ repeat match goal with
  | |- around href_attribute
         (fun c v => lit "<a href='" ++ esc (VStr (String c v)) ++
                     lit (String "'" ?tail) ++ ?post) =>
      apply (around_href tail post)
  | |- around ?g (fun c v => ?a ++ @?F c v) => apply (around_left g a F)
  | |- around ?g (fun c v => @?F c v ++ ?b) => apply (around_right g F b)
  | |- around ?g (fun c v => if ?b then @?F1 c v else @?F2 c v) =>
      apply (around_if g b F1 F2)
  | |- around ?g _ => apply (around_here g)
  end ].

Section Slots.

Lemma get_skip : forall f x rest name,
  String.eqb f name = false ->
  get (VObj ((f, x) :: rest)) name = get (VObj rest) name.
Proof. intros f x rest name H. cbn [get field]. now rewrite H. Qed.

Lemma createSection_skip : forall f x rest,
  String.eqb f "type" = false -> String.eqb f "id" = false ->
  createSection (VObj ((f, x) :: rest)) = createSection (VObj rest).
Proof.
  intros f x rest H1 H2. unfold createSection.
  now rewrite !get_skip by assumption.
Qed.

Lemma createSection_ok : forall rest t,
  field rest "type" = VStr t -> id_ok rest = true ->
  exists el, createSection (VObj rest) = Ok el.
Proof.
  intros rest t Ht Hid. unfold createSection, id_ok, convertible in *.
  cbn [get bind]. rewrite Ht.
  assert (Hs : exists suffix,
             to_string (or_else (VStr t) (VStr "text")) = Ok suffix).
  { unfold or_else. destruct (truthy (VStr t)); eexists; reflexivity. }
  destruct Hs as [suffix ->]. cbn [bind].
  destruct (truthy (field rest "id")); [|eexists; reflexivity].
  destruct (to_string (field rest "id")); [|discriminate].
  eexists; reflexivity.
Qed.

Lemma map_join_total : forall f : value -> result string,
  (forall x, nullish x = false -> exists h, f x = Ok h) ->
  forall l, entries_ok l = true -> exists h, map_join f l = Ok h.
Proof.
  intros f Hf. induction l as [|x l IH]; intros Hl; cbn in *.
  - eexists; reflexivity.
  - apply andb_true_iff in Hl. destruct Hl as [Hx Hl].
    apply negb_true_iff in Hx.
    destruct (Hf x Hx) as [a ->]. destruct (IH Hl) as [b ->].
    eexists; reflexivity.
Qed.

Lemma map_items_total : forall f rest,
  (forall x, nullish x = false -> exists h, f x = Ok h) ->
  items_ok rest = true ->
  exists h, map_items f (field rest "items") = Ok h.
Proof.
  intros f rest Hf H. unfold items_ok, map_items in *.
  destruct (or_else (field rest "items") (VArr [])); try discriminate.
  apply map_join_total; [exact Hf | exact H].
Qed.

Lemma body_text : forall rest,
  body_ok rest = true ->
  exists text, to_string (or_else (field rest "body") (VStr "")) = Ok text.
Proof.
  intros rest H. unfold body_ok, convertible in H.
  destruct (to_string _) as [t|]; [eexists; reflexivity | discriminate].
Qed.

Lemma map_join_app : forall f l1 l2,
  map_join f (l1 ++ l2)%list =
    (a <- map_join f l1 ;; b <- map_join f l2 ;; Ok (a ++ b)).
Proof.
  intros f. induction l1 as [|x l1 IH]; intros l2; cbn [map_join app bind].
  - destruct (map_join f l2); reflexivity.
  - destruct (f x) as [a|e]; cbn [bind]; [|reflexivity].
    rewrite IH. destruct (map_join f l1) as [b|e]; cbn [bind]; [|reflexivity].
    destruct (map_join f l2) as [d|e]; cbn [bind]; [|reflexivity].
    now rewrite append_assoc.
Qed.

Lemma map_join_cons : forall f x r,
  map_join f (x :: r) = (a <- f x ;; b <- map_join f r ;; Ok (a ++ b)).
Proof. reflexivity. Qed.

End Slots.

Ltac entry_total :=
  let x := fresh "x" in let Hx := fresh "Hx" in
  intros x Hx; destruct x; try discriminate; eexists; reflexivity.

Lemma items_total : forall rest,
  items_ok rest = true ->
  Forall (fun f => exists h, map_items f (field rest "items") = Ok h)
    (map snd item_renderers).
Proof.
  intros rest H. cbn [map snd item_renderers].
  repeat (constructor; [apply map_items_total; [entry_total | exact H]|]).
  constructor.
Qed.

Lemma entries_total : forall l,
  entries_ok l = true ->
  Forall (fun f => exists h, map_join f l = Ok h) (map snd item_renderers).
Proof.
  intros l H. cbn [map snd item_renderers].
  repeat (constructor; [apply map_join_total; [entry_total | exact H]|]).
  constructor.
Qed.

Ltac split_facts H :=
  cbn [map snd item_renderers] in H;
  repeat (let h := fresh "h" in let Hh := fresh "Hh" in
          let H' := fresh "Hall" in
          inversion H as [|? ? [h Hh] H']; subst; clear H; rename H' into H);
  clear H.

Ltac items_facts rest Hitems :=
  let H := fresh "Hall" in
  pose proof (items_total rest Hitems) as H; split_facts H.

Ltac entries_facts l Hl :=
  let H := fresh "Hall" in
  pose proof (entries_total l Hl) as H; split_facts H.

Ltac use_facts :=
  repeat match goal with
  | H : map_items _ _ = Ok _ |- _ => rewrite H
  | H : map_join _ _ = Ok _ |- _ => rewrite H
  | H : to_string _ = Ok _ |- _ => rewrite H
  | H : createSection _ = Ok _ |- _ => rewrite H
  end.

(** A text field of a section of a registered type. *)
Ltac section_slot :=
  let rest := fresh "rest" in let Hty := fresh "Hty" in
  let Hwf := fresh "Hwf" in let Hid := fresh "Hid" in
  let Hitems := fresh "Hitems" in let Hbody := fresh "Hbody" in
  let el := fresh "el" in let Hel := fresh "Hel" in
  let text := fresh "text" in let Htext := fresh "Htext" in
  intros rest Hty Hwf;
  unfold well_formed in Hwf;
  apply andb_true_iff in Hwf; destruct Hwf as [Hwf Hbody];
  apply andb_true_iff in Hwf; destruct Hwf as [Hid Hitems];
  destruct (createSection_ok rest _ Hty Hid) as [el Hel];
  destruct (body_text rest Hbody) as [text Htext];
  items_facts rest Hitems;
  apply (shows_of_around _ _ el); eexists; split;
  [ let c := fresh "c" in let v := fresh "v" in
    intros c v; unfold renderSection; crunch; rewrite ?Hty; crunch;
    autounfold with renderers;
    rewrite ?createSection_skip by reflexivity;
    crunch; use_facts; crunch; reflexivity
  | cbv beta; unfold shown_as; around_tac ].

(** A text field of one item of a section of a list-bearing type. *)
Ltac item_slot :=
  let rest := fresh "rest" in let Hty := fresh "Hty" in
  let Hid := fresh "Hid" in
  let before := fresh "before" in let after := fresh "after" in
  let item := fresh "item" in
  let Hb := fresh "Hb" in let Ha := fresh "Ha" in
  let el := fresh "el" in let Hel := fresh "Hel" in
  intros rest before after item Hty Hid Hb Ha;
  destruct (createSection_ok rest _ Hty Hid) as [el Hel];
  entries_facts before Hb; entries_facts after Ha;
  apply (shows_of_around _ _ el); eexists; split;
  [ let c := fresh "c" in let v := fresh "v" in
    intros c v; unfold renderSection; crunch; rewrite ?Hty; crunch;
    autounfold with renderers;
    rewrite ?createSection_skip by reflexivity;
    crunch; use_facts; unfold map_items; crunch;
    rewrite map_join_app; use_facts; crunch;
    rewrite map_join_cons; use_facts;
    autounfold with item_renderers; crunch; reflexivity
  | cbv beta; unfold shown_as; around_tac ].

Ltac not_read Hnin :=
  apply String.eqb_neq; intros ->; apply Hnin; cbn; tauto.

Ltac kill f Hnin :=
  repeat match goal with
  | |- context [String.eqb f ?name] =>
      replace (String.eqb f name) with false by (symmetry; not_read Hnin)
  end.

Section Fields.

Lemma section_fields_shown : forall t f d,
  In (t, f, d) section_text_fields ->
  forall rest,
    field rest "type" = VStr t -> well_formed rest = true ->
    shows (shown_as d)
      (fun v => renderSection (VObj ((f, VStr v) :: rest))).
Proof.
  intros t f d Hin. cbn in Hin.
  repeat (destruct Hin as [Hin | Hin];
          [inversion Hin; subst; clear Hin; section_slot|]).
  contradiction.
Qed.

Lemma item_fields_shown : forall t f,
  In (t, f) item_text_fields ->
  forall rest before after item,
    field rest "type" = VStr t -> id_ok rest = true ->
    entries_ok before = true -> entries_ok after = true ->
    shows (shown_as Escaped)
      (fun v => renderSection
         (VObj (("items",
                 VArr (before ++ VObj ((f, VStr v) :: item) :: after))
                :: rest))).
Proof.
  intros t f Hin. cbn in Hin.
  repeat (destruct Hin as [Hin | Hin];
          [inversion Hin; subst; clear Hin; item_slot|]).
  contradiction.
Qed.

Lemma fallback_body_shown : forall t rest,
  object_get renderers t = Absent ->
  field rest "type" = VStr t -> id_ok rest = true ->
  shows (shown_as Escaped)
    (fun v => renderSection (VObj (("body", VStr v) :: rest))).
Proof.
  intros t rest Habs Hty Hid.
  destruct (createSection_ok rest _ Hty Hid) as [el Hel].
  apply (shows_of_around _ _ el). eexists. split.
  - intros c v.
    rewrite (renderSection_absent_fallback _ t)
      by (try exact Habs; cbn [field String.eqb Ascii.eqb Bool.eqb];
          rewrite Hty; reflexivity).
    rewrite (fallback_markup _ el)
      by (rewrite createSection_skip by reflexivity; exact Hel).
    crunch. reflexivity.
  - cbv beta. unfold shown_as. around_tac.
Qed.

Lemma only_legal_body_verbatim : forall t f d,
  In (t, f, d) section_text_fields ->
  (d = Verbatim <-> t = "legal-document" /\ f = "body").
Proof.
  intros t f d Hin. cbn in Hin.
  repeat (destruct Hin as [Hin | Hin];
          [inversion Hin; subst; clear Hin;
           split; [intros H; try discriminate H; split; reflexivity
                  | intros [H1 H2]; try discriminate H1; try discriminate H2;
                    reflexivity]|]).
  contradiction.
Qed.

Lemma unread_section_field : forall t f x rest,
  In t (map fst renderers) ->
  field rest "type" = VStr t ->
  ~ In f (structural_fields ++ text_fields_of t)%list ->
  renderSection (VObj ((f, x) :: rest)) = renderSection (VObj rest).
Proof.
  intros t f x rest Ht Hty Hnin. cbn in Ht.
  repeat (destruct Ht as [<- | Ht];
    [ cbn in Hnin; unfold renderSection;
      crunch; kill f Hnin; rewrite Hty; crunch; autounfold with renderers;
      rewrite ?createSection_skip by not_read Hnin;
      crunch; kill f Hnin; reflexivity |]).
  contradiction.
Qed.

Lemma unread_item_field : forall t F f x item,
  In (t, F) item_renderers ->
  ~ In f (item_fields_of t) ->
  F (VObj ((f, x) :: item)) = F (VObj item).
Proof.
  intros t F f x item Hin Hnin. cbn in Hin.
  repeat (destruct Hin as [Hin | Hin];
    [ inversion Hin; subst; clear Hin; cbn in Hnin;
      autounfold with item_renderers;
      crunch; kill f Hnin; reflexivity |]).
  contradiction.
Qed.

End Fields.

(** C1: every text field a renderer puts into the markup goes through esc,
    which replaces the reserved characters (ampersand, less-than,
    greater-than, double quote) by their entities, so that its result has
    no less-than, greater-than or double quote left; the one exception is the
    body of a legal-document section, which is put in as it is.  This holds
    for the fields of each registered type, for the fields of the items of
    the list-bearing types, and for the body shown by the generic renderer;
    no other field of a section or of an item reaches the markup.  A field
    holding <script> therefore appears as &lt;script&gt;, and only the legal
    body shows it unchanged. *)
Theorem string_fields_escaped :
  (forall s, esc (VStr s) = escape_text s) /\
  (entity "&" = "&amp;" /\ entity "<" = "&lt;" /\
   entity ">" = "&gt;" /\ entity dquote = "&quot;") /\
  (forall s a,
     a = "<"%char \/ a = ">"%char \/ a = dquote ->
     contains (esc (VStr s)) (String a "") = false) /\
  (forall t f d,
     In (t, f, d) section_text_fields ->
     forall rest,
       field rest "type" = VStr t -> well_formed rest = true ->
       shows (shown_as d)
         (fun v => renderSection (VObj ((f, VStr v) :: rest)))) /\
  (forall t f,
     In (t, f) item_text_fields ->
     forall rest before after item,
       field rest "type" = VStr t -> id_ok rest = true ->
       entries_ok before = true -> entries_ok after = true ->
       shows (shown_as Escaped)
         (fun v => renderSection
            (VObj (("items",
                    VArr (before ++ VObj ((f, VStr v) :: item) :: after))
                   :: rest)))) /\
  (forall t rest,
     object_get renderers t = Absent ->
     field rest "type" = VStr t -> id_ok rest = true ->
     shows (shown_as Escaped)
       (fun v => renderSection (VObj (("body", VStr v) :: rest)))) /\
  (forall t f d,
     In (t, f, d) section_text_fields ->
     (d = Verbatim <-> t = "legal-document" /\ f = "body")) /\
  (forall t f x rest,
     In t (map fst renderers) ->
     field rest "type" = VStr t ->
     ~ In f (structural_fields ++ text_fields_of t)%list ->
     renderSection (VObj ((f, x) :: rest)) = renderSection (VObj rest)) /\
  (forall t F f x item,
     In (t, F) item_renderers ->
     ~ In f (item_fields_of t) ->
     F (VObj ((f, x) :: item)) = F (VObj item)) /\
  (shown_as Escaped "<script>" = "&lt;script&gt;" /\
   shown_as EscapedBreaks "<script>" = "&lt;script&gt;" /\
   shown_as Verbatim "<script>" = "<script>") /\
  Forall (fun t =>
            contains (probe_markup t "<script>") "&lt;script&gt;" = true /\
            contains (probe_markup t "<script>") "<script>" =
              String.eqb t "legal-document")
         (map fst renderers) /\
  contains (probe_markup "legal-document" "<script>")
    (lit "<div class='legal-body'><script></div>") = true /\
  probe_markup "banner" "<script>" = lit "<div class='section-inner'></div>" /\
  markup_of (VObj [("type", VStr "banner"); ("body", VStr "<script>")]) =
    lit "<div class='section-inner'><p>&lt;script&gt;</p></div>".
Proof.
  split; [exact esc_one_pass|].
  split; [repeat split; reflexivity|].
  split; [intros s a Ha; rewrite esc_one_pass; now apply escape_text_clean|].
  split; [exact section_fields_shown|].
  split; [exact item_fields_shown|].
  split; [exact fallback_body_shown|].
  split; [exact only_legal_body_verbatim|].
  split; [exact unread_section_field|].
  split; [exact unread_item_field|].
  split; [repeat split; reflexivity|].
  split; [|repeat split; vm_compute; reflexivity].
  cbn [map fst renderers].
  repeat (constructor; [split; vm_compute; reflexivity|]).
  constructor.
Qed.

Lemma string_fields_escaped_witness :
  shows (shown_as Escaped)
    (fun v => renderSection
       (VObj [("heading", VStr v); ("type", VStr "hero")])) /\
  shows (shown_as Verbatim)
    (fun v => renderSection
       (VObj [("body", VStr v); ("type", VStr "legal-document")])) /\
  shows (shown_as Escaped)
    (fun v => renderSection
       (VObj [("items", VArr [VObj [("label", VStr v)]]);
              ("type", VStr "summary")])) /\
  shows (shown_as Escaped)
    (fun v => renderSection
       (VObj [("body", VStr v); ("type", VStr "banner")])).
Proof.
  destruct string_fields_escaped
    as [_ [_ [_ [Hsection [Hitem [Hfallback _]]]]]].
  split; [|split; [|split]].
  - apply (Hsection "hero" "heading" Escaped).
    + cbn. left. reflexivity.
    + reflexivity.
    + reflexivity.
  - apply (Hsection "legal-document" "body" Verbatim).
    + cbn. do 18 right. left. reflexivity.
    + reflexivity.
    + reflexivity.
  - apply (Hitem "summary" "label" (or_introl eq_refl)
             [("type", VStr "summary")] [] [] []); reflexivity.
  - apply (Hfallback "banner"); reflexivity.
Defined.

(* ------------------------------------------------------------------ *)
(** ** Link destinations *)

Section Links.

Lemma section_links_shown : forall t f,
  In (t, f) section_link_fields ->
  forall rest,
    field rest "type" = VStr t -> well_formed rest = true ->
    shows href_attribute
      (fun v => renderSection (VObj ((f, VStr v) :: rest))).
Proof.
  intros t f Hin. cbn in Hin.
  repeat (destruct Hin as [Hin | Hin];
          [inversion Hin; subst; clear Hin; section_slot|]).
  contradiction.
Qed.

Lemma item_links_shown : forall t f,
  In (t, f) item_link_fields ->
  forall rest before after item,
    field rest "type" = VStr t -> id_ok rest = true ->
    entries_ok before = true -> entries_ok after = true ->
    shows href_attribute
      (fun v => renderSection
         (VObj (("items",
                 VArr (before ++ VObj ((f, VStr v) :: item) :: after))
                :: rest))).
Proof.
  intros t f Hin. cbn in Hin.
  repeat (destruct Hin as [Hin | Hin];
          [inversion Hin; subst; clear Hin; item_slot|]).
  contradiction.
Qed.

End Links.

(** C2 (as the code has it): the destination of every rendered link (the
    url of a link or back-link section, the href of a contact-block item,
    the url of a legal-nav item) is passed through esc before it is put
    between the quotes of the href attribute, like every other text
    field. *)
Theorem link_destinations_escaped :
  (forall t f,
     In (t, f) section_link_fields ->
     forall rest,
       field rest "type" = VStr t -> well_formed rest = true ->
       shows href_attribute
         (fun v => renderSection (VObj ((f, VStr v) :: rest)))) /\
  (forall t f,
     In (t, f) item_link_fields ->
     forall rest before after item,
       field rest "type" = VStr t -> id_ok rest = true ->
       entries_ok before = true -> entries_ok after = true ->
       shows href_attribute
         (fun v => renderSection
            (VObj (("items",
                    VArr (before ++ VObj ((f, VStr v) :: item) :: after))
                   :: rest)))).
Proof.
  split; [exact section_links_shown | exact item_links_shown].
Qed.

Lemma link_destinations_escaped_witness :
  shows href_attribute
    (fun v => renderSection (VObj [("url", VStr v); ("type", VStr "link")])) /\
  shows href_attribute
    (fun v => renderSection
       (VObj [("items", VArr [VObj [("href", VStr v); ("value", VStr "Search")]]);
              ("type", VStr "contact-block")])).
Proof.
  destruct link_destinations_escaped as [Hsection Hitem].
  split.
  - apply (Hsection "link" "url" (or_introl eq_refl)); reflexivity.
  - apply (Hitem "contact-block" "href" (or_introl eq_refl)
             [("type", VStr "contact-block")] [] [] [("value", VStr "Search")]);
      reflexivity.
Defined.

(** C2 (as stated) fails: a destination with an ampersand does not stand in
    the markup as it is, for any of the four kinds of link: the ampersand is
    replaced by its entity. *)
Lemma link_destinations_not_verbatim :
  Forall (fun section =>
            contains (markup_of section)
                     (lit "href='/search?q=a&lang=en'") = false /\
            contains (markup_of section)
                     (lit "href='/search?q=a&amp;lang=en'") = true)
         [Sample.link_section; Sample.back_link_section;
          Sample.contact_section; Sample.legal_nav_section].
Proof.
  repeat (constructor; [split; vm_compute; reflexivity|]).
  constructor.
Qed.

(* ------------------------------------------------------------------ *)
(** ** Missing fields *)

Lemma field_absent : forall fs name,
  lookup fs name = None -> field fs name = VUndef.
Proof.
  induction fs as [|[k v] r IH]; intros name H; cbn in *; [reflexivity|].
  destruct (String.eqb k name); [discriminate | now apply IH].
Qed.

(** C10: esc answers the empty string for every argument that is not a
    string (undefined, null, booleans, numbers, dates, sequences, mappings);
    hence an item that lacks a field read without a guard (label, value,
    term, definition, heading, description, name, method, url) is rendered,
    without raising, exactly as if the field were the empty string: the slot
    is empty and the text undefined does not appear. *)
Theorem esc_missing_field_empty :
  (forall v, is_string v = false -> esc v = "") /\
  Forall (fun rf =>
            forall fields,
              lookup fields (snd rf) = None ->
              (exists html, fst rf (VObj fields) = Ok html) /\
              fst rf (VObj fields) =
                fst rf (VObj ((snd rf, VStr "") :: fields)))
         required_item_fields /\
  Renderers.summary_item (VObj [("value", VStr "v")]) =
    Ok (lit "<div class='summary-item'><dt class='summary-term'></dt><dd class='summary-value'>v</dd></div>") /\
  (forall html,
     Renderers.summary_item (VObj [("value", VStr "v")]) = Ok html ->
     contains html "undefined" = false).
Proof.
  split; [intros [] H; reflexivity || discriminate|].
  split.
  - unfold required_item_fields.
    repeat (constructor;
            [intros fields H; cbn [fst snd] in *;
             autounfold with item_renderers; crunch;
             rewrite ?(field_absent _ _ H);
             change (esc VUndef) with EmptyString;
             change (esc (VStr EmptyString)) with EmptyString;
             split; [eexists; reflexivity | reflexivity]|]).
    constructor.
  - split; [reflexivity|].
    intros html H. inversion H. reflexivity.
Qed.

Lemma esc_missing_field_empty_witness :
  esc (VNum Sample.this_year) = "" /\
  Renderers.summary_item (VObj [("value", VStr "v")]) =
    Renderers.summary_item (VObj [("label", VStr ""); ("value", VStr "v")]).
Proof.
  split.
  - apply (proj1 esc_missing_field_empty). reflexivity.
  - pose proof (proj1 (proj2 esc_missing_field_empty)) as H.
    apply Forall_inv in H.
    apply (H [("value", VStr "v")]). reflexivity.
Defined.


(* ------------------------------------------------------------------ *)
(** ** Rendering a section of a registered type: success and failure *)


(** Induction on loaded values, through sequences and mappings. *)
Section ValueInduction.

Variable P : value -> Prop.
Hypothesis Hundef : P VUndef.
Hypothesis Hnull : P VNull.
Hypothesis Hbool : forall b, P (VBool b).
Hypothesis Hnum : forall n, P (VNum n).
Hypothesis Hstr : forall s, P (VStr s).
Hypothesis Hdate : forall t, P (VDate t).
Hypothesis Harr : forall l, Forall P l -> P (VArr l).
Hypothesis Hobj : forall fs, Forall (fun kv => P (snd kv)) fs -> P (VObj fs).

Fixpoint value_induction (v : value) : P v :=
  match v with
  | VUndef => Hundef
  | VNull => Hnull
  | VBool b => Hbool b
  | VNum n => Hnum n
  | VStr s => Hstr s
  | VDate t => Hdate t
  | VArr l =>
      Harr l ((fix go (l : list value) : Forall P l :=
                 match l with
                 | [] => Forall_nil P
                 | x :: r => Forall_cons x (value_induction x) (go r)
                 end) l)
  | VObj fs =>
      Hobj fs ((fix go (fs : list (string * value))
                  : Forall (fun kv => P (snd kv)) fs :=
                  match fs with
                  | [] => Forall_nil _
                  | kv :: r =>
                      Forall_cons kv (value_induction (snd kv)) (go r)
                  end) fs)
  end.

End ValueInduction.

Section Renderable.

Lemma to_string_error : forall v e, to_string v = Throw e -> e = TypeError.
Proof.
  induction v as [| | [] | n | s | t | l IHl | fs _] using value_induction;
    intros e; cbn [to_string]; try discriminate.
  - induction IHl as [|x r Hx _ IHr]; [discriminate|].
    intros H.
    destruct (match x with VUndef | VNull => Ok "" | _ => to_string x end)
      as [a|e'] eqn:Ex; cbn [bind] in H.
    + destruct r as [|y r']; [discriminate|].
      match type of H with
      | context [bind ?m _] => destruct m as [b|e''] eqn:Er
      end; cbn [bind] in H; [discriminate|].
      inversion H; subst. now apply IHr.
    + inversion H; subst.
      destruct x; try discriminate Ex; exact (Hx _ Ex).
  - destruct (lookup fs "toString"); intros H; inversion H; reflexivity.
Qed.

Lemma not_convertible : forall v,
  convertible v = false -> to_string v = Throw TypeError.
Proof.
  intros v H. unfold convertible in H.
  destruct (to_string v) as [s|e] eqn:E; [discriminate|].
  now rewrite (to_string_error v e E).
Qed.

Lemma createSection_spec : forall fields t,
  field fields "type" = VStr t -> t <> "" -> id_ok fields = true ->
  createSection (VObj fields) =
    Ok {| className := "section section--" ++ t;
          el_id := id_text fields; innerHTML := "" |}.
Proof.
  intros fields t Ht Hne Hid. unfold createSection, id_ok, id_text, convertible in *.
  cbn [get bind]. rewrite Ht.
  destruct t as [|c t']; [contradiction|]. cbn [or_else truthy String.eqb negb to_string bind].
  destruct (truthy (field fields "id")); [|reflexivity].
  destruct (to_string (field fields "id")); [reflexivity | discriminate].
Qed.

Lemma createSection_fail : forall fields t,
  field fields "type" = VStr t -> id_ok fields = false ->
  createSection (VObj fields) = Throw TypeError.
Proof.
  intros fields t Ht Hid. unfold createSection, id_ok in *.
  cbn [get bind]. rewrite Ht.
  assert (Hs : exists suffix,
             to_string (or_else (VStr t) (VStr "text")) = Ok suffix).
  { unfold or_else. destruct (truthy (VStr t)); eexists; reflexivity. }
  destruct Hs as [suffix ->]. cbn [bind].
  destruct (truthy (field fields "id")); [|discriminate].
  now rewrite (not_convertible _ Hid).
Qed.

Lemma map_join_fail : forall f : value -> result string,
  (forall x, nullish x = false -> exists h, f x = Ok h) ->
  (forall x, nullish x = true -> f x = Throw TypeError) ->
  forall l, entries_ok l = false -> map_join f l = Throw TypeError.
Proof.
  intros f Hok Hbad. induction l as [|x l IH]; intros Hl; cbn in *.
  - discriminate.
  - destruct (nullish x) eqn:Ex; cbn in Hl.
    + now rewrite (Hbad x Ex).
    + destruct (Hok x Ex) as [a ->]. cbn [bind]. now rewrite (IH Hl).
Qed.

Lemma map_items_fail : forall f rest,
  (forall x, nullish x = false -> exists h, f x = Ok h) ->
  (forall x, nullish x = true -> f x = Throw TypeError) ->
  items_ok rest = false ->
  map_items f (field rest "items") = Throw TypeError.
Proof.
  intros f rest Hok Hbad H. unfold items_ok, map_items in *.
  destruct (or_else (field rest "items") (VArr [])); try reflexivity.
  now apply map_join_fail.
Qed.

End Renderable.

Ltac entry_fails :=
  let x := fresh "x" in let Hx := fresh "Hx" in
  intros x Hx; destruct x; try discriminate; reflexivity.

Lemma items_fail : forall rest,
  items_ok rest = false ->
  Forall (fun f => map_items f (field rest "items") = Throw TypeError)
    (map snd item_renderers).
Proof.
  intros rest H. cbn [map snd item_renderers].
  repeat (constructor;
          [apply map_items_fail; [entry_total | entry_fails | exact H]|]).
  constructor.
Qed.

Ltac fail_facts rest Hitems :=
  let H := fresh "Hall" in
  pose proof (items_fail rest Hitems) as H;
  cbn [map snd item_renderers] in H;
  repeat (let Hh := fresh "Hh" in let H' := fresh "Hall" in
          inversion H as [|? ? Hh H']; subst; clear H; rename H' into H);
  clear H.

Ltac use_outcomes :=
  repeat match goal with
  | H : map_items _ _ = _ |- _ => rewrite H
  | H : to_string _ = _ |- _ => rewrite H
  | H : createSection _ = _ |- _ => rewrite H
  end.

Ltac run_renderer Hty :=
  unfold renderSection; crunch; rewrite ?Hty; crunch;
  autounfold with renderers; crunch; use_outcomes; crunch.

(** X1: a section of a registered type whose id converts to text, whose
    items (for a list-bearing type) are absent or a sequence without null
    entries, and whose body (for a legal document) converts to text, is
    rendered without raising, as an element of class "section section--"
    followed by the type, with the section's id as identifier. *)
Theorem registered_type_renders (t : string) (fields : list (string * value))
  (Hreg : In t (map fst renderers))
  (Hty : field fields "type" = VStr t)
  (Hok : renderable t fields = true) :
  exists html,
    renderSection (VObj fields) =
      Ok (Node {| className := "section section--" ++ t;
                  el_id := id_text fields;
                  innerHTML := html |}).
Proof.
  cbn in Hreg. unfold renderable in Hok.
  repeat (destruct Hreg as [<- | Hreg];
    [ cbn [existsb list_types item_renderers map fst String.eqb Ascii.eqb
             Bool.eqb orb] in Hok;
      repeat (apply andb_true_iff in Hok; destruct Hok as [Hok ?]);
      pose proof (createSection_spec fields _ Hty
                    ltac:(discriminate) ltac:(assumption)) as Hel;
      try match goal with
          | Hi : items_ok fields = true |- _ => items_facts fields Hi
          end;
      try match goal with
          | Hb : body_ok fields = true |- _ =>
              let text := fresh "text" in let Htext := fresh "Htext" in
              destruct (body_text fields Hb) as [text Htext]
          end;
      run_renderer Hty; eexists; reflexivity |]).
  contradiction.
Qed.

Lemma registered_type_renders_witness :
  exists html,
    renderSection (VObj [("type", VStr "summary"); ("id", VStr "facts");
                         ("items", VArr [VObj [("label", VStr "Founded")]])]) =
      Ok (Node {| className := "section section--summary";
                  el_id := "facts"; innerHTML := html |}).
Proof.
  apply (registered_type_renders "summary").
  - cbn. right. right. left. reflexivity.
  - reflexivity.
  - reflexivity.
Defined.

(** X2: a section of a registered type that lacks one of these conditions
    (an id that does not convert to text, items that are a truthy
    non-sequence or hold a null entry, a legal body that does not convert)
    makes renderSection raise a TypeError. *)
Theorem registered_type_raises (t : string) (fields : list (string * value))
  (Hreg : In t (map fst renderers))
  (Hty : field fields "type" = VStr t)
  (Hbad : renderable t fields = false) :
  renderSection (VObj fields) = Throw TypeError.
Proof.
  cbn in Hreg. unfold renderable in Hbad.
  repeat (destruct Hreg as [<- | Hreg];
    [ cbn [existsb list_types item_renderers map fst String.eqb Ascii.eqb
             Bool.eqb orb] in Hbad;
      (destruct (id_ok fields) eqn:Hid;
        [ pose proof (createSection_spec fields _ Hty
                        ltac:(discriminate) Hid) as Hel
        | pose proof (createSection_fail fields _ Hty Hid) as Hel ]);
      (destruct (items_ok fields) eqn:Hitems;
        [ items_facts fields Hitems | fail_facts fields Hitems ]);
      (destruct (body_ok fields) eqn:Hbody;
        [ let text := fresh "text" in let Htext := fresh "Htext" in
          destruct (body_text fields Hbody) as [text Htext]
        | pose proof (not_convertible _ Hbody) as Htext ]);
      cbn [andb] in Hbad; try discriminate Hbad;
      run_renderer Hty; reflexivity |]).
  contradiction.
Qed.

Lemma registered_type_raises_witness :
  renderSection (VObj [("type", VStr "persons"); ("items", VStr "none")]) =
    Throw TypeError /\
  renderSection (VObj [("type", VStr "persons");
                       ("items", VArr [VObj []; VNull])]) =
    Throw TypeError.
Proof.
  split.
  - apply (registered_type_raises "persons").
    + cbn. do 7 right. left. reflexivity.
    + reflexivity.
    + reflexivity.
  - apply (registered_type_raises "persons").
    + cbn. do 7 right. left. reflexivity.
    + reflexivity.
    + reflexivity.
Defined.

(* ------------------------------------------------------------------ *)
(** ** Items: absent, empty, in order *)

Section Items.

Lemma wraps_here : wraps (fun h => h).
Proof. exists "", "". intros h. cbn [append]. now rewrite append_nil_r. Qed.

Lemma wraps_left : forall a F, wraps F -> wraps (fun h => a ++ F h).
Proof.
  intros a F [pre [post H]]. exists (a ++ pre), post. intros h.
  now rewrite H, append_assoc.
Qed.

Lemma wraps_right : forall F b, wraps F -> wraps (fun h => F h ++ b).
Proof.
  intros F b [pre [post H]]. exists pre, (post ++ b). intros h.
  now rewrite H, !append_assoc.
Qed.

Lemma map_join_entries : forall f l htmls,
  render_entries f l = Ok htmls ->
  map_join f l = Ok (String.concat "" htmls).
Proof.
  intros f. induction l as [|x l IH]; intros htmls H; cbn in *.
  - inversion H. reflexivity.
  - destruct (f x) as [a|e]; cbn [bind] in *; [|discriminate].
    destruct (render_entries f l) as [rest|e]; cbn [bind] in *; [|discriminate].
    inversion H; subst. rewrite (IH rest eq_refl). cbn [bind].
    destruct rest as [|b rest']; cbn; [now rewrite append_nil_r | reflexivity].
Qed.

End Items.

Ltac wraps_tac :=
  solve [ repeat match goal with
  | |- wraps (fun h => ?a ++ @?F h) => apply (wraps_left a F)
  | |- wraps (fun h => @?F h ++ ?b) => apply (wraps_right F b)
  | |- wraps _ => apply wraps_here
  end ].

(** X3: for every list-bearing type, a section whose items field is
    missing or falsy (null, false, 0, the empty string) is rendered exactly
    as the same section with an empty sequence of items. *)
Theorem falsy_items_as_empty (t : string) (rest : list (string * value))
  (Hlist : In t list_types)
  (Hty : field rest "type" = VStr t)
  (Hfalsy : truthy (field rest "items") = false) :
  renderSection (VObj rest) =
    renderSection (VObj (("items", VArr []) :: rest)).
Proof.
  cbn in Hlist.
  repeat (destruct Hlist as [<- | Hlist];
    [ unfold renderSection; crunch; rewrite Hty; crunch;
      autounfold with renderers;
      rewrite ?createSection_skip by reflexivity; crunch;
      unfold map_items, or_else; rewrite Hfalsy; reflexivity |]).
  contradiction.
Qed.

Lemma falsy_items_as_empty_witness :
  renderSection (VObj [("type", VStr "legal-nav"); ("items", VNull)]) =
    renderSection (VObj [("items", VArr []); ("type", VStr "legal-nav");
                         ("items", VNull)]).
Proof.
  apply (falsy_items_as_empty "legal-nav").
  - cbn. do 5 right. left. reflexivity.
  - reflexivity.
  - reflexivity.
Defined.

(** X4: for every list-bearing type, the markup of the section is a fixed
    opening, then the markup of the items one after the other in the order
    of the sequence, each item rendered on its own by the callback of the
    type, then a fixed closing. *)
Theorem items_rendered_in_order (t : string) (F : value -> result string)
  (rest : list (string * value))
  (Hin : In (t, F) item_renderers)
  (Hty : field rest "type" = VStr t)
  (Hid : id_ok rest = true) :
  exists cls i pre post,
    forall l htmls,
      render_entries F l = Ok htmls ->
      renderSection (VObj (("items", VArr l) :: rest)) =
        Ok (Node {| className := cls; el_id := i;
                    innerHTML := pre ++ String.concat "" htmls ++ post |}).
Proof.
  destruct (createSection_ok rest _ Hty Hid) as [el Hel].
  exists (className el), (el_id el).
  assert (H : exists G,
             wraps G /\
             forall l h,
               map_join F l = Ok h ->
               renderSection (VObj (("items", VArr l) :: rest)) =
                 Ok (Node (set_innerHTML el (G h)))).
  { cbn in Hin.
    repeat (destruct Hin as [Hin | Hin];
      [ inversion Hin; subst; clear Hin;
        eexists; split;
        [ | intros l h Hl;
            unfold renderSection; crunch; rewrite Hty; crunch;
            autounfold with renderers;
            rewrite ?createSection_skip by reflexivity; crunch;
            rewrite Hel; unfold map_items; crunch;
            rewrite Hl; crunch; reflexivity ];
        cbv beta; wraps_tac |]).
    contradiction. }
  destruct H as [G [[pre [post HG]] HR]].
  exists pre, post. intros l htmls Hl.
  rewrite (HR l _ (map_join_entries _ _ _ Hl)), HG. reflexivity.
Qed.

Lemma items_rendered_in_order_witness :
  exists cls i pre post,
    forall l htmls,
      render_entries Renderers.summary_item l = Ok htmls ->
      renderSection (VObj [("items", VArr l); ("type", VStr "summary")]) =
        Ok (Node {| className := cls; el_id := i;
                    innerHTML := pre ++ String.concat "" htmls ++ post |}).
Proof.
  exact (items_rendered_in_order "summary" Renderers.summary_item
           [("type", VStr "summary")] (or_introl eq_refl) eq_refl eq_refl).
Defined.

(* ------------------------------------------------------------------ *)
(** ** Values that are not strings, and defaults *)

Lemma esc_not_string : forall v, is_string v = false -> esc v = "".
Proof. intros [] H; reflexivity || discriminate. Qed.

Ltac same_truthiness x y Hx Hy Hxy :=
  unfold or_else; rewrite <- ?Hxy;
  destruct (truthy x);
  rewrite ?(esc_not_string x Hx), ?(esc_not_string y Hy); reflexivity.

(** X5: a value that is not a string (a number, a boolean, a date, a
    sequence, a mapping, null) never contributes text to the markup of an
    escaped field: the rendering depends on it only through its truthiness.
    This holds for every text field of a section other than the legal body,
    and for every text field of an item. *)
Theorem non_string_shows_no_text :
  (forall t f d x y rest,
     In (t, f, d) section_text_fields -> d <> Verbatim ->
     field rest "type" = VStr t ->
     is_string x = false -> is_string y = false ->
     truthy x = truthy y ->
     renderSection (VObj ((f, x) :: rest)) =
       renderSection (VObj ((f, y) :: rest))) /\
  (forall t F f x y item,
     In (t, F) item_renderers -> In f (item_fields_of t) ->
     is_string x = false -> is_string y = false ->
     truthy x = truthy y ->
     F (VObj ((f, x) :: item)) = F (VObj ((f, y) :: item))).
Proof.
  split.
  - intros t f d x y rest Hin Hd Hty Hx Hy Hxy. cbn in Hin.
    repeat (destruct Hin as [Hin | Hin];
      [ inversion Hin; subst; clear Hin; try (now elim Hd);
        unfold renderSection; crunch; rewrite Hty; crunch;
        autounfold with renderers;
        rewrite ?createSection_skip by reflexivity; crunch;
        same_truthiness x y Hx Hy Hxy |]).
    contradiction.
  - intros t F f x y item Hin Hf Hx Hy Hxy. cbn in Hin.
    repeat (destruct Hin as [Hin | Hin];
      [ inversion Hin; subst; clear Hin; cbn in Hf;
        repeat (destruct Hf as [<- | Hf];
          [ autounfold with item_renderers; crunch;
            same_truthiness x y Hx Hy Hxy |]);
        contradiction |]).
    contradiction.
Qed.

Lemma non_string_shows_no_text_witness :
  renderSection (VObj [("last_updated", VDate "Mon Jan 15 2024");
                       ("type", VStr "legal-document")]) =
    renderSection (VObj [("last_updated", VBool true);
                         ("type", VStr "legal-document")]) /\
  Renderers.person_item (VObj [("name", VNum Sample.this_year)]) =
    Renderers.person_item (VObj [("name", VArr [])]).
Proof.
  destruct non_string_shows_no_text as [Hsection Hitem].
  split.
  - apply (Hsection "legal-document" "last_updated" Escaped);
      try reflexivity; try discriminate.
    cbn. do 17 right. left. reflexivity.
  - apply (Hitem "persons" Renderers.person_item "name");
      try reflexivity.
    + cbn. do 3 right. left. reflexivity.
    + cbn. left. reflexivity.
Defined.

(** X6: the defaults of the two link renderers.  A link section whose url
    is missing or falsy is rendered as with the url "#", and one whose
    label is missing or falsy as with the label "Visit Official Website";
    a back-link section defaults to the url "/legal/" and the label
    "Back". *)
Theorem link_defaults (x : value) (rest : list (string * value))
  (Hfalsy : truthy x = false) :
  (field rest "type" = VStr "link" ->
   renderSection (VObj (("url", x) :: rest)) =
     renderSection (VObj (("url", VStr "#") :: rest)) /\
   renderSection (VObj (("label", x) :: rest)) =
     renderSection (VObj (("label", VStr "Visit Official Website") :: rest))) /\
  (field rest "type" = VStr "back-link" ->
   renderSection (VObj (("url", x) :: rest)) =
     renderSection (VObj (("url", VStr "/legal/") :: rest)) /\
   renderSection (VObj (("label", x) :: rest)) =
     renderSection (VObj (("label", VStr "Back") :: rest))).
Proof.
  split; intros Hty; split;
    unfold renderSection; crunch; rewrite Hty; crunch;
    autounfold with renderers;
    rewrite ?createSection_skip by reflexivity; crunch;
    unfold or_else; rewrite Hfalsy; reflexivity.
Qed.

Lemma link_defaults_witness :
  renderSection (VObj [("url", VNull); ("type", VStr "back-link")]) =
    renderSection (VObj [("url", VStr "/legal/"); ("type", VStr "back-link")]).
Proof.
  apply (link_defaults VNull [("type", VStr "back-link")] eq_refl).
  reflexivity.
Defined.

(* ------------------------------------------------------------------ *)
(** ** The generic renderer and the fragment *)

(** X7: a section whose type, converted to a key, is neither a key of the
    registry nor a member the registry inherits is rendered by the generic
    renderer, provided its id converts to text: the element has the class
    "section section--" followed by the type ("text" when the type is
    missing or falsy) and holds the escaped body in a paragraph, or an empty
    container when the body is missing or falsy. *)
Theorem unknown_type_uses_fallback (fields : list (string * value))
  (key : string)
  (Hkey : to_string (field fields "type") = Ok key)
  (Habsent : object_get renderers key = Absent)
  (Hid : id_ok fields = true) :
  renderSection (VObj fields) =
    Ok (Node {| className :=
                  "section section--" ++
                  (if truthy (field fields "type") then key else "text");
                el_id := id_text fields;
                innerHTML :=
                  lit "<div class='section-inner'>" ++
                  (if truthy (field fields "body")
                   then "<p>" ++ esc (field fields "body") ++ "</p>"
                   else "") ++ "</div>" |}).
Proof.
  rewrite (renderSection_absent_fallback fields key Hkey Habsent).
  assert (Hel : createSection (VObj fields) =
                Ok {| className :=
                        "section section--" ++
                        (if truthy (field fields "type") then key else "text");
                      el_id := id_text fields; innerHTML := "" |}).
  { unfold createSection, id_ok, id_text, convertible, or_else in *.
    cbn [get bind].
    destruct (truthy (field fields "type")); [rewrite Hkey|]; cbn [to_string bind];
      (destruct (truthy (field fields "id")); [|reflexivity]);
      (destruct (to_string (field fields "id")); [reflexivity | discriminate]). }
  rewrite (fallback_markup fields _ Hel). reflexivity.
Qed.

Lemma unknown_type_uses_fallback_witness :
  renderSection (VObj [("body", VStr "a < b")]) =
    Ok (Node {| className := "section section--text";
                el_id := "";
                innerHTML :=
                  lit "<div class='section-inner'>" ++
                  "<p>" ++ "a &lt; b" ++ "</p>" ++ "</div>" |}).
Proof.
  exact (unknown_type_uses_fallback [("body", VStr "a < b")] "undefined"
           eq_refl eq_refl eq_refl).
Defined.

Section Fragment.

Lemma render_all_sound : forall l els,
  render_all l = Ok els ->
  Forall2 (fun s el => renderSection s = Ok (Node el)) l els.
Proof.
  induction l as [|s l IH]; intros els H; cbn in H.
  - inversion H. constructor.
  - destruct (renderSection s) as [[el|]|e] eqn:Es; cbn [bind] in H;
      try discriminate.
    destruct (render_all l) as [rest|e] eqn:El; cbn [bind] in H;
      [|discriminate].
    inversion H; subst. constructor; [exact Es | now apply IH].
Qed.

Lemma render_all_complete : forall l els,
  Forall2 (fun s el => renderSection s = Ok (Node el)) l els ->
  render_all l = Ok els.
Proof.
  induction 1 as [|s el l els Hs _ IH]; cbn; [reflexivity|].
  rewrite Hs. cbn [bind]. rewrite IH. reflexivity.
Qed.

End Fragment.

(** X8: the fragment is all or nothing and keeps the order of the document.
    Rendering the sections of a document succeeds exactly when every section
    renders to an element, and then the fragment holds these elements, one
    per section, in the order of the sections; a missing or falsy sections
    field gives the empty fragment, and a truthy one that is no sequence
    raises a TypeError. *)
Theorem fragment_all_or_nothing :
  (forall l els,
     render_fragment (VArr l) = Ok els <->
     Forall2 (fun s el => renderSection s = Ok (Node el)) l els) /\
  (forall l before s after,
     l = (before ++ s :: after)%list ->
     (forall el, renderSection s <> Ok (Node el)) ->
     exists e, render_fragment (VArr l) = Throw e) /\
  (forall v, truthy v = false -> render_fragment v = Ok []) /\
  (forall v, truthy v = true -> (forall l, v <> VArr l) ->
             render_fragment v = Throw TypeError).
Proof.
  split; [|split; [|split]].
  - intros l els. unfold render_fragment. cbn [or_else truthy].
    split; [apply render_all_sound | apply render_all_complete].
  - intros l before s after -> Hs. unfold render_fragment. cbn [or_else truthy].
    destruct (render_all (before ++ s :: after)%list) as [els|e] eqn:E;
      [|eexists; reflexivity].
    apply render_all_sound in E.
    apply Forall2_app_inv_l in E.
    destruct E as [els1 [els2 [_ [E _]]]].
    inversion E as [|? el ? ? Hel _]; subst. elim (Hs el Hel).
  - intros v Hv. unfold render_fragment, or_else. rewrite Hv. reflexivity.
  - intros v Hv Hnot. unfold render_fragment, or_else. rewrite Hv.
    destruct v; try reflexivity. elim (Hnot items eq_refl).
Qed.

Lemma fragment_all_or_nothing_witness :
  exists e,
    render_fragment
      (VArr [VObj [("type", VStr "statement"); ("body", VStr "fine")];
             VObj [("type", VStr "summary"); ("items", VStr "oops")];
             VObj [("type", VStr "hero")]]) = Throw e.
Proof.
  apply (proj1 (proj2 fragment_all_or_nothing) _
           [VObj [("type", VStr "statement"); ("body", VStr "fine")]]
           (VObj [("type", VStr "summary"); ("items", VStr "oops")])
           [VObj [("type", VStr "hero")]] eq_refl).
  intros el H. discriminate H.
Defined.

(* ------------------------------------------------------------------ *)
(** ** More on escaping and on normalised paths *)

Section EscapeAlgebra.

Lemma escape_text_app : forall a b,
  escape_text (a ++ b) = escape_text a ++ escape_text b.
Proof.
  induction a as [|x a IH]; intros b; cbn [append escape_text];
    [reflexivity|].
  now rewrite IH, append_assoc.
Qed.

Lemma escape_text_plain : forall s, plain_text s = true -> escape_text s = s.
Proof.
  induction s as [|a r IH]; intros H; cbn [plain_text escape_text] in *;
    [reflexivity|].
  apply andb_true_iff in H. destruct H as [Ha Hr].
  apply negb_true_iff in Ha. unfold entity.
  apply orb_false_iff in Ha. destruct Ha as [Ha H4].
  apply orb_false_iff in Ha. destruct Ha as [Ha H3].
  apply orb_false_iff in Ha. destruct Ha as [H1 H2].
  rewrite H1, H2, H3, H4. cbn [append]. now rewrite IH.
Qed.

Lemma entity_length : forall a, 1 <= String.length (entity a).
Proof.
  intros a. unfold entity.
  repeat match goal with
         | |- context [if ?b then _ else _] => destruct b
         end; cbn; lia.
Qed.

Lemma append_length : forall a b : string,
  String.length (a ++ b) = String.length a + String.length b.
Proof.
  induction a as [|x a IH]; intros b; cbn; [reflexivity | now rewrite IH].
Qed.

Lemma escape_text_length : forall s,
  String.length s <= String.length (escape_text s).
Proof.
  induction s as [|a r IH]; cbn [escape_text String.length]; [lia|].
  rewrite append_length. pose proof (entity_length a). lia.
Qed.

(** What an entity looks like, by kind of character. *)
Lemma entity_shape : forall a,
  (exists r, entity a = String "&" r /\ r <> "") \/
  (entity a = String a "" /\ a <> "&"%char).
Proof.
  intros a. unfold entity.
  destruct (Ascii.eqb_spec a "&"); [left; eexists; split; [reflexivity | discriminate]|].
  destruct (Ascii.eqb a "<"); [left; eexists; split; [reflexivity | discriminate]|].
  destruct (Ascii.eqb a ">"); [left; eexists; split; [reflexivity | discriminate]|].
  destruct (Ascii.eqb a dquote); [left; eexists; split; [reflexivity | discriminate]|].
  right. split; [reflexivity | assumption].
Qed.

Lemma append_cancel : forall p a b : string, p ++ a = p ++ b -> a = b.
Proof.
  induction p as [|x p IH]; intros a b H; cbn in H; [exact H|].
  inversion H. now apply IH.
Qed.

Lemma entity_prefix_free : forall x y r s,
  entity x ++ r = entity y ++ s -> x = y.
Proof.
  intros x y r s H. unfold entity in H.
  destruct (Ascii.eqb_spec x "&"); destruct (Ascii.eqb_spec y "&");
    [congruence | | |];
  destruct (Ascii.eqb_spec x "<"); destruct (Ascii.eqb_spec y "<");
    try congruence;
  destruct (Ascii.eqb_spec x ">"); destruct (Ascii.eqb_spec y ">");
    try congruence;
  destruct (Ascii.eqb_spec x dquote); destruct (Ascii.eqb_spec y dquote);
    try congruence;
  cbn in H; inversion H; subst; try congruence; try discriminate.
Qed.

Lemma escape_text_injective : forall a b,
  escape_text a = escape_text b -> a = b.
Proof.
  induction a as [|x a IH]; intros [|y b] H; cbn [escape_text] in H.
  - reflexivity.
  - destruct (entity_shape y) as [[r [E _]] | [E _]]; rewrite E in H;
      discriminate H.
  - destruct (entity_shape x) as [[r [E _]] | [E _]]; rewrite E in H;
      discriminate H.
  - pose proof (entity_prefix_free _ _ _ _ H) as ->.
    apply append_cancel in H. f_equal. now apply IH.
Qed.

End EscapeAlgebra.

(** X9: esc works character by character: the escape of a concatenation is
    the concatenation of the escapes, a text without ampersand, less-than,
    greater-than and double quote is left as it is, and the result is never
    shorter than the text. *)
Theorem esc_characterwise :
  (forall a b, esc (VStr (a ++ b)) = esc (VStr a) ++ esc (VStr b)) /\
  (forall s, plain_text s = true -> esc (VStr s) = s) /\
  (forall s, String.length s <= String.length (esc (VStr s))).
Proof.
  split; [|split].
  - intros a b. rewrite !esc_one_pass. apply escape_text_app.
  - intros s H. rewrite esc_one_pass. now apply escape_text_plain.
  - intros s. rewrite esc_one_pass. apply escape_text_length.
Qed.

Lemma esc_characterwise_witness :
  esc (VStr "Nilufer Ormanli Studio LLC") = "Nilufer Ormanli Studio LLC".
Proof.
  apply (proj1 (proj2 esc_characterwise)). reflexivity.
Defined.

(** X10: esc loses nothing: two different texts never have the same
    escape. *)
Theorem esc_injective (a b : string)
  (H : esc (VStr a) = esc (VStr b)) : a = b.
Proof.
  rewrite !esc_one_pass in H. now apply escape_text_injective.
Qed.

Lemma esc_injective_witness : "R&D" = "R&D".
Proof.
  apply (esc_injective "R&D" "R&D"). reflexivity.
Defined.

Section PathShape.

Lemma strip_empty_iff : forall s,
  strip_trailing_slashes s = "" <-> all_slashes s = true.
Proof.
  intros [|a r]; [split; reflexivity|].
  cbn [strip_trailing_slashes slashes_to_end].
  destruct (all_slashes (String a r)); split; congruence || discriminate.
Qed.

Lemma strip_last_char : forall s,
  last_char (strip_trailing_slashes s) <> Some "/"%char.
Proof.
  induction s as [|a r IH]; [discriminate|].
  cbn [strip_trailing_slashes slashes_to_end all_slashes].
  destruct (is_slash a && all_slashes r) eqn:E; [discriminate|].
  cbn [last_char].
  destruct (strip_trailing_slashes r) as [|b q] eqn:Er; [|exact IH].
  apply strip_empty_iff in Er. rewrite Er, andb_true_r in E.
  intros H. inversion H; subst. discriminate E.
Qed.

Lemma lower_last_char : forall s,
  last_char (toLowerCase s) = option_map lower_char (last_char s).
Proof.
  induction s as [|a r IH]; [reflexivity|].
  cbn [toLowerCase last_char].
  destruct r as [|b q]; [reflexivity | exact IH].
Qed.

Lemma lower_empty_iff : forall s, toLowerCase s = "" <-> s = "".
Proof. intros [|a r]; split; intros H; reflexivity || discriminate H. Qed.

Lemma lower_char_is_slash : forall a, lower_char a = "/"%char -> a = "/"%char.
Proof.
  intros a H. pose proof (lower_char_slash a) as E. rewrite H in E.
  unfold is_slash in E. cbn in E. symmetry in E.
  now apply Ascii.eqb_eq in E.
Qed.

End PathShape.

(** X11: the shape of a normalised path.  It is never empty; it is "/"
    exactly when the path is empty or consists of slashes only; otherwise it
    does not end in a slash; and it has no upper-case letter left
    (lower-casing it again changes nothing). *)
Theorem normalisePath_shape (path : string) :
  normalisePath path <> "" /\
  (normalisePath path = "/" <-> all_slashes path = true) /\
  (normalisePath path = "/" \/
   last_char (normalisePath path) <> Some "/"%char) /\
  toLowerCase (normalisePath path) = normalisePath path.
Proof.
  assert (Hlast : last_char (toLowerCase (strip_trailing_slashes path))
                  <> Some "/"%char).
  { rewrite lower_last_char. intros H.
    destruct (last_char (strip_trailing_slashes path)) as [a|] eqn:E;
      [|discriminate].
    cbn in H. inversion H as [Ha]. apply lower_char_is_slash in Ha. subst a.
    now apply (strip_last_char path). }
  unfold normalisePath.
  destruct (String.eqb_spec (toLowerCase (strip_trailing_slashes path)) "")
    as [E | E].
  - apply (proj1 (lower_empty_iff _)) in E.
    apply (proj1 (strip_empty_iff _)) in E.
    repeat split; try discriminate; auto.
  - repeat split; try assumption.
    + intros H. rewrite H in Hlast. now elim Hlast.
    + intros H. elim E. apply (proj2 (lower_empty_iff _)).
      now apply (proj2 (strip_empty_iff _)).
    + right. exact Hlast.
    + apply toLowerCase_idem.
Qed.

(* ------------------------------------------------------------------ *)
(** ** The initialiser on a known path, without a root, and run again *)

Section Init.

Lemma content_locator_proper : forall key loc,
  lookup CONTENT_MAP key = Some loc ->
  loc <> "" /\ loc <> NAV_CONFIG_PATH.
Proof.
  intros key loc H. unfold CONTENT_MAP in H. cbn [lookup] in H.
  repeat match type of H with
         | (if ?b then _ else _) = _ =>
             destruct b; [inversion H; split; discriminate|]
         end.
  discriminate.
Qed.

Lemma object_get_own : forall (A : Type) (m : list (string * A)) key a,
  lookup m key = Some a -> object_get m key = Own a.
Proof. intros A m key a H. unfold object_get. now rewrite H. Qed.

(** What [init] does after [loadNavConfig], by case. *)
Lemma init_run : forall w,
  let w' := if navConfigPromise w then w else exec StoreNavConfigPromise w in
  match content_root w with
  | None =>
      init w = {| final := w'; ops := nav_request w; returned := Ok None |}
  | Some _ =>
      match object_get CONTENT_MAP (normalisePath (location_pathname w)) with
      | Own loc =>
          loc <> "" ->
          init w = {| final := w';
                      ops := (nav_request w ++ [Fetch (Locator loc)])%list;
                      returned := Ok (Some (Locator loc)) |}
      | Inherited name =>
          init w = {| final := w';
                      ops := (nav_request w ++ [Fetch (Member name)])%list;
                      returned := Ok (Some (Member name)) |}
      | Absent =>
          init w = {| final := run [RootSetBusy "false";
                                    RootSetInnerHTML NOT_FOUND_MARKUP] w';
                      ops := (nav_request w ++
                              [RootSetBusy "false";
                               RootSetInnerHTML NOT_FOUND_MARKUP])%list;
                      returned := Ok None |}
      end
  end.
Proof.
  intros w w'. subst w'. unfold nav_request.
  destruct (content_root w) as [r|] eqn:Hroot.
  - destruct (object_get CONTENT_MAP (normalisePath (location_pathname w)))
      as [loc | name |] eqn:Hget; [intros Hloc | |];
      unfold init, loadNavConfig, bindM, inspect, perform, ret;
      cbn [final ops returned];
      destruct (navConfigPromise w) eqn:Ep;
      cbn -[NOT_FOUND_MARKUP parse_children];
      rewrite Hroot; cbn -[NOT_FOUND_MARKUP parse_children];
      rewrite Hget; cbn -[NOT_FOUND_MARKUP parse_children];
      try (destruct (String.eqb_spec loc ""); [contradiction|]);
      reflexivity.
  - unfold init, loadNavConfig, bindM, inspect, perform, ret.
    cbn [final ops returned].
    destruct (navConfigPromise w) eqn:Ep; cbn; rewrite Hroot; reflexivity.
Qed.

End Init.

(** X12: on a path whose normalised form is a key of CONTENT_MAP, init
    requests the locator filed under that key and nothing else for content;
    it leaves the content root as it is (still busy) and returns with that
    request pending.  The lookup is by the exact normalised key. *)
Theorem init_known_path (w : world) (r : root_state) (loc : string)
  (Hhit : lookup CONTENT_MAP (normalisePath (location_pathname w)) = Some loc)
  (Hroot : content_root w = Some r) :
  returned (init w) = Ok (Some (Locator loc)) /\
  ops (init w) = (nav_request w ++ [Fetch (Locator loc)])%list /\
  content_root (final (init w)) = Some r /\
  document_title (final (init w)) = document_title w /\
  nav_links (final (init w)) = nav_links w.
Proof.
  pose proof (init_run w) as H. cbv zeta in H.
  rewrite Hroot, (object_get_own _ _ _ _ Hhit) in H.
  rewrite (H (proj1 (content_locator_proper _ _ Hhit))).
  cbn [final ops returned].
  destruct (navConfigPromise w); cbn; rewrite ?Hroot; repeat split; reflexivity.
Qed.

Lemma init_known_path_witness :
  returned (init (Sample.page_at "/Legal/Privacy-Policy//")) =
    Ok (Some (Locator "content/legal/privacy-policy.yml")) /\
  ops (init (Sample.page_at "/Legal/Privacy-Policy//")) =
    [Fetch (Locator NAV_CONFIG_PATH); StoreNavConfigPromise;
     Fetch (Locator "content/legal/privacy-policy.yml")] /\
  content_root (final (init (Sample.page_at "/Legal/Privacy-Policy//"))) =
    Some Sample.loading_root /\
  document_title (final (init (Sample.page_at "/Legal/Privacy-Policy//"))) =
    document_title (Sample.page_at "/Legal/Privacy-Policy//") /\
  nav_links (final (init (Sample.page_at "/Legal/Privacy-Policy//"))) =
    nav_links (Sample.page_at "/Legal/Privacy-Policy//").
Proof.
  exact (init_known_path (Sample.page_at "/Legal/Privacy-Policy//")
           Sample.loading_root "content/legal/privacy-policy.yml"
           eq_refl eq_refl).
Defined.

Example init_no_prefix_match :
  lookup CONTENT_MAP (normalisePath "/about/team") = None /\
  returned (init (Sample.page_at "/about/team")) = Ok None.
Proof. split; reflexivity. Qed.

(** X13: on a page without the content root, init requests the navigation
    document (if that has not been done) and does nothing else: no content
    is requested and nothing in the document is changed. *)
Theorem init_without_root (w : world)
  (Hroot : content_root w = None) :
  returned (init w) = Ok None /\
  ops (init w) = nav_request w /\
  final (init w) =
    (if navConfigPromise w then w else exec StoreNavConfigPromise w).
Proof.
  pose proof (init_run w) as H. cbv zeta in H. rewrite Hroot in H.
  rewrite H. repeat split; reflexivity.
Qed.

Lemma init_without_root_witness :
  returned (init rootless_page) = Ok None /\
  ops (init rootless_page) =
    [Fetch (Locator NAV_CONFIG_PATH); StoreNavConfigPromise].
Proof.
  destruct (init_without_root rootless_page eq_refl) as [H1 [H2 _]].
  split; [exact H1 | exact H2].
Defined.

Section Memo.

Lemma loadNavConfig_run : forall w,
  loadNavConfig w =
    {| final := if navConfigPromise w then w else exec StoreNavConfigPromise w;
       ops := nav_request w;
       returned := Ok tt |}.
Proof.
  intros w. unfold loadNavConfig, nav_request, bindM, inspect, perform, ret.
  cbn [final ops returned]. destruct (navConfigPromise w); reflexivity.
Qed.

Lemma repeatedly_loadNavConfig : forall n w,
  navConfigPromise w = true ->
  repeatedly n loadNavConfig w = {| final := w; ops := []; returned := Ok tt |}.
Proof.
  induction n as [|n IH]; intros w Hw; [reflexivity|].
  cbn [repeatedly]. unfold bindM. rewrite loadNavConfig_run.
  unfold nav_request. rewrite Hw. cbn [final ops returned].
  rewrite (IH w Hw). reflexivity.
Qed.

Lemma init_sets_promise : forall w, navConfigPromise (final (init w)) = true.
Proof.
  intros w. pose proof (init_run w) as H. cbv zeta in H.
  destruct (content_root w) as [r|] eqn:Hroot.
  - destruct (object_get CONTENT_MAP (normalisePath (location_pathname w)))
      as [loc | name |] eqn:Hget.
    + unfold object_get in Hget.
      destruct (lookup CONTENT_MAP (normalisePath (location_pathname w)))
        as [loc'|] eqn:Hl.
      * inversion Hget; subst.
        rewrite (H (proj1 (content_locator_proper _ _ Hl))).
        cbn. destruct (navConfigPromise w) eqn:E; [exact E | reflexivity].
      * destruct (existsb _ _); discriminate.
    + rewrite H. cbn. destruct (navConfigPromise w) eqn:E; [exact E | reflexivity].
    + rewrite H. cbn. destruct (navConfigPromise w) eqn:E; [exact E | reflexivity].
  - rewrite H. cbn. destruct (navConfigPromise w) eqn:E; [exact E | reflexivity].
Qed.

Lemma init_no_nav_fetch : forall w,
  navConfigPromise w = true ->
  existsb is_nav_fetch (ops (init w)) = false.
Proof.
  intros w Hw. pose proof (init_run w) as H. cbv zeta in H.
  unfold nav_request in H. rewrite Hw in H.
  destruct (content_root w) as [r|] eqn:Hroot.
  - destruct (object_get CONTENT_MAP (normalisePath (location_pathname w)))
      as [loc | name |] eqn:Hget.
    + unfold object_get in Hget.
      destruct (lookup CONTENT_MAP (normalisePath (location_pathname w)))
        as [loc'|] eqn:Hl.
      * inversion Hget; subst.
        destruct (content_locator_proper _ _ Hl) as [Hne Hnav].
        rewrite (H Hne). cbn [ops app existsb is_nav_fetch orb].
        destruct (String.eqb_spec loc NAV_CONFIG_PATH); [contradiction | reflexivity].
      * destruct (existsb _ _); discriminate.
    + rewrite H. reflexivity.
    + rewrite H. reflexivity.
  - rewrite H. reflexivity.
Qed.

End Memo.

(** X14: the navigation document is requested at most once.  After one
    call of loadNavConfig the promise is stored; from then on any number of
    further calls, and any further run of init, request it no more; however
    often loadNavConfig runs, it issues the request once if none was stored
    at the start and never otherwise. *)
Theorem nav_config_requested_once (w : world) :
  navConfigPromise (final (loadNavConfig w)) = true /\
  (forall n,
     ops (repeatedly (S n) loadNavConfig w) = nav_request w /\
     returned (repeatedly (S n) loadNavConfig w) = Ok tt) /\
  existsb is_nav_fetch (ops (init (final (init w)))) = false.
Proof.
  split; [|split].
  - rewrite loadNavConfig_run. cbn.
    destruct (navConfigPromise w) eqn:E; [exact E | reflexivity].
  - intros n. cbn [repeatedly]. unfold bindM. rewrite loadNavConfig_run.
    cbn [final ops returned].
    rewrite repeatedly_loadNavConfig
      by (destruct (navConfigPromise w) eqn:E; [exact E | reflexivity]).
    cbn [final ops returned]. rewrite app_nil_r. split; reflexivity.
  - apply init_no_nav_fetch. apply init_sets_promise.
Qed.

(* ------------------------------------------------------------------ *)
(** ** The content chain: how it ends *)

Section ContentChain.

Variable load : string -> result value.

Lemma page_shape_weaken : forall (P Q : op -> Prop) o w,
  (forall x, P x -> Q x) -> page_shape P o w -> page_shape Q o w.
Proof.
  intros P Q o w HPQ [Hf [[e [Hr Ho]] | [Hr [fragment [pre [post [Ho [Hp Hl]]]]]]]];
    split; try exact Hf.
  - left. exists e. split; [exact Hr|]. eapply Forall_impl; eauto.
  - right. split; [exact Hr|]. exists fragment, pre, post.
    repeat split; try assumption. eapply Forall_impl; eauto.
Qed.

Lemma page_shape_bind : forall (P : op -> Prop) (A : Type) (m : M A)
  (k : A -> M unit) w,
  Forall P (ops (m w)) ->
  final (m w) = run (ops (m w)) w ->
  (forall a, returned (m w) = Ok a ->
             page_shape P (k a (final (m w))) (final (m w))) ->
  page_shape P (bindM m k w) w.
Proof.
  intros P A m k w Hops Hfin Hk. unfold page_shape, bindM.
  destruct (returned (m w)) as [a|e] eqn:Hr.
  - destruct (Hk a eq_refl)
      as [Hf [[e [Hre Ho]] | [Hre [fragment [pre [post [Ho [Hp Hl]]]]]]]];
      cbn [final ops returned]; split.
    + rewrite run_app, <- Hfin. exact Hf.
    + left. exists e. split; [exact Hre|]. apply Forall_app. split; assumption.
    + rewrite run_app, <- Hfin. exact Hf.
    + right. split; [exact Hre|].
      exists fragment, (ops (m w) ++ pre)%list, post.
      split; [rewrite Ho; now rewrite app_assoc|].
      split; [apply Forall_app; split; assumption | exact Hl].
  - cbn [final ops returned]. split; [exact Hfin|].
    left. exists e. split; [reflexivity | exact Hops].
Qed.

Lemma page_shape_lift : forall (P : op -> Prop) (A : Type) (r : result A)
  (k : A -> M unit) w,
  (forall a, r = Ok a -> page_shape P (k a w) w) ->
  page_shape P (bindM (lift r) k w) w.
Proof.
  intros P A r k w Hk. apply page_shape_bind.
  - constructor.
  - reflexivity.
  - intros a Ha. apply Hk. exact Ha.
Qed.

Lemma replace_then_mark_shape : forall (P : op -> Prop) fragment w,
  page_shape P
    ((perform (RootSetBusy "false") ;;;
      perform (RootSetInnerHTML "") ;;;
      perform (RootAppendFragment fragment) ;;;
      setActiveNav) w) w.
Proof.
  intros P fragment w. unfold bindM, perform. cbn [final ops returned].
  set (w3 := exec (RootAppendFragment fragment)
               (exec (RootSetInnerHTML "") (exec (RootSetBusy "false") w))).
  destruct (setActiveNav_quiet w3) as [Hl [Hr Hf]]. rewrite Hr.
  cbn [final ops returned]. split.
  - rewrite Hf. reflexivity.
  - right. split; [reflexivity|].
    exists fragment, [], (ops (setActiveNav w3)).
    repeat split; [constructor | exact Hl].
Qed.

Lemma update_description_ops : forall data w,
  Forall description_op (ops (update_description data w)).
Proof.
  intros data w. unfold update_description, bindM, lift, perform, ret, inspect.
  cbn [final ops returned].
  destruct (get data "meta") as [meta|e]; cbn [final ops returned];
    [|constructor].
  destruct (truthy meta); cbn [final ops returned]; [|constructor].
  destruct (get meta "description") as [d|e]; cbn [final ops returned];
    [|constructor].
  destruct (truthy d); cbn [final ops returned]; [|constructor].
  destruct (meta_description w); cbn [final ops returned]; [|constructor].
  destruct (to_string d) as [t|e]; cbn [final ops returned app];
    repeat constructor.
Qed.

Lemma render_after_title_shape : forall data w,
  page_shape description_op (render_after_title data w) w.
Proof.
  intros data w. unfold render_after_title.
  apply page_shape_bind.
  - apply update_description_ops.
  - apply update_description_quiet.
  - intros [] _. apply page_shape_lift. intros sections _.
    apply page_shape_lift. intros fragment _.
    apply replace_then_mark_shape.
Qed.

Lemma render_page_unfold : forall body,
  render_page load body =
    (data <== lift (load body) ;;
     update_title data ;;; render_after_title data).
Proof. reflexivity. Qed.

Lemma render_page_shape : forall body w,
  page_shape metadata_op (render_page load body w) w.
Proof.
  intros body w. rewrite render_page_unfold.
  apply page_shape_lift. intros data _.
  apply page_shape_bind.
  - apply update_title_quiet.
  - apply update_title_quiet.
  - intros [] _.
    apply (page_shape_weaken description_op);
      [intros []; cbn; tauto | apply render_after_title_shape].
Qed.

Lemma content_attempt_shape : forall yamlPath settled w,
  page_shape metadata_op (content_attempt load yamlPath settled w) w.
Proof.
  intros yamlPath settled w. unfold content_attempt.
  apply page_shape_lift. intros res _.
  apply page_shape_lift. intros body _.
  apply render_page_shape.
Qed.

Lemma bindM_lift_ok : forall (A B : Type) (a : A) (k : A -> M B) w,
  bindM (lift (Ok a)) k w = k a w.
Proof.
  intros A B a k w. unfold bindM, lift. cbn [final ops returned app].
  destruct (k a w); reflexivity.
Qed.

Lemma content_chain_catch : forall yamlPath settled,
  content_chain load yamlPath settled =
    catch (content_attempt load yamlPath settled) content_failed.
Proof. reflexivity. Qed.

End ContentChain.

Section Frames.

Lemma run_preserves : forall (A : Type) (proj : world -> A) (P : op -> Prop),
  (forall o w, P o -> proj (exec o w) = proj w) ->
  forall l w, Forall P l -> proj (run l w) = proj w.
Proof.
  intros A proj P HP. induction l as [|o l IH]; intros w Hl; [reflexivity|].
  inversion Hl as [|? ? Ho Hl']; subst.
  change (run (o :: l) w) with (run l (exec o w)).
  rewrite (IH _ Hl'). now apply HP.
Qed.

Lemma content_op_footer : forall o w,
  content_op o -> footer (exec o w) = footer w.
Proof. intros [] w H; try contradiction; reflexivity. Qed.

Lemma content_op_promise : forall o w,
  content_op o -> navConfigPromise (exec o w) = navConfigPromise w.
Proof. intros [] w H; try contradiction; reflexivity. Qed.

Lemma keeps_title_exec : forall o w,
  keeps_title o -> document_title (exec o w) = document_title w.
Proof. intros [] w H; try contradiction; reflexivity. Qed.

Lemma keeps_links_exec : forall o w,
  keeps_links o -> nav_links (exec o w) = nav_links w.
Proof. intros [] w H; try contradiction; reflexivity. Qed.

Lemma content_op_no_fetch : forall l,
  Forall content_op l -> existsb is_fetch l = false.
Proof.
  induction 1 as [|o l Ho _ IH]; [reflexivity|].
  cbn [existsb]. rewrite IH. destruct o; try contradiction; reflexivity.
Qed.

Lemma root_after_replace : forall fragment pre post w r,
  content_root w = Some r ->
  Forall metadata_op pre -> Forall link_op post ->
  content_root (run (pre ++ replace_content fragment ++ post) w) =
    Some {| aria_busy := Some "false";
            children := map SectionNode fragment |}.
Proof.
  intros fragment pre post w r Hr Hpre Hpost.
  rewrite !run_app.
  rewrite (run_preserves _ content_root link_op link_op_root _ _ Hpost).
  unfold replace_content, run. cbn [fold_left].
  cbn [exec with_root content_root option_map].
  fold (run pre w).
  rewrite (run_preserves _ content_root metadata_op metadata_op_root _ _ Hpre).
  rewrite Hr. reflexivity.
Qed.

End Frames.

(** X15: the content chain always settles.  Whatever the response and
    whatever the loader returns, it raises nothing, it leaves the content
    root with aria-busy set to false, it issues no request of its own (no
    retry, no redirect), and it touches neither the footer nor the stored
    navigation request. *)
Theorem content_chain_settles
  (load : string -> result value) (yamlPath : string)
  (settled : result response) (w : world) (r : root_state)
  (Hroot : content_root w = Some r) :
  returned (content_chain load yamlPath settled w) = Ok tt /\
  (exists kids,
     content_root (final (content_chain load yamlPath settled w)) =
       Some {| aria_busy := Some "false"; children := kids |}) /\
  existsb is_fetch (ops (content_chain load yamlPath settled w)) = false /\
  footer (final (content_chain load yamlPath settled w)) = footer w /\
  navConfigPromise (final (content_chain load yamlPath settled w)) =
    navConfigPromise w.
Proof.
  rewrite content_chain_catch. unfold catch.
  destruct (content_attempt_shape load yamlPath settled w)
    as [Hf [[e [Hr Ho]] | [Hr [fragment [pre [post [Ho [Hp Hl]]]]]]]];
    rewrite Hr.
  - unfold content_failed, bindM, perform. cbn [final ops returned].
    assert (Hroot' : content_root
                       (final (content_attempt load yamlPath settled w)) =
                     Some r).
    { rewrite Hf.
      now rewrite (run_preserves _ content_root metadata_op metadata_op_root). }
    assert (Hall : Forall content_op
                     (ops (content_attempt load yamlPath settled w))).
    { eapply Forall_impl; [|exact Ho]. intros []; cbn; tauto. }
    split; [reflexivity|]. split; [|split; [|split]].
    + eexists. cbn [exec with_root content_root option_map].
      rewrite Hroot'. reflexivity.
    + apply content_op_no_fetch. apply Forall_app. split; [exact Hall|].
      repeat constructor.
    + cbn [exec with_footer with_root footer]. rewrite Hf.
      now rewrite (run_preserves _ footer content_op content_op_footer).
    + cbn [exec with_root navConfigPromise]. rewrite Hf.
      now rewrite (run_preserves _ navConfigPromise content_op
                     content_op_promise).
  - assert (Hall : Forall content_op
                     (ops (content_attempt load yamlPath settled w))).
    { rewrite Ho. apply Forall_app. split.
      - eapply Forall_impl; [|exact Hp]. intros []; cbn; tauto.
      - apply Forall_app. split; [repeat constructor|].
        eapply Forall_impl; [|exact Hl]. intros []; cbn; tauto. }
    cbn beta iota zeta.
    split; [exact Hr|]. split; [|split; [|split]].
    + eexists. rewrite Hf, Ho.
      apply (root_after_replace fragment pre post w r Hroot Hp Hl).
    + now apply content_op_no_fetch.
    + rewrite Hf.
      now rewrite (run_preserves _ footer content_op content_op_footer).
    + rewrite Hf.
      now rewrite (run_preserves _ navConfigPromise content_op
                     content_op_promise).
Qed.

Lemma content_chain_settles_witness :
  returned (content_chain Sample.load_rejects "content/home.yml"
              (Throw FetchError) (Sample.page_at "/")) = Ok tt.
Proof.
  apply (content_chain_settles Sample.load_rejects "content/home.yml"
           (Throw FetchError) (Sample.page_at "/") Sample.loading_root eq_refl).
Defined.

(** X16: when anything fails between the response and the last section (the
    request is rejected, the status is not a success, the body cannot be
    read, the loader or a conversion raises, a section does not render), the
    error is logged once, the content root shows the message that the
    content could not be loaded and nothing else, no section is attached,
    and the navigation links are left as they were. *)
Theorem content_failure_shows_message
  (load : string -> result value) (yamlPath : string)
  (settled : result response) (w : world) (r : root_state) (e : exn)
  (Hroot : content_root w = Some r)
  (Hfail : returned (content_attempt load yamlPath settled w) = Throw e) :
  content_root (final (content_chain load yamlPath settled w)) =
    Some {| aria_busy := Some "false";
            children := [Markup LOAD_FAILED_MARKUP] |} /\
  nav_links (final (content_chain load yamlPath settled w)) = nav_links w /\
  exists pre,
    Forall metadata_op pre /\
    ops (content_chain load yamlPath settled w) =
      (pre ++ [ConsoleError "[page-renderer] Failed to load content:" e;
               RootSetBusy "false";
               RootSetInnerHTML LOAD_FAILED_MARKUP])%list.
Proof.
  rewrite content_chain_catch. unfold catch. rewrite Hfail.
  destruct (content_attempt_shape load yamlPath settled w)
    as [Hf [[e' [Hr Ho]] | [Hr _]]]; [|congruence].
  unfold content_failed, bindM, perform. cbn [final ops returned].
  split; [|split].
  - cbn [exec with_root content_root option_map]. rewrite Hf.
    rewrite (run_preserves _ content_root metadata_op metadata_op_root _ _ Ho).
    rewrite Hroot. reflexivity.
  - cbn [exec with_root nav_links]. rewrite Hf.
    apply (run_preserves _ nav_links metadata_op).
    + intros [] w' H; try contradiction; reflexivity.
    + exact Ho.
  - exists (ops (content_attempt load yamlPath settled w)).
    split; [exact Ho | reflexivity].
Qed.

Lemma content_failure_shows_message_witness :
  content_root
    (final (content_chain Sample.load_home "content/home.yml"
              (Ok (Sample.http false "404" "")) (Sample.page_at "/"))) =
    Some {| aria_busy := Some "false";
            children := [Markup LOAD_FAILED_MARKUP] |}.
Proof.
  apply (content_failure_shows_message Sample.load_home "content/home.yml"
           (Ok (Sample.http false "404" "")) (Sample.page_at "/")
           Sample.loading_root (HttpError "HTTP 404: content/home.yml")
           eq_refl eq_refl).
Defined.

(** X17: the title is set before the sections are rendered and nothing
    takes it back.  If the loaded document has a meta title that is a
    non-empty string, the document title ends up as that title followed by
    the site suffix, also when a later step fails and the page shows the
    failure message. *)
Theorem title_survives_failure
  (load : string -> result value) (yamlPath : string) (res : response)
  (body : string) (data meta : value) (t : string) (w : world)
  (Hok : ok res = true) (Htext : text res = Ok body)
  (Hload : load body = Ok data)
  (Hmeta : get data "meta" = Ok meta) (Htruthy : truthy meta = true)
  (Htitle : get meta "title" = Ok (VStr t)) (Hne : t <> "") :
  document_title (final (content_chain load yamlPath (Ok res) w)) =
    t ++ TITLE_SUFFIX.
Proof.
  assert (Htt : truthy (VStr t) = true).
  { destruct t; [contradiction | reflexivity]. }
  set (w1 := exec (SetTitle (t ++ TITLE_SUFFIX)) w).
  assert (Hattempt :
            content_attempt load yamlPath (Ok res) w =
              {| final := final (render_after_title data w1);
                 ops := (SetTitle (t ++ TITLE_SUFFIX)
                         :: ops (render_after_title data w1))%list;
                 returned := returned (render_after_title data w1) |}).
  { assert (Ht : update_title data w =
                   perform (SetTitle (t ++ TITLE_SUFFIX)) w).
    { unfold update_title. rewrite Hmeta, bindM_lift_ok. cbn beta.
      rewrite Htruthy, Htitle, bindM_lift_ok. cbn beta.
      rewrite Htt. cbn [to_string]. apply bindM_lift_ok. }
    unfold content_attempt. rewrite bindM_lift_ok. cbn beta.
    unfold read_body. rewrite Hok, Htext, bindM_lift_ok. cbn beta.
    rewrite render_page_unfold, Hload, bindM_lift_ok. cbn beta.
    unfold bindM. rewrite Ht. reflexivity. }
  assert (Hw1 : document_title w1 = t ++ TITLE_SUFFIX) by reflexivity.
  rewrite content_chain_catch. unfold catch. rewrite Hattempt.
  cbn [final ops returned].
  destruct (render_after_title_shape data w1)
    as [Hf [[e [Hr Ho]] | [Hr [fragment [pre [post [Ho [Hp Hl]]]]]]]];
    rewrite Hr.
  - unfold content_failed, bindM, perform. cbn [final ops returned].
    cbn [exec with_root document_title]. rewrite Hf.
    rewrite (run_preserves _ document_title description_op); [exact Hw1 | | exact Ho].
    intros [] w' H; try contradiction; reflexivity.
  - cbn [final]. rewrite Hf.
    rewrite (run_preserves _ document_title keeps_title keeps_title_exec);
      [exact Hw1|].
    rewrite Ho. apply Forall_app. split.
    + eapply Forall_impl; [|exact Hp]. intros []; cbn; tauto.
    + apply Forall_app. split; [repeat constructor|].
      eapply Forall_impl; [|exact Hl]. intros []; cbn; tauto.
Qed.

Lemma title_survives_failure_witness :
  document_title
    (final (content_chain
              (fun _ => Ok (VObj [("meta", VObj [("title", VStr "About")]);
                                  ("sections", VStr "none")]))
              "content/about.yml" (Ok (Sample.http true "200" "about"))
              (Sample.page_at "/about"))) =
    "About" ++ TITLE_SUFFIX.
Proof.
  apply (title_survives_failure _ "content/about.yml"
           (Sample.http true "200" "about") "about"
           (VObj [("meta", VObj [("title", VStr "About")]);
                  ("sections", VStr "none")])
           (VObj [("title", VStr "About")]) "About" (Sample.page_at "/about"));
    try reflexivity.
  discriminate.
Defined.

(* ------------------------------------------------------------------ *)
(** ** The site chrome: what it touches *)

Section Traced.

Variable P : op -> Prop.

Lemma traced_ret : forall (A : Type) (a : A), traced P (ret a).
Proof. intros A a w. split; [constructor | reflexivity]. Qed.

Lemma traced_lift : forall (A : Type) (r : result A), traced P (lift r).
Proof. intros A r w. split; [constructor | reflexivity]. Qed.

Lemma traced_inspect : forall (A : Type) (f : world -> A),
  traced P (inspect f).
Proof. intros A f w. split; [constructor | reflexivity]. Qed.

Lemma traced_perform : forall o, P o -> traced P (perform o).
Proof. intros o Ho w. split; [repeat constructor; exact Ho | reflexivity]. Qed.

Lemma traced_bind : forall (A B : Type) (m : M A) (k : A -> M B),
  traced P m -> (forall a, traced P (k a)) -> traced P (bindM m k).
Proof.
  intros A B m k Hm Hk w. unfold bindM.
  destruct (Hm w) as [Ho Hf].
  destruct (returned (m w)) as [a|e]; cbn [final ops returned].
  - destruct (Hk a (final (m w))) as [Ho' Hf']. split.
    + apply Forall_app. split; assumption.
    + rewrite run_app, <- Hf. exact Hf'.
  - split; assumption.
Qed.

Lemma traced_catch : forall (A : Type) (m : M A) (h : exn -> M A),
  traced P m -> (forall e, traced P (h e)) -> traced P (catch m h).
Proof.
  intros A m h Hm Hh w. unfold catch.
  destruct (Hm w) as [Ho Hf].
  destruct (returned (m w)) as [a|e]; cbn [final ops returned].
  - split; assumption.
  - destruct (Hh e (final (m w))) as [Ho' Hf']. split.
    + apply Forall_app. split; assumption.
    + rewrite run_app, <- Hf. exact Hf'.
Qed.

End Traced.

Ltac traced_step :=
  lazymatch goal with
  | |- traced _ (bindM _ _) => apply traced_bind; [|intros ?]
  | |- traced _ (catch _ _) => apply traced_catch; [|intros ?]
  | |- traced _ (ret _) => apply traced_ret
  | |- traced _ (lift _) => apply traced_lift
  | |- traced _ (inspect _) => apply traced_inspect
  | |- traced _ (perform _) =>
      apply traced_perform; cbn; solve [exact I | eauto]
  | |- traced _ (if ?c then _ else _) => destruct c
  | |- traced _ (match ?x with Some _ => _ | None => _ end) => destruct x
  | |- traced _ (let _ := _ in _) => cbv zeta
  end.

Section Chrome.

Variable load : string -> result value.

Lemma applyFooter_traced : forall navData, traced chrome_op (applyFooter navData).
Proof. intros navData. unfold applyFooter. repeat traced_step. Qed.

Lemma nav_config_chain_traced : forall settled,
  traced chrome_op (nav_config_chain load settled).
Proof. intros settled. unfold nav_config_chain. repeat traced_step. Qed.

Lemma chrome_chain_traced : forall settled,
  traced chrome_op (chrome_chain load settled).
Proof.
  intros settled. unfold chrome_chain.
  apply traced_catch; [|intros e; apply traced_ret].
  apply traced_bind; [apply nav_config_chain_traced|].
  intros navData. unfold applySiteChrome.
  destruct (truthy navData); [apply applyFooter_traced | apply traced_ret].
Qed.

Lemma chrome_chain_returns : forall settled w,
  returned (chrome_chain load settled w) = Ok tt.
Proof.
  intros settled w. unfold chrome_chain, catch. cbv zeta.
  destruct (returned (_ w)) as [[]|e] eqn:E.
  - exact E.
  - reflexivity.
Qed.

End Chrome.

Lemma contains_occurs : forall s a,
  contains s (String a "") = occurs a s.
Proof.
  intros s a. unfold contains, indexOf.
  assert (H : forall i, (0 <= i)%Z ->
                Z.leb 0 (indexOf_from i s (String a "")) = occurs a s).
  { induction s as [|b r IH]; intros i Hi; [reflexivity|].
    cbn [indexOf_from occurs]. cbv beta iota delta [String.prefix].
    destruct (Ascii.ascii_dec a b) as [->|Hab].
    - rewrite Ascii.eqb_refl. cbn [orb]. clear IH.
      destruct r; apply Z.leb_le; exact Hi.
    - apply Ascii.eqb_neq in Hab. rewrite Hab. cbn [orb].
      apply IH. lia. }
  apply H. lia.
Qed.

Lemma occurs_app : forall a x y,
  occurs a (x ++ y) = occurs a x || occurs a y.
Proof.
  induction x as [|b r IH]; intros y; cbn [append occurs]; [reflexivity|].
  now rewrite IH, orb_assoc.
Qed.

Lemma esc_clean : forall v a,
  a = "<"%char \/ a = ">"%char \/ a = dquote ->
  occurs a (esc v) = false.
Proof.
  intros v a Ha. rewrite <- contains_occurs.
  destruct v; try reflexivity.
  rewrite esc_one_pass. now apply escape_text_clean.
Qed.

Lemma copyright_markup_clean : forall year entityName a,
  a = "<"%char \/ a = ">"%char \/ a = dquote ->
  contains (copyright_markup year entityName) (String a "") = false.
Proof.
  intros year entityName a Ha. rewrite contains_occurs.
  unfold copyright_markup. rewrite !occurs_app, !(esc_clean _ a Ha).
  destruct Ha as [-> | [-> | ->]]; reflexivity.
Qed.

(** X18: the site chrome is confined to the footer.  Whatever the response
    for the navigation document and whatever the loader returns, the chrome
    chain raises nothing, does nothing but log and write the footer slots,
    and leaves the title, the description, the content root, the navigation
    links and the stored request as they were. *)
Theorem chrome_confined_to_footer
  (load : string -> result value) (settled : result response) (w : world) :
  returned (chrome_chain load settled w) = Ok tt /\
  Forall chrome_op (ops (chrome_chain load settled w)) /\
  document_title (final (chrome_chain load settled w)) = document_title w /\
  meta_description (final (chrome_chain load settled w)) =
    meta_description w /\
  content_root (final (chrome_chain load settled w)) = content_root w /\
  nav_links (final (chrome_chain load settled w)) = nav_links w /\
  navConfigPromise (final (chrome_chain load settled w)) =
    navConfigPromise w.
Proof.
  destruct (chrome_chain_traced load settled w) as [Ho Hf].
  split; [apply chrome_chain_returns|]. split; [exact Ho|].
  rewrite Hf.
  repeat split;
    (eapply (run_preserves _ _ chrome_op); [|exact Ho]);
    intros [] w' H; try contradiction; try reflexivity;
    match goal with x : footer_slot |- _ => destruct x end;
    try contradiction; reflexivity.
Qed.

(** X19: the only markup the chrome writes is the copyright line, and it is
    safe: whatever the navigation document holds for the year and the
    entity name, the line written into the copyright slot has no angle
    bracket and no double quote, and no other slot is written as markup. *)
Theorem copyright_line_safe
  (load : string -> result value) (settled : result response) (w : world)
  (slot : footer_slot) (html : string) (a : ascii)
  (Hwritten : In (FooterSetInnerHTML slot html)
                 (ops (chrome_chain load settled w)))
  (Ha : a = "<"%char \/ a = ">"%char \/ a = dquote) :
  slot = SlotCopyright /\ contains html (String a "") = false.
Proof.
  destruct (chrome_chain_traced load settled w) as [Ho _].
  rewrite Forall_forall in Ho. specialize (Ho _ Hwritten).
  destruct slot; try contradiction.
  destruct Ho as [year [entityName ->]].
  split; [reflexivity | now apply copyright_markup_clean].
Qed.

Lemma copyright_line_safe_witness :
  contains
    (copyright_markup "2026" (VStr "Studio & Co")) "<" = false.
Proof.
  apply (copyright_line_safe Sample.load_nav
           (Ok (Sample.http true "200" "nav")) Sample.footer_page
           SlotCopyright _ "<"%char).
  - vm_compute. right. right. right. left. reflexivity.
  - left. reflexivity.
Defined.

(** X20: a navigation document with neither a footer nor a site entry
    still fills the footer: the name slot gets the built-in entity name, the
    copyright line gets the current year and that name, and the state and
    email slots are left as authored.  Slots the page does not have are
    skipped. *)
Theorem footer_defaults
  (navData f s : value) (w : world)
  (Hfooter : get navData "footer" = Ok f) (Hnf : truthy f = false)
  (Hsite : get navData "site" = Ok s) (Hns : truthy s = false) :
  returned (applyFooter navData w) = Ok tt /\
  footer (final (applyFooter navData w)) =
    {| footer_name :=
         option_map (fun _ => Text DEFAULT_ENTITY) (footer_name (footer w));
       footer_state := footer_state (footer w);
       footer_email := footer_email (footer w);
       footer_copyright :=
         option_map
           (fun _ => Markup (copyright_markup (num_text (current_year w))
                               (VStr DEFAULT_ENTITY)))
           (footer_copyright (footer w)) |}.
Proof.
  unfold applyFooter. rewrite Hfooter, bindM_lift_ok. cbv zeta.
  rewrite Hsite, bindM_lift_ok. unfold or_else. rewrite Hnf, Hns.
  destruct w as [p y t d r l [[n|] [st|] [em|] [c|]] q];
    split; reflexivity.
Qed.

Lemma footer_defaults_witness :
  footer_name (footer (final (applyFooter (VObj []) Sample.footer_page))) =
    Some (Text DEFAULT_ENTITY).
Proof.
  destruct (footer_defaults (VObj []) VUndef VUndef Sample.footer_page
              eq_refl eq_refl eq_refl eq_refl) as [_ H].
  rewrite H. reflexivity.
Defined.

(* ------------------------------------------------------------------ *)
(** ** Active navigation state: what a pass keeps *)

Lemma link_op_location : forall o w,
  link_op o -> location_pathname (exec o w) = location_pathname w.
Proof. intros [] w H; try contradiction; reflexivity. Qed.

Lemma setActiveNav_location : forall w,
  location_pathname (final (setActiveNav w)) = location_pathname w.
Proof.
  intros w. destruct (setActiveNav_quiet w) as [Hl [_ Hf]]. rewrite Hf.
  now apply (run_preserves _ location_pathname link_op link_op_location).
Qed.

Lemma marked_href : forall c link,
  link_href (marked c link) = link_href link.
Proof. intros c link. unfold marked. destruct (is_active _ c); reflexivity. Qed.

Lemma filter_idem : forall (A : Type) (f : A -> bool) l,
  filter f (filter f l) = filter f l.
Proof.
  intros A f. induction l as [|x l IH]; [reflexivity|].
  cbn [filter]. destruct (f x) eqn:E; [|exact IH].
  cbn [filter]. now rewrite E, IH.
Qed.

Lemma class_add_present : forall cls link,
  existsb (String.eqb cls) (classList (class_add cls link)) = true.
Proof.
  intros cls link. apply existsb_exists. exists cls.
  split; [apply class_add_in | apply String.eqb_refl].
Qed.

Lemma class_add_idem : forall cls link,
  class_add cls (class_add cls link) = class_add cls link.
Proof.
  intros cls link. unfold class_add at 1. rewrite class_add_present.
  destruct (class_add cls link); reflexivity.
Qed.

Lemma marked_idem : forall c link, marked c (marked c link) = marked c link.
Proof.
  intros c link. unfold marked at 1. unfold link_target.
  rewrite marked_href. fold (link_target link).
  unfold marked. destruct (is_active (link_target link) c).
  - transitivity (set_current (Some "page")
                    (class_add "is-active" (class_add "is-active" link)));
      [reflexivity|].
    now rewrite class_add_idem.
  - unfold set_current, class_remove. cbn [link_href classList aria_current].
    now rewrite filter_idem.
Qed.

Lemma marked_other_classes : forall c link,
  other_classes (marked c link) = other_classes link.
Proof.
  intros c link. unfold marked, other_classes.
  destruct (is_active _ c); cbn [set_current class_add class_remove classList].
  - destruct (existsb _ _); [reflexivity|].
    rewrite filter_app. cbn [filter]. rewrite String.eqb_refl.
    cbn [negb]. apply app_nil_r.
  - apply filter_idem.
Qed.

Lemma points_home_target : forall link,
  points_home link -> link_target link = "/".
Proof.
  intros link H. unfold link_target, points_home in *.
  destruct (link_href link) as [h|]; [|reflexivity].
  unfold normalisePath. apply strip_empty_iff in H. rewrite H. reflexivity.
Qed.

(** X21: marking the navigation is idempotent.  A second pass over the
    links, on the same page, leaves every link exactly as the first pass
    left it: no class is added twice and no attribute flips. *)
Theorem setActiveNav_idempotent (w : world) :
  nav_links (final (setActiveNav (final (setActiveNav w)))) =
    nav_links (final (setActiveNav w)).
Proof.
  rewrite (setActiveNav_links (final (setActiveNav w))).
  rewrite setActiveNav_location, setActiveNav_links, map_map.
  apply map_ext. intros link. apply marked_idem.
Qed.

(** X22: a pass over the navigation keeps everything it does not manage.
    The links stay as many and in the same order, each keeps its href and,
    in order, every class other than is-active. *)
Theorem setActiveNav_keeps_rest (w : world) (i : nat) (link : nav_link)
  (Hlink : nth_error (nav_links w) i = Some link) :
  length (nav_links (final (setActiveNav w))) = length (nav_links w) /\
  exists link',
    nth_error (nav_links (final (setActiveNav w))) i = Some link' /\
    link_href link' = link_href link /\
    other_classes link' = other_classes link.
Proof.
  rewrite setActiveNav_links. split; [apply length_map|].
  exists (marked (normalisePath (location_pathname w)) link).
  split; [now apply map_nth_error|].
  split; [apply marked_href | apply marked_other_classes].
Qed.

Lemma setActiveNav_keeps_rest_witness :
  length (nav_links (final (setActiveNav (Sample.page_at "/about")))) = 2.
Proof.
  apply (setActiveNav_keeps_rest (Sample.page_at "/about") 1
           Sample.contact_link eq_refl).
Defined.

(** X23: a link that names no page counts as the home link.  A link with no
    href attribute, an empty href or an href of slashes only is marked
    active exactly on the root path, and has both markers removed on every
    other page. *)
Theorem link_without_target_is_home (w : world) (i : nat) (link : nav_link)
  (Hlink : nth_error (nav_links w) i = Some link)
  (Hhome : points_home link) :
  exists link',
    nth_error (nav_links (final (setActiveNav w))) i = Some link' /\
    (normalisePath (location_pathname w) = "/" -> marked_active link') /\
    (normalisePath (location_pathname w) <> "/" -> unmarked link').
Proof.
  set (c := normalisePath (location_pathname w)).
  exists (marked c link). rewrite setActiveNav_links. fold c.
  split; [now apply map_nth_error|].
  destruct (marked_spec c link) as [Hon Hoff].
  rewrite (points_home_target link Hhome) in Hon, Hoff.
  split; intros Hc.
  - apply Hon. apply is_active_spec. left. now symmetry.
  - apply Hoff. apply not_true_is_false. intros Hact.
    apply is_active_spec in Hact. destruct Hact as [E | [E _]].
    + apply Hc. now symmetry.
    + now apply E.
Qed.

Lemma link_without_target_is_home_witness :
  exists link',
    nth_error
      (nav_links
         (final (setActiveNav
                   {| location_pathname := "/about";
                      current_year := Sample.this_year;
                      document_title := "";
                      meta_description := None;
                      content_root := None;
                      nav_links :=
                        [{| link_href := None; classList := ["is-active"];
                            aria_current := Some "page" |}];
                      footer := Sample.empty_footer;
                      navConfigPromise := false |}))) 0 = Some link' /\
    unmarked link'.
Proof.
  destruct (link_without_target_is_home
              {| location_pathname := "/about";
                 current_year := Sample.this_year;
                 document_title := "";
                 meta_description := None;
                 content_root := None;
                 nav_links :=
                   [{| link_href := None; classList := ["is-active"];
                       aria_current := Some "page" |}];
                 footer := Sample.empty_footer;
                 navConfigPromise := false |} 0
              {| link_href := None; classList := ["is-active"];
                 aria_current := Some "page" |} eq_refl I)
    as [link' [Hnth [_ Hoff]]].
  exists link'. split; [exact Hnth|]. apply Hoff. discriminate.
Defined.

(* ------------------------------------------------------------------ *)
(** ** The mobile navigation toggle: open and closed *)

Module MobileNavFacts.

Import MobileNav.

Lemma setOpen_false_closed : forall p, closed_state (setOpen false p).
Proof.
  intros p. unfold closed_state, setOpen, classList_toggle.
  cbn [aria_expanded menu_classes body_overflow].
  repeat split. intros H. apply filter_In in H. destruct H as [_ H].
  now rewrite String.eqb_refl in H.
Qed.

Lemma setOpen_true_open : forall p, open_state (setOpen true p).
Proof.
  intros p. unfold open_state, setOpen, classList_toggle.
  cbn [aria_expanded menu_classes body_overflow].
  repeat split.
  destruct (existsb (String.eqb "is-open") (menu_classes p)) eqn:E.
  - apply existsb_exists in E. destruct E as [x [Hx Heq]].
    apply String.eqb_eq in Heq. now subst.
  - apply in_or_app. right. now left.
Qed.

Lemma setOpen_coherent : forall b p, coherent (setOpen b p).
Proof.
  intros [] p; [left; apply setOpen_true_open | right; apply setOpen_false_closed].
Qed.

Lemma listener_run_coherent : forall l p, coherent (listener_run l p).
Proof. intros [] p; apply setOpen_coherent. Qed.

Lemma listeners_coherent : forall ls p,
  coherent p -> coherent (fold_left (fun q l => listener_run l q) ls p).
Proof.
  induction ls as [|l ls IH]; intros p Hp; [exact Hp|].
  cbn [fold_left]. apply IH. apply listener_run_coherent.
Qed.

Lemma dispatch_coherent : forall ev p,
  coherent p -> coherent (after (dispatch ev p)).
Proof.
  intros [c | key] p Hp; cbn [dispatch after].
  - unfold document_click.
    destruct (negb (toggle_contains c) && negb (inside_menu c));
      [apply setOpen_coherent | now apply listeners_coherent].
  - unfold document_keydown.
    destruct (String.eqb key "Escape" && _); cbn [after];
      [apply setOpen_coherent | exact Hp].
Qed.

Lemma react_coherent : forall tf mf ev p,
  coherent p -> coherent (after (react tf mf ev p)).
Proof.
  intros tf mf ev p Hp. unfold react.
  destruct (negb tf || negb mf); [exact Hp | now apply dispatch_coherent].
Qed.

Lemma links_only_closed : forall ls p,
  existsb is_toggle ls = false ->
  ls <> [] ->
  closed_state (fold_left (fun q l => listener_run l q) ls p).
Proof.
  induction ls as [|l ls IH]; intros p Hno Hne; [contradiction|].
  cbn [existsb] in Hno. apply orb_false_iff in Hno. destruct Hno as [Hl Hls].
  destruct l; [discriminate|]. cbn [fold_left listener_run].
  destruct ls as [|l' ls'].
  - apply setOpen_false_closed.
  - apply IH; [exact Hls | discriminate].
Qed.

Lemma closed_not_open : forall p,
  closed_state p ->
  existsb (String.eqb "is-open") (menu_classes p) = false.
Proof.
  intros p [_ [Hno _]]. apply not_true_is_false. intros E.
  apply existsb_exists in E. destruct E as [x [Hx Heq]].
  apply String.eqb_eq in Heq. subst. contradiction.
Qed.

Lemma filter_absent : forall (cls : string) (l : list string),
  ~ In cls l -> filter (fun c => negb (String.eqb cls c)) l = l.
Proof.
  intros cls. induction l as [|x l IH]; intros Hno; [reflexivity|].
  cbn [filter]. destruct (String.eqb_spec cls x) as [->|Hx].
  - exfalso. apply Hno. now left.
  - cbn [negb]. rewrite IH; [reflexivity|].
    intros H. apply Hno. now right.
Qed.

End MobileNavFacts.

(** X24: the three places that say whether the menu is open never
    disagree.  From a page where aria-expanded, the is-open class and the
    body overflow agree, they still agree after any sequence of clicks and
    key presses, whether or not the toggle and the menu were found. *)
Theorem menu_stays_coherent
  (toggle_found menu_found : bool) (evs : list MobileNav.event)
  (p : MobileNav.page) (Hp : MobileNav.coherent p) :
  MobileNav.coherent (MobileNav.play toggle_found menu_found evs p).
Proof.
  revert p Hp. unfold MobileNav.play.
  induction evs as [|ev evs IH]; intros p Hp; [exact Hp|].
  cbn [fold_left]. apply IH. now apply MobileNavFacts.react_coherent.
Qed.

Lemma menu_stays_coherent_witness :
  MobileNav.coherent
    (MobileNav.play true true
       [MobileNav.on_toggle; MobileNav.Keydown "Tab"; MobileNav.on_link]
       MobileNav.authored).
Proof.
  apply (menu_stays_coherent true true
           [MobileNav.on_toggle; MobileNav.Keydown "Tab"; MobileNav.on_link]
           MobileNav.authored).
  right. repeat split. cbn. intros [H | []]. discriminate H.
Defined.

(** X25: a click that does not reach the toggle and lands outside the menu
    or on one of its navigation links closes the menu, whatever state the
    page was in: aria-expanded is false, the is-open class is gone and the
    body scrolls again. *)
Theorem click_away_closes
  (c : MobileNav.click) (p : MobileNav.page)
  (Hnot : MobileNav.toggle_contains c = false)
  (Haway : MobileNav.inside_menu c = false \/
           In MobileNav.OnLink (MobileNav.path c)) :
  MobileNav.closed_state
    (MobileNav.after (MobileNav.dispatch (MobileNav.Click c) p)).
Proof.
  cbn [MobileNav.dispatch MobileNav.after]. unfold MobileNav.document_click.
  rewrite Hnot. cbn [negb andb].
  destruct (MobileNav.inside_menu c).
  - cbn [negb]. destruct Haway as [H | H]; [discriminate|].
    apply MobileNavFacts.links_only_closed; [exact Hnot|].
    intros E. rewrite E in H. contradiction.
  - apply MobileNavFacts.setOpen_false_closed.
Qed.

Lemma click_away_closes_witness :
  MobileNav.closed_state
    (MobileNav.after
       (MobileNav.dispatch MobileNav.outside
          (MobileNav.setOpen true MobileNav.authored))).
Proof.
  apply (click_away_closes {| MobileNav.path := [];
                              MobileNav.inside_menu := false |}
           (MobileNav.setOpen true MobileNav.authored) eq_refl).
  left. reflexivity.
Defined.

(** X26: a click on the toggle flips the menu: an open menu is closed and a
    closed one is opened, going by the aria-expanded attribute.  Opening
    and closing again gives back the closed page exactly, the other classes
    of the menu included. *)
Theorem toggle_click_flips (inside : bool) (p : MobileNav.page) :
  let click := MobileNav.Click {| MobileNav.path := [MobileNav.OnToggle];
                                  MobileNav.inside_menu := inside |} in
  (MobileNav.open_state p ->
   MobileNav.closed_state (MobileNav.after (MobileNav.dispatch click p))) /\
  (MobileNav.closed_state p ->
   MobileNav.open_state (MobileNav.after (MobileNav.dispatch click p)) /\
   MobileNav.after
     (MobileNav.dispatch click
        (MobileNav.after (MobileNav.dispatch click p))) = p).
Proof.
  cbn zeta. cbn [MobileNav.dispatch MobileNav.after MobileNav.path fold_left
                 MobileNav.listener_run].
  unfold MobileNav.document_click, MobileNav.toggle_contains.
  cbn [MobileNav.path existsb MobileNav.is_toggle orb negb andb].
  split.
  - intros [Ha _]. unfold MobileNav.toggle_click. rewrite Ha.
    apply MobileNavFacts.setOpen_false_closed.
  - intros [Ha [Hno Hov]].
    assert (Hclick : MobileNav.toggle_click p = MobileNav.setOpen true p).
    { unfold MobileNav.toggle_click. rewrite Ha. reflexivity. }
    rewrite Hclick.
    split; [apply MobileNavFacts.setOpen_true_open|].
    unfold MobileNav.toggle_click, MobileNav.setOpen.
    cbn [MobileNav.aria_expanded MobileNav.menu_classes
         MobileNav.body_overflow String.eqb Ascii.eqb Bool.eqb negb].
    unfold MobileNav.classList_toggle.
    assert (E : existsb (String.eqb "is-open") (MobileNav.menu_classes p) =
                false).
    { apply MobileNavFacts.closed_not_open. repeat split; assumption. }
    rewrite E, filter_app, (MobileNavFacts.filter_absent _ _ Hno).
    cbn [filter String.eqb Ascii.eqb Bool.eqb negb]. rewrite app_nil_r.
    destruct p as [a m o]. cbn in Ha, Hov. now subst.
Qed.

Lemma toggle_click_flips_witness :
  MobileNav.after
    (MobileNav.dispatch MobileNav.on_toggle
       (MobileNav.after
          (MobileNav.dispatch MobileNav.on_toggle MobileNav.authored))) =
    MobileNav.authored.
Proof.
  assert (H : MobileNav.closed_state MobileNav.authored).
  { repeat split. cbn. intros [H | []]. discriminate H. }
  apply (toggle_click_flips false MobileNav.authored). exact H.
Defined.

(** X27: the keyboard.  Escape closes an open menu and moves the focus to
    the toggle.  When the menu does not carry the is-open class, and for
    every other key, nothing changes and the focus is not moved. *)
Theorem escape_closes_open_menu (key : string) (p : MobileNav.page) :
  (key = "Escape" /\ In "is-open" (MobileNav.menu_classes p) ->
   MobileNav.closed_state
     (MobileNav.after (MobileNav.dispatch (MobileNav.Keydown key) p)) /\
   MobileNav.focused_toggle
     (MobileNav.dispatch (MobileNav.Keydown key) p) = true) /\
  (key <> "Escape" \/ ~ In "is-open" (MobileNav.menu_classes p) ->
   MobileNav.dispatch (MobileNav.Keydown key) p =
     {| MobileNav.after := p; MobileNav.focused_toggle := false |}).
Proof.
  cbn [MobileNav.dispatch]. unfold MobileNav.document_keydown. split.
  - intros [-> Hin].
    assert (E : existsb (String.eqb "is-open") (MobileNav.menu_classes p) =
                true).
    { apply existsb_exists. exists "is-open". split; [exact Hin | reflexivity]. }
    rewrite E. cbn [String.eqb Ascii.eqb Bool.eqb andb MobileNav.after
                    MobileNav.focused_toggle].
    split; [apply MobileNavFacts.setOpen_false_closed | reflexivity].
  - intros [Hkey | Hno].
    + apply String.eqb_neq in Hkey. rewrite Hkey. reflexivity.
    + assert (E : existsb (String.eqb "is-open") (MobileNav.menu_classes p) =
                  false).
      { apply not_true_is_false. intros E.
        apply existsb_exists in E. destruct E as [x [Hx Heq]].
        apply String.eqb_eq in Heq. subst. contradiction. }
      rewrite E. now rewrite andb_false_r.
Qed.
